(** * MergeGuard (PAIS GitHub extension): a shallow embedding of the
      checkpoint gating engine and the properties of its specification.

    The JavaScript sources are embedded class by class, one module per
    class.  Conventions:
    - [Date.now()] readings are passed in as an explicit [now : Z]
      (milliseconds); within one synchronous run a single reading is used;
    - the extension storage ([chrome.storage.local] behind [Storage]) is a
      finite map from keys to stored records, threaded explicitly;
    - JavaScript numbers that are millisecond counts are [Z]; weights,
      scores and percentages are exact rationals [Q];
    - [null]/[undefined] is [None]; the operators [||] and [??] on
      possibly-missing numbers are [JS.or_default] and [JS.nullish];
    - strings are 8-bit character strings; case mapping and trimming
      act on the ASCII range. *)

From Stdlib Require Import ZArith QArith Qround Qminmax String Ascii List Bool Lia Lqa.
From Stdlib Require Floats.
From stdpp Require Import base option list gmap strings pretty.

Import ListNotations.
Local Open Scope string_scope.
Local Open Scope list_scope.
Local Open Scope Z_scope.

(** ** JavaScript primitives used by the sources *)

Module JS.

(** [x || d] on a possibly-missing integer: [undefined] and [0] are falsy. *)
Definition or_default (x : option Z) (d : Z) : Z :=
  match x with
  | Some v => if v =? 0 then d else v
  | None => d
  end.

(** [x || d] on a possibly-missing rational number. *)
Definition or_defaultQ (x : option Q) (d : Q) : Q :=
  match x with
  | Some v => if Qeq_bool v 0%Q then d else v
  | None => d
  end.

(** [x ?? d]: only [null]/[undefined] select the default. *)
Definition nullish (x : option Q) (d : Q) : Q :=
  match x with
  | Some v => v
  | None => d
  end.

(** Truthiness of a string: every string but the empty one. *)
Definition truthy (s : string) : bool :=
  match s with
  | EmptyString => false
  | String _ _ => true
  end.

Definition upper_ascii (c : ascii) : ascii :=
  let n := nat_of_ascii c in
  if ((97 <=? n) && (n <=? 122))%nat then ascii_of_nat (n - 32) else c.

Definition lower_ascii (c : ascii) : ascii :=
  let n := nat_of_ascii c in
  if ((65 <=? n) && (n <=? 90))%nat then ascii_of_nat (n + 32) else c.

Fixpoint map_string (f : ascii -> ascii) (s : string) : string :=
  match s with
  | EmptyString => EmptyString
  | String c r => String (f c) (map_string f r)
  end.

(** [s.toUpperCase()] and [s.toLowerCase()]. *)
Definition toUpperCase (s : string) : string := map_string upper_ascii s.
Definition toLowerCase (s : string) : string := map_string lower_ascii s.

(** White space removed by [trim]: space, tab, LF, VT, FF, CR. *)
Definition is_space (c : ascii) : bool :=
  let n := nat_of_ascii c in
  ((n =? 32) || ((9 <=? n) && (n <=? 13)))%nat.

Fixpoint trimStart (s : string) : string :=
  match s with
  | EmptyString => EmptyString
  | String c r => if is_space c then trimStart r else s
  end.

(** Drops trailing white space: a character is kept when it is not a
    space or when something is kept after it. *)
Fixpoint trimEnd (s : string) : string :=
  match s with
  | EmptyString => EmptyString
  | String c r =>
      match trimEnd r with
      | EmptyString => if is_space c then EmptyString else String c EmptyString
      | r' => String c r'
      end
  end.

(** [s.trim()]. *)
Definition trim (s : string) : string := trimEnd (trimStart s).

(** [s.startsWith(p)]. *)
Fixpoint startsWith (p s : string) : bool :=
  match p, s with
  | EmptyString, _ => true
  | String a p', String b s' => if Ascii.eqb a b then startsWith p' s' else false
  | String _ _, EmptyString => false
  end.

(** [s.includes(p)]. *)
Fixpoint includes (p s : string) : bool :=
  startsWith p s ||
  match s with
  | EmptyString => false
  | String _ s' => includes p s'
  end.

(** The double-quote character, as a string. *)
Definition quote : string := String (ascii_of_nat 34) EmptyString.

(** [s.substring(0, n)]. *)
Definition substring0 (n : nat) (s : string) : string := String.substring 0 n s.

(** A string that does not begin with white space. *)
Definition clean_start (s : string) : Prop :=
  match s with
  | EmptyString => True
  | String c _ => is_space c = false
  end.

(** [s.slice(n)], for [0 <= n]. *)
Fixpoint slice (n : nat) (s : string) : string :=
  match n, s with
  | O, _ => s
  | S n', String _ s' => slice n' s'
  | S _, EmptyString => EmptyString
  end.

End JS.

(** ** Data model: session state and stored records *)

Record DiffMetrics := mkDiffMetrics {
  diff_time_ms : Z;
  diff_scroll_max_pct : Q
}.

Record NudgeShown := mkNudgeShown {
  ns_timestamp : Z;
  ns_tier : nat
}.

(** One entry of [checkpointHistory]: [{timestamp, kind, result}]. *)
Record Checkpoint := mkCheckpoint {
  cp_timestamp : Z;
  cp_kind : string;
  cp_result : string
}.

Record SessionState := mkSessionState {
  prId : string;
  sessionId : string;
  prLoadTime : Z;
  lastActive : Z;
  owner : string;
  repo : string;
  prNumber : Z;
  tabsViewed : list string;
  checksViewed : bool;
  diffMetrics : DiffMetrics;
  nudgesShown : gmap string NudgeShown;
  checkpointHistory : list Checkpoint;
  version : string
}.

(** ** Policy document *)

Record Cooldowns := mkCooldowns {
  proactive_nudge_ms : option Z;
  premerge_reset_after_review_ms : option Z;
  token_ttl_ms : option Z
}.

Record KindConfig := mkKindConfig {
  patterns : list string;
  description : string
}.

Record Matchers := mkMatchers {
  scope_selector : option string;
  (** the entries of the [kinds] object as [Object.entries] enumerates
      them: declaration order, for identifiers that are not array indices *)
  kinds : option (list (string * KindConfig))
}.

Record Signals := mkSignals {
  files_changed : option Q;
  checks_viewed : option Q;
  diff_time_target_ms : option Q;
  diff_time_max : option Q;
  scroll_depth : option Q;
  conversation_viewed : option Q;
  min_time_before_merge_ms : option Z;
  early_merge_penalty : option Q
}.

Record Thresholds := mkThresholds {
  signals : option Signals;
  tier1_min : option Q;
  tier2_min : option Q
}.

Record Tier3Template := mkTier3Template {
  title_template : option string;
  title : option string;
  subtitle_template : option string;
  subtitle : option string;
  checklist : option (list string);
  confirmation_text : option string
}.

Record Templates := mkTemplates {
  tier3 : option (list (string * Tier3Template))
}.

Record Policy := mkPolicy {
  policy_version : string;
  checkpoint_matchers : option Matchers;
  nudge_thresholds : option Thresholds;
  cooldowns : option Cooldowns;
  ui_templates : option Templates
}.

(** ** Audit log entries *)

(** A JSON-like payload value; an object is the list of its own
    enumerable entries, in enumeration order. *)
#[local] Unset Elimination Schemes.
Inductive JValue :=
  | JNull
  | JBool (b : bool)
  | JNum (q : Q)
  | JStr (s : string)
  | JArr (items : list JValue)
  | JObj (fields : list (string * JValue)).
#[local] Set Elimination Schemes.

Abbreviation Payload := (list (string * JValue)).

(** [{v, ts, type, payload, policy_version, extension_version}]. *)
Record LogEvent := mkLogEvent {
  ev_v : string;
  ev_ts : Z;
  ev_type : string;
  ev_payload : Payload;
  ev_policy_version : string;
  ev_extension_version : string
}.

(** The allow token written by [createAllowToken]:
    [{timestamp, ttl, used}]. *)
Record AllowToken := mkAllowToken {
  tok_timestamp : Z;
  tok_ttl : Z;
  tok_used : bool
}.

(** The records the extension keeps in storage, by the key family that
    holds them. *)
Inductive stored :=
  | SProactive (timestamp : Z) (score : Q)
  | SPremerge (timestamp : Z) (tier : nat) (action : string)
  | SReview (timestamp : Z)
  | SToken (tok : AllowToken)
  | SState (st : SessionState)
  | SPolicy (p : Policy)
  | SEvents (buffer : list LogEvent).

(** [record.timestamp]; the other stored values have no such property. *)
Definition timestamp_of (v : stored) : option Z :=
  match v with
  | SProactive t _ | SPremerge t _ _ | SReview t => Some t
  | SToken tok => Some (tok_timestamp tok)
  | SState _ | SPolicy _ | SEvents _ => None
  end.

(** [token.used], coerced to a boolean: only a token record has it. *)
Definition used_of (v : stored) : bool :=
  match v with
  | SToken tok => tok_used tok
  | _ => false
  end.

(** [token.ttl]. *)
Definition ttl_of (v : stored) : option Z :=
  match v with
  | SToken tok => Some (tok_ttl tok)
  | _ => None
  end.

(** [a > b] on possibly-[undefined] numbers: a comparison with
    [undefined] is false. *)
Definition js_gt (a b : option Z) : bool :=
  match a, b with
  | Some x, Some y => y <? x
  | _, _ => false
  end.

(** The storage area, already restricted to the extension's name space. *)
Abbreviation store := (gmap string stored).

(** [obj[key]] on an object given by its entries. *)
Fixpoint assoc {A} (k : string) (l : list (string * A)) : option A :=
  match l with
  | [] => None
  | (k', v) :: r => if String.eqb k k' then Some v else assoc k r
  end.

(** ** CooldownManager (cooldown records and allow tokens) *)

Module CooldownManager.

Definition empty_cooldowns : Cooldowns := mkCooldowns None None None.

(** [policy.getCooldowns()] is [this.policy?.cooldowns || {}], always an
    object, so the literal default of [getCooldowns] is never taken. *)
Definition getCooldowns (policy : option Policy) : Cooldowns :=
  match policy with
  | Some p => match cooldowns p with Some c => c | None => empty_cooldowns end
  | None => empty_cooldowns
  end.

Definition proactive_key (pr : string) : string := "nudge_proactive_" +:+ pr.
Definition premerge_key (pr : string) : string := "nudge_premerge_" +:+ pr.
Definition review_key (pr : string) : string := "review_" +:+ pr.
Definition token_key (pr el : string) : string :=
  "allow_token_" +:+ pr +:+ "_" +:+ el.

Definition shouldShowProactiveNudge
    (policy : option Policy) (s : store) (now : Z) (pr : string) : bool :=
  match s !! proactive_key pr with
  | None => true
  | Some rec =>
      match timestamp_of rec with
      | Some t =>
          JS.or_default (proactive_nudge_ms (getCooldowns policy)) 600000
            <? now - t
      | None => false
      end
  end.

Definition recordProactiveNudge (s : store) (now : Z) (pr : string) (score : Q)
  : store :=
  <[proactive_key pr := SProactive now score]> s.

Definition shouldShowPremergeNudge (s : store) (pr : string) : bool :=
  match s !! premerge_key pr with
  | None => true
  | Some rec =>
      match s !! review_key pr with
      | Some lastReview =>
          if js_gt (timestamp_of lastReview) (timestamp_of rec)
          then true else false
      | None => false
      end
  end.

Definition recordPremergeNudge
    (s : store) (now : Z) (pr : string) (tier : nat) (action : string) : store :=
  <[premerge_key pr := SPremerge now tier action]> s.

Definition recordReview (s : store) (now : Z) (pr : string) : store :=
  <[review_key pr := SReview now]> s.

Definition createAllowToken
    (policy : option Policy) (s : store) (now : Z) (pr el : string) : store :=
  <[token_key pr el :=
      SToken (mkAllowToken now
                (JS.or_default (token_ttl_ms (getCooldowns policy)) 5000)
                false)]> s.

Definition hasValidToken (s : store) (now : Z) (pr el : string) : bool :=
  match s !! token_key pr el with
  | None => false
  | Some token =>
      if used_of token then false
      else
        match timestamp_of token, ttl_of token with
        | Some t, Some ttl => if ttl <? now - t then false else true
        | _, _ => true
        end
  end.

(** [token.used = true] on the record read from storage.  Token keys
    hold token records only; any other record is left as it is. *)
Definition mark_used (v : stored) : stored :=
  match v with
  | SToken tok => SToken (mkAllowToken (tok_timestamp tok) (tok_ttl tok) true)
  | other => other
  end.

(** The write of [consumeToken]; the removal it schedules with
    [setTimeout(..., 100)] is [cleanupToken], run by a later turn. *)
Definition consumeToken (s : store) (pr el : string) : store :=
  match s !! token_key pr el with
  | Some token => <[token_key pr el := mark_used token]> s
  | None => s
  end.

Definition cleanupToken (s : store) (pr el : string) : store :=
  delete (token_key pr el) s.

Definition clearForPR (s : store) (pr : string) : store :=
  delete (review_key pr) (delete (premerge_key pr) (delete (proactive_key pr) s)).

(** The age limit [cleanup] picks for a key; a duration missing from the
    policy stays [undefined]. *)
Definition maxAge (c : Cooldowns) (key : string) : option Z :=
  if JS.startsWith "nudge_proactive" key then proactive_nudge_ms c
  else if JS.startsWith "allow_token_" key then token_ttl_ms c
  else Some 86400000.

(** Does [cleanup] collect the entry?  Only nudge and token keys are
    looked at, and a comparison with a missing number is false. *)
Definition expired (c : Cooldowns) (now : Z) (key : string) (value : stored) : bool :=
  if negb (JS.startsWith "nudge_" key) && negb (JS.startsWith "allow_token_" key)
  then false
  else
    match timestamp_of value, maxAge c key with
    | Some t, Some age => age * 2 <? now - t
    | _, _ => false
    end.

(** [cleanup()]: the store without the expired entries, and how many
    were removed. *)
Definition cleanup (policy : option Policy) (s : store) (now : Z) : store * nat :=
  let c := getCooldowns policy in
  (filter (fun kv => expired c now (fst kv) (snd kv) = false) s,
   size (filter (fun kv => expired c now (fst kv) (snd kv) = true) s)).

End CooldownManager.

(** ** StateManager (per-PR session state) *)

Module StateManager.

Record t := mk {
  sm_sessionId : string;
  currentState : option SessionState;
  sm_prId : option string
}.

(** The result of [parsePRFromURL]: [{owner, repo, prNumber}]. *)
Record PRInfo := mkPRInfo {
  pi_owner : string;
  pi_repo : string;
  pi_prNumber : Z
}.

(** The partial object accepted by [updateDiffMetrics]. *)
Record MetricsPatch := mkMetricsPatch {
  patch_diff_time_ms : option Z;
  patch_diff_scroll_max_pct : option Q
}.

Definition set_lastActive (v : Z) (st : SessionState) : SessionState :=
  mkSessionState (prId st) (sessionId st) (prLoadTime st) v (owner st) (repo st)
    (prNumber st) (tabsViewed st) (checksViewed st) (diffMetrics st)
    (nudgesShown st) (checkpointHistory st) (version st).

Definition set_sessionId (v : string) (st : SessionState) : SessionState :=
  mkSessionState (prId st) v (prLoadTime st) (lastActive st) (owner st) (repo st)
    (prNumber st) (tabsViewed st) (checksViewed st) (diffMetrics st)
    (nudgesShown st) (checkpointHistory st) (version st).

Definition set_tabsViewed (v : list string) (st : SessionState) : SessionState :=
  mkSessionState (prId st) (sessionId st) (prLoadTime st) (lastActive st) (owner st)
    (repo st) (prNumber st) v (checksViewed st) (diffMetrics st)
    (nudgesShown st) (checkpointHistory st) (version st).

Definition set_checksViewed (v : bool) (st : SessionState) : SessionState :=
  mkSessionState (prId st) (sessionId st) (prLoadTime st) (lastActive st) (owner st)
    (repo st) (prNumber st) (tabsViewed st) v (diffMetrics st)
    (nudgesShown st) (checkpointHistory st) (version st).

Definition set_diffMetrics (v : DiffMetrics) (st : SessionState) : SessionState :=
  mkSessionState (prId st) (sessionId st) (prLoadTime st) (lastActive st) (owner st)
    (repo st) (prNumber st) (tabsViewed st) (checksViewed st) v
    (nudgesShown st) (checkpointHistory st) (version st).

Definition set_nudgesShown (v : gmap string NudgeShown) (st : SessionState)
  : SessionState :=
  mkSessionState (prId st) (sessionId st) (prLoadTime st) (lastActive st) (owner st)
    (repo st) (prNumber st) (tabsViewed st) (checksViewed st) (diffMetrics st)
    v (checkpointHistory st) (version st).

Definition set_checkpointHistory (v : list Checkpoint) (st : SessionState)
  : SessionState :=
  mkSessionState (prId st) (sessionId st) (prLoadTime st) (lastActive st) (owner st)
    (repo st) (prNumber st) (tabsViewed st) (checksViewed st) (diffMetrics st)
    (nudgesShown st) v (version st).

Definition set_currentState (v : option SessionState) (m : t) : t :=
  mk (sm_sessionId m) v (sm_prId m).

Definition state_key (pr : string) : string := "state:" +:+ pr.

(** [list.includes(x)] on a list of strings. *)
Definition includes (x : string) (l : list string) : bool :=
  existsb (String.eqb x) l.

Definition createFreshState (m : t) (now : Z) (info : PRInfo) : SessionState :=
  mkSessionState (default "" (sm_prId m)) (sm_sessionId m) now now
    (pi_owner info) (pi_repo info) (pi_prNumber info)
    [] false (mkDiffMetrics 0 0) ∅ [] "1.0.0".

(** [isValidState] on the value read from storage. *)
Definition isValidState (v : stored) : bool :=
  match v with
  | SState st => JS.truthy (prId st) && String.eqb (version st) "1.0.0"
  | _ => false
  end.

Definition save (m : t) (s : store) (now : Z) : t * store :=
  match currentState m, sm_prId m with
  | Some st, Some pr =>
      if JS.truthy pr then
        let st' := set_lastActive now st in
        (set_currentState (Some st') m, <[state_key pr := SState st']> s)
      else (m, s)
  | _, _ => (m, s)
  end.

(** [initialize(url)], given the result of [parsePRFromURL(url)]. *)
Definition initialize (m : t) (s : store) (now : Z) (parsed : option PRInfo)
  : t * store :=
  match parsed with
  | None => (mk (sm_sessionId m) None None, s)
  | Some info =>
      let pr := pi_owner info +:+ "/" +:+ pi_repo info +:+ "/"
                  +:+ pretty (pi_prNumber info) in
      let m1 := mk (sm_sessionId m) (currentState m) (Some pr) in
      let cur :=
        match s !! state_key pr with
        | Some (SState st as existing) =>
            if isValidState existing
            then set_lastActive now (set_sessionId (sm_sessionId m) st)
            else createFreshState m1 now info
        | _ => createFreshState m1 now info
        end in
      save (set_currentState (Some cur) m1) s now
  end.

Definition recordTabView (m : t) (s : store) (now : Z) (tab : string) : t * store :=
  match currentState m with
  | None => (m, s)
  | Some st =>
      if includes tab (tabsViewed st) then (m, s)
      else save (set_currentState
                   (Some (set_tabsViewed (tabsViewed st ++ [tab]) st)) m) s now
  end.

Definition recordChecksViewed (m : t) (s : store) (now : Z) : t * store :=
  match currentState m with
  | None => (m, s)
  | Some st =>
      if checksViewed st then (m, s)
      else save (set_currentState (Some (set_checksViewed true st)) m) s now
  end.

Definition addDiffTime (m : t) (s : store) (now : Z) (ms : Z) : t * store :=
  match currentState m with
  | None => (m, s)
  | Some st =>
      let dm := diffMetrics st in
      let dm' := mkDiffMetrics (diff_time_ms dm + ms) (diff_scroll_max_pct dm) in
      save (set_currentState (Some (set_diffMetrics dm' st)) m) s now
  end.

Definition updateScrollMax (m : t) (s : store) (now : Z) (pct : Q) : t * store :=
  match currentState m with
  | None => (m, s)
  | Some st =>
      let dm := diffMetrics st in
      let dm' := mkDiffMetrics (diff_time_ms dm)
                   (Qmax (diff_scroll_max_pct dm) pct) in
      save (set_currentState (Some (set_diffMetrics dm' st)) m) s now
  end.

Definition updateDiffMetrics (m : t) (s : store) (now : Z) (metrics : MetricsPatch)
  : t * store :=
  match currentState m with
  | None => (m, s)
  | Some st =>
      let dm := diffMetrics st in
      let dm' := mkDiffMetrics
                   (default (diff_time_ms dm) (patch_diff_time_ms metrics))
                   (default (diff_scroll_max_pct dm)
                      (patch_diff_scroll_max_pct metrics)) in
      save (set_currentState (Some (set_diffMetrics dm' st)) m) s now
  end.

Definition recordNudgeShown (m : t) (s : store) (now : Z) (type : string) (tier : nat)
  : t * store :=
  match currentState m with
  | None => (m, s)
  | Some st =>
      let ns := <[type := mkNudgeShown now tier]> (nudgesShown st) in
      save (set_currentState (Some (set_nudgesShown ns st)) m) s now
  end.

(** [history.push(entry)], then one [shift()] when more than ten
    entries are held. *)
Definition push_bounded (entry : Checkpoint) (history : list Checkpoint)
  : list Checkpoint :=
  let pushed := history ++ [entry] in
  if (10 <? length pushed)%nat then tail pushed else pushed.

Definition recordCheckpoint (m : t) (s : store) (now : Z) (kind result : string)
  : t * store :=
  match currentState m with
  | None => (m, s)
  | Some st =>
      let h := push_bounded (mkCheckpoint now kind result) (checkpointHistory st) in
      save (set_currentState (Some (set_checkpointHistory h st)) m) s now
  end.

Definition reset (m : t) (fresh_id : string) : t :=
  mk fresh_id None None.

Definition getMissingItems (m : t) : list string :=
  match currentState m with
  | None => ["Files changed"; "Checks"]
  | Some st =>
      (if includes "files" (tabsViewed st) then [] else ["Files changed"])
      ++ (if checksViewed st then [] else ["Checks"])
  end.

(** The mutating operations of the class, as data. *)
Inductive op :=
  | OpInitialize (parsed : option PRInfo)
  | OpRecordTabView (tab : string)
  | OpRecordChecksViewed
  | OpAddDiffTime (ms : Z)
  | OpUpdateScrollMax (pct : Q)
  | OpUpdateDiffMetrics (metrics : MetricsPatch)
  | OpRecordNudgeShown (type : string) (tier : nat)
  | OpRecordCheckpoint (kind result : string)
  | OpReset (fresh_id : string).

Definition apply (o : op) (m : t) (s : store) (now : Z) : t * store :=
  match o with
  | OpInitialize parsed => initialize m s now parsed
  | OpRecordTabView tab => recordTabView m s now tab
  | OpRecordChecksViewed => recordChecksViewed m s now
  | OpAddDiffTime ms => addDiffTime m s now ms
  | OpUpdateScrollMax pct => updateScrollMax m s now pct
  | OpUpdateDiffMetrics metrics => updateDiffMetrics m s now metrics
  | OpRecordNudgeShown type tier => recordNudgeShown m s now type tier
  | OpRecordCheckpoint kind result => recordCheckpoint m s now kind result
  | OpReset fresh_id => (reset m fresh_id, s)
  end.

(** [getDiffTimeAccumulated()]:
    [this.currentState?.diffMetrics?.diff_time_ms || 0]. *)
Definition getDiffTimeAccumulated (m : t) : Z :=
  JS.or_default (option_map (fun st => diff_time_ms (diffMetrics st)) (currentState m)) 0.

End StateManager.

(** ** PolicyLoader *)

(** The regular-expression engine of the host: [new RegExp(pattern, 'i')]
    either throws a [SyntaxError] ([None]) or yields a regular expression,
    given by its [test] method. *)
Abbreviation RegExpCtor := (string -> option (string -> bool)).

Module PolicyLoader.

Definition getFallbackPolicy : Policy :=
  mkPolicy "1.0.0-fallback"
    (Some (mkMatchers
      (Some (".merge-box, [data-testid=" +:+ JS.quote +:+ "mergebox" +:+ JS.quote +:+ "]"))
      (Some [ ("MERGE_NOW",
                mkKindConfig ["Confirm merge"; "Merge pull request"]
                  "Immediate merge");
              ("AUTO_MERGE_ENABLE",
                mkKindConfig ["Enable auto-merge"] "Auto-merge");
              ("MERGE_QUEUE_ADD",
                mkKindConfig ["Add to merge queue"; "Merge when ready"]
                  "Merge queue") ])))
    (Some (mkThresholds
      (Some (mkSignals (Some 0.35%Q) (Some 0.25%Q) (Some 60000%Q) (Some 0.20%Q)
               (Some 0.10%Q) (Some 0.10%Q) (Some 30000) (Some 0.25%Q)))
      (Some 0.70%Q) (Some 0.45%Q)))
    (Some (mkCooldowns (Some 600000) (Some 300000) (Some 5000)))
    (Some (mkTemplates
      (Some [ ("MERGE_NOW",
                mkTier3Template
                  (Some "Confirm {method} now") None
                  (Some "This will merge into {base_branch} immediately.") None
                  (Some [ "I visited " +:+ JS.quote +:+ "Files changed" +:+ JS.quote
+:+ " and reviewed the diff.";
                          "I checked CI/status checks.";
                          "I can restate what this merges into." ])
                  (Some "MERGE"));
              ("AUTO_MERGE_ENABLE",
                mkTier3Template
                  None (Some "Enable auto-merge")
                  None (Some "This will merge automatically when checks pass.")
                  (Some [ "I understand this will merge later.";
                          "I checked required checks.";
                          "I will monitor the result." ])
                  (Some "MERGE"));
              ("MERGE_QUEUE_ADD",
                mkTier3Template
                  None (Some "Add to merge queue")
                  None (Some "This schedules a merge when queue rules allow.")
                  (Some [ "I understand this schedules a merge.";
                          "I checked this PR is ready.";
                          "I will monitor the outcome." ])
                  (Some "MERGE")) ]))).

Definition validate (policy : option Policy) : bool :=
  match policy with
  | None => false
  | Some p =>
      match checkpoint_matchers p with
      | None => false
      | Some cm =>
          match kinds cm, nudge_thresholds p, ui_templates p with
          | Some _, Some _, Some _ => true
          | _, _, _ => false
          end
      end
  end.

Definition empty_matchers : Matchers := mkMatchers None None.
Definition empty_thresholds : Thresholds := mkThresholds None None None.

(** [this.policy?.checkpoint_matchers || {}]. *)
Definition getCheckpointMatchers (policy : option Policy) : Matchers :=
  match policy with
  | Some p => default empty_matchers (checkpoint_matchers p)
  | None => empty_matchers
  end.

(** [this.policy?.nudge_thresholds || {}]. *)
Definition getNudgeThresholds (policy : option Policy) : Thresholds :=
  match policy with
  | Some p => default empty_thresholds (nudge_thresholds p)
  | None => empty_thresholds
  end.

(** [this.policy?.ui_templates?.tier3?.[kind] || null]. *)
Definition getTier3Template (policy : option Policy) (kind : string)
  : option Tier3Template :=
  match policy with
  | Some p =>
      match ui_templates p with
      | Some ui =>
          match tier3 ui with
          | Some by_kind => assoc kind by_kind
          | None => None
          end
      | None => None
      end
  | None => None
  end.

(** [this.policy?.checkpoint_matchers?.kinds]. *)
Definition policy_kinds (policy : option Policy)
  : option (list (string * KindConfig)) :=
  match policy with
  | Some p =>
      match checkpoint_matchers p with
      | Some cm => kinds cm
      | None => None
      end
  | None => None
  end.

Section Classify.

Variable RegExp_i : RegExpCtor.

(** The inner loop over [config.patterns]: a pattern that fails to
    compile is caught (and warned about), and the loop goes on. *)
Fixpoint test_patterns (ps : list string) (text : string) : bool :=
  match ps with
  | [] => false
  | pattern :: rest =>
      match RegExp_i pattern with
      | Some regex => if regex text then true else test_patterns rest text
      | None => test_patterns rest text
      end
  end.

(** The outer loop over [Object.entries(kinds)], in enumeration order. *)
Fixpoint classify_entries (entries : list (string * KindConfig)) (text : string)
  : option string :=
  match entries with
  | [] => None
  | (kind, config) :: rest =>
      if test_patterns (patterns config) text then Some kind
      else classify_entries rest text
  end.

Definition classifyCheckpoint (policy : option Policy) (text : string)
  : option string :=
  match policy_kinds policy with
  | None => None
  | Some entries => classify_entries entries text
  end.

Definition matchesCheckpoint (policy : option Policy) (text kind : string) : bool :=
  match policy_kinds policy with
  | None => false
  | Some entries =>
      match assoc kind entries with
      | None => false
      | Some config => test_patterns (patterns config) text
      end
  end.

End Classify.

(** [loadDefaultPolicy()]: the packaged [policy.json] when fetching and
    parsing it succeeds ([Some]), the hard-coded fallback otherwise. *)
Definition loadDefaultPolicy (fetched : option Policy) : Policy :=
  default getFallbackPolicy fetched.

(** The custom policy held in storage, if any. *)
Definition customPolicy (s : store) : option Policy :=
  match s !! "custom_policy" with
  | Some (SPolicy c) => Some c
  | _ => None
  end.

(** [load()]: the policy the loader ends up with. *)
Definition load (s : store) (fetched : option Policy) : Policy :=
  let candidate := match customPolicy s with
                   | Some c => c
                   | None => loadDefaultPolicy fetched
                   end in
  if validate (Some candidate) then candidate else loadDefaultPolicy fetched.

(** [setCustomPolicy(policy)]: the store after it, or [None] when it
    throws ['Invalid policy structure']. *)
Definition setCustomPolicy (s : store) (p : Policy) : option store :=
  if validate (Some p) then Some (<["custom_policy" := SPolicy p]> s) else None.

(** [resetToDefault()]: the store and the policy after it. *)
Definition resetToDefault (s : store) (fetched : option Policy) : store * Policy :=
  (delete "custom_policy" s, loadDefaultPolicy fetched).

End PolicyLoader.

(** ** The options page *)

Module OptionsPage.

(** [savePolicy()] on editor contents that parse to [p]: the parsed
    document is stored as it is. *)
Definition savePolicy (s : store) (p : Policy) : store :=
  <["custom_policy" := SPolicy p]> s.

Definition resetPolicy (s : store) : store := delete "custom_policy" s.

(** [validatePolicy()]: are the three required fields present? *)
Definition validatePolicy (p : Policy) : bool :=
  match checkpoint_matchers p, nudge_thresholds p, ui_templates p with
  | Some _, Some _, Some _ => true
  | _, _, _ => false
  end.

(** [clearLogs()]. *)
Definition clearLogs (s : store) : store := delete "event_buffer" s.

End OptionsPage.

(** ** ReadinessCalculator, in exact arithmetic *)

(** The calculator with every number read as the rational it denotes.
    [Binary64.ReadinessCalculator], further down, is the same code on IEEE
    754 doubles, where every sum and product is rounded as it is at run
    time. *)
Module ReadinessCalculator.

Record Raw := mkRaw {
  raw_diff_time_ms : Z;
  raw_scroll_pct : Q;
  raw_tabs : list string;
  raw_time_since_load : Z
}.

Record Result := mkResult {
  score : Q;
  tier : nat;
  reasons : list string;
  positive : list string;
  raw : Raw
}.

Definition empty_signals : Signals :=
  mkSignals None None None None None None None None.

(** [Math.round(x * 100) / 100]; [Math.round] rounds half up. *)
Definition round2 (x : Q) : Q :=
  (inject_Z (Qfloor (x * 100 + (1 # 2))) / 100)%Q.

(** [Math.max(0, Math.min(1, score))]. *)
Definition clamp01 (x : Q) : Q := Qmax 0%Q (Qmin 1%Q x).

(** The tier selected for a clamped score. *)
Definition tier_of (tier1Min tier2Min score : Q) : nat :=
  if Qle_bool tier1Min score then 0%nat
  else if Qle_bool tier2Min score then 1%nat
  else 2%nat.

(** The score before clamping, with the signals found and missed. *)
Definition accumulate (sg : Signals) (state : SessionState) (now : Z)
  : Q * list string * list string :=
  let '(s1, r1, p1) :=
    if StateManager.includes "files" (tabsViewed state)
    then (JS.or_defaultQ (files_changed sg) 0.35%Q, [], ["files_changed"])
    else (0%Q, ["files_not_viewed"], []) in
  let '(s2, r2, p2) :=
    if checksViewed state
    then ((s1 + JS.or_defaultQ (checks_viewed sg) 0.25)%Q, r1,
          p1 ++ ["checks_viewed"])
    else (s1, r1 ++ ["checks_not_viewed"], p1) in
  let diffTime := diff_time_ms (diffMetrics state) in
  let diffTimeTarget := JS.or_defaultQ (diff_time_target_ms sg) 60000%Q in
  let diffTimeMax := JS.or_defaultQ (diff_time_max sg) 0.20%Q in
  let diffTimeScore :=
    (Qmin (inject_Z diffTime / diffTimeTarget) 1 * diffTimeMax)%Q in
  let s3 := (s2 + diffTimeScore)%Q in
  let '(r3, p3) :=
    if Qle_bool (diffTimeMax * 0.9)%Q diffTimeScore
    then (r2, p2 ++ ["sufficient_diff_time"])
    else (r2 ++ ["insufficient_diff_time"], p2) in
  let scrollPct := diff_scroll_max_pct (diffMetrics state) in
  let '(s4, r4, p4) :=
    if Qle_bool 50%Q scrollPct
    then ((s3 + JS.or_defaultQ (scroll_depth sg) 0.10)%Q, r3,
          p3 ++ ["good_scroll_depth"])
    else (s3, r3 ++ ["low_scroll_depth"], p3) in
  let '(s5, p5) :=
    if StateManager.includes "conversation" (tabsViewed state)
    then ((s4 + JS.or_defaultQ (conversation_viewed sg) 0.10)%Q,
          p4 ++ ["conversation_viewed"])
    else (s4, p4) in
  let timeSinceLoad := now - JS.or_default (Some (prLoadTime state)) now in
  let minTime := JS.or_default (min_time_before_merge_ms sg) 30000 in
  if timeSinceLoad <? minTime
  then ((s5 - JS.or_defaultQ (early_merge_penalty sg) 0.25)%Q,
        r4 ++ ["merge_too_fast"], p5)
  else (s5, r4, p5).

Definition calculate (policy : option Policy) (state : SessionState) (now : Z)
  : Result :=
  let thresholds := PolicyLoader.getNudgeThresholds policy in
  let sg := default empty_signals (signals thresholds) in
  let '(unclamped, reasons, positive) := accumulate sg state now in
  let score := clamp01 unclamped in
  let tier1Min := JS.nullish (tier1_min thresholds) 0.70%Q in
  let tier2Min := JS.nullish (tier2_min thresholds) 0.45%Q in
  mkResult (round2 score) (tier_of tier1Min tier2Min score) reasons positive
    (mkRaw (diff_time_ms (diffMetrics state))
           (round2 (diff_scroll_max_pct (diffMetrics state)))
           (tabsViewed state)
           (now - JS.or_default (Some (prLoadTime state)) now)).

(** The clamped score that [calculate] thresholds, before the rounding
    applied to the reported [score]. *)
Definition clamped_score (policy : option Policy) (state : SessionState) (now : Z)
  : Q :=
  let thresholds := PolicyLoader.getNudgeThresholds policy in
  let sg := default empty_signals (signals thresholds) in
  clamp01 (fst (fst (accumulate sg state now))).

Definition isReady (policy : option Policy) (state : SessionState) (now : Z) : bool :=
  Nat.eqb (tier (calculate policy state now)) 0.

(** [getMissingItems(state)], the calculator's own copy. *)
Definition getMissingItems (state : SessionState) : list string :=
  (if StateManager.includes "files" (tabsViewed state) then [] else ["Files changed"])
  ++ (if checksViewed state then [] else ["Checks"]).

(** The score before clamping: what the signals add up to. *)
Definition unclamped_score (policy : option Policy) (state : SessionState) (now : Z)
  : Q :=
  let sg := default empty_signals (signals (PolicyLoader.getNudgeThresholds policy)) in
  fst (fst (accumulate sg state now)).

End ReadinessCalculator.

(** ** IEEE 754 binary64, the numbers of the readiness score *)

Module Binary64.

Import PrimFloat FloatOps.
#[local] Set Warnings "-inexact-float".

(** The double nearest to an integer, and to a decimal of the policy
    document as [JSON.parse] reads it: the correctly rounded quotient of
    numerator and denominator, both exact below [2^53]. *)
Definition of_Z (z : Z) : float :=
  SF2Prim (SpecFloat.binary_normalize prec emax z 0 false).

Definition of_Q (q : Q) : float := (of_Z (Qnum q) / of_Z (Zpos (Qden q)))%float.

(** [x || d] on numbers: [0], [-0] and [NaN] are falsy. *)
Definition or_default (x : option float) (d : float) : float :=
  match x with
  | Some v => if is_zero v || is_nan v then d else v
  | None => d
  end.

(** [x ?? d]. *)
Definition nullish (x : option float) (d : float) : float :=
  match x with
  | Some v => v
  | None => d
  end.

(** [x >= y]; false when either is [NaN]. *)
Definition ge (x y : float) : bool := (y <=? x)%float.

Module Math.

(** [Math.min(a, b)]: [NaN] if either is, and [-0] below [+0]. *)
Definition min (a b : float) : float :=
  match (a ?= b)%float with
  | FLt => a
  | FGt => b
  | FEq => if get_sign a then a else b
  | FNotComparable => nan
  end.

(** [Math.max(a, b)]. *)
Definition max (a b : float) : float :=
  match (a ?= b)%float with
  | FLt => b
  | FGt => a
  | FEq => if get_sign a then b else a
  | FNotComparable => nan
  end.

(** [Math.round(x)]: the integer nearest to [x], ties towards
    [+Infinity]; [-0] for [-0.5 <= x < 0]; [x] itself when it is an
    integer already, an infinity or [NaN]. *)
Definition round (x : float) : float :=
  match Prim2SF x with
  | SpecFloat.S754_finite s m e =>
      if 0 <=? e then x
      else
        let p := 2 ^ (- e) in
        let z := ((if s then - Zpos m else Zpos m) * 2 + p) / (2 * p) in
        if z =? 0 then (if s then neg_zero else zero) else of_Z z
  | _ => x
  end.

End Math.

(** [Math.round(x * 100) / 100]. *)
Definition round2 (x : float) : float := (Math.round (x * 100) / 100)%float.

(** *** ReadinessCalculator over doubles *)

Module ReadinessCalculator.

(** [nudge_thresholds.signals], each number as the double it is at run
    time. *)
Record Signals := mkSignals {
  files_changed : option float;
  checks_viewed : option float;
  diff_time_target_ms : option float;
  diff_time_max : option float;
  scroll_depth : option float;
  conversation_viewed : option float;
  min_time_before_merge_ms : option float;
  early_merge_penalty : option float
}.

(** What [this.policy.getNudgeThresholds()] returns. *)
Record Thresholds := mkThresholds {
  signals : option Signals;
  tier1_min : option float;
  tier2_min : option float
}.

(** The fields of the session state that [calculate] reads. *)
Record State := mkState {
  tabsViewed : option (list string);
  checksViewed : bool;
  diff_time_ms : option float;
  diff_scroll_max_pct : option float;
  prLoadTime : option float
}.

Record Raw := mkRaw {
  raw_diff_time_ms : float;
  raw_scroll_pct : float;
  raw_tabs : list string;
  raw_time_since_load : float
}.

Record Result := mkResult {
  score : float;
  tier : nat;
  reasons : list string;
  positive : list string;
  raw : Raw
}.

Definition empty_signals : Signals :=
  mkSignals None None None None None None None None.

(** [state.tabsViewed?.includes(tab)]. *)
Definition viewed (tab : string) (state : State) : bool :=
  match tabsViewed state with
  | Some tabs => existsb (String.eqb tab) tabs
  | None => false
  end.

(** Lines 16 to 76: the score before clamping, summed from the left in
    the order of the statements, with the signals missed and found. *)
Definition accumulate (sg : Signals) (state : State) (now : float)
  : float * list string * list string :=
  let '(s1, r1, p1) :=
    if viewed "files" state
    then ((0 + or_default (files_changed sg) 0.35)%float, [], ["files_changed"])
    else (0%float, ["files_not_viewed"], []) in
  let '(s2, r2, p2) :=
    if checksViewed state
    then ((s1 + or_default (checks_viewed sg) 0.25)%float, r1,
          p1 ++ ["checks_viewed"])
    else (s1, r1 ++ ["checks_not_viewed"], p1) in
  let diffTime := or_default (diff_time_ms state) 0 in
  let diffTimeTarget := or_default (diff_time_target_ms sg) 60000 in
  let diffTimeMax := or_default (diff_time_max sg) 0.20 in
  let diffTimeScore := (Math.min (diffTime / diffTimeTarget) 1 * diffTimeMax)%float in
  let s3 := (s2 + diffTimeScore)%float in
  let '(r3, p3) :=
    if ge diffTimeScore (diffTimeMax * 0.9)
    then (r2, p2 ++ ["sufficient_diff_time"])
    else (r2 ++ ["insufficient_diff_time"], p2) in
  let scrollPct := or_default (diff_scroll_max_pct state) 0 in
  let '(s4, r4, p4) :=
    if ge scrollPct 50
    then ((s3 + or_default (scroll_depth sg) 0.10)%float, r3,
          p3 ++ ["good_scroll_depth"])
    else (s3, r3 ++ ["low_scroll_depth"], p3) in
  let '(s5, p5) :=
    if viewed "conversation" state
    then ((s4 + or_default (conversation_viewed sg) 0.10)%float,
          p4 ++ ["conversation_viewed"])
    else (s4, p4) in
  let timeSinceLoad := (now - or_default (prLoadTime state) now)%float in
  let minTime := or_default (min_time_before_merge_ms sg) 30000 in
  if (timeSinceLoad <? minTime)%float
  then ((s5 - or_default (early_merge_penalty sg) 0.25)%float,
        r4 ++ ["merge_too_fast"], p5)
  else (s5, r4, p5).

(** Line 79: [Math.max(0, Math.min(1, score))]. *)
Definition clamp (x : float) : float := Math.max 0 (Math.min 1 x).

(** Lines 86 to 93. *)
Definition tier_of (tier1Min tier2Min score : float) : nat :=
  if ge score tier1Min then 0%nat
  else if ge score tier2Min then 1%nat
  else 2%nat.

Definition calculate (th : Thresholds) (state : State) (now : float) : Result :=
  let sg := match signals th with Some sg => sg | None => empty_signals end in
  let '(unclamped, reasons, positive) := accumulate sg state now in
  let score := clamp unclamped in
  let tier1Min := nullish (tier1_min th) 0.70 in
  let tier2Min := nullish (tier2_min th) 0.45 in
  mkResult (round2 score) (tier_of tier1Min tier2Min score) reasons positive
    (mkRaw (or_default (diff_time_ms state) 0)
           (round2 (or_default (diff_scroll_max_pct state) 0))
           (match tabsViewed state with Some tabs => tabs | None => [] end)
           (now - or_default (prLoadTime state) now)%float).

(** The value of the variable [score] after line 79: the clamped sum
    that the thresholds are applied to, before the rounding of the
    returned [score]. *)
Definition clamped_score (th : Thresholds) (state : State) (now : float) : float :=
  let sg := match signals th with Some sg => sg | None => empty_signals end in
  clamp (fst (fst (accumulate sg state now))).

Definition isReady (th : Thresholds) (state : State) (now : float) : bool :=
  Nat.eqb (tier (calculate th state now)) 0.

(** One line of [getBreakdown]; a field the line does not have is
    [None], as is an [achieved] read from a missing [tabsViewed]. *)
Record BreakdownEntry := mkBreakdownEntry {
  bd_signal : string;
  bd_value : float;
  bd_max : option float;
  bd_current : option float;
  bd_target : option float;
  bd_achieved : option bool;
  bd_applied : option bool
}.

Definition getBreakdown (th : Thresholds) (state : State) (now : float)
  : list BreakdownEntry :=
  let sg := match signals th with Some sg => sg | None => empty_signals end in
  let filesViewed := viewed "files" state in
  let diffTime := or_default (diff_time_ms state) 0 in
  let diffTimeTarget := or_default (diff_time_target_ms sg) 60000 in
  let diffTimeMax := or_default (diff_time_max sg) 0.20 in
  let diffTimeScore := (Math.min (diffTime / diffTimeTarget) 1 * diffTimeMax)%float in
  let scrollPct := or_default (diff_scroll_max_pct state) 0 in
  let convViewed := viewed "conversation" state in
  let timeSinceLoad := (now - or_default (prLoadTime state) now)%float in
  let minTime := or_default (min_time_before_merge_ms sg) 30000 in
  [ mkBreakdownEntry "files_changed"
      (if filesViewed then or_default (files_changed sg) 0.35 else 0%float)
      (Some (or_default (files_changed sg) 0.35)) None None
      (option_map (fun _ => filesViewed) (tabsViewed state)) None;
    mkBreakdownEntry "checks_viewed"
      (if checksViewed state then or_default (checks_viewed sg) 0.25 else 0%float)
      (Some (or_default (checks_viewed sg) 0.25)) None None
      (Some (checksViewed state)) None;
    mkBreakdownEntry "diff_time" diffTimeScore (Some diffTimeMax)
      (Some diffTime) (Some diffTimeTarget)
      (Some (ge diffTime diffTimeTarget)) None;
    mkBreakdownEntry "scroll_depth"
      (if ge scrollPct 50 then or_default (scroll_depth sg) 0.10 else 0%float)
      (Some (or_default (scroll_depth sg) 0.10)) (Some scrollPct) None
      (Some (ge scrollPct 50)) None;
    mkBreakdownEntry "conversation_viewed"
      (if convViewed then or_default (conversation_viewed sg) 0.10 else 0%float)
      (Some (or_default (conversation_viewed sg) 0.10)) None None
      (option_map (fun _ => convViewed) (tabsViewed state)) None ]
  ++ (if (timeSinceLoad <? minTime)%float
      then [ mkBreakdownEntry "early_merge_penalty"
               (- or_default (early_merge_penalty sg) 0.25)%float
               None None None None (Some true) ]
      else []).

(** The values of a breakdown, summed from the left as a loop over the
    lines would. *)
Definition total (entries : list BreakdownEntry) : float :=
  fold_left (fun acc entry => (acc + bd_value entry)%float) entries 0%float.

End ReadinessCalculator.

(** The same number, the sign of a zero apart. *)
Definition same_number (x y : float) : Prop :=
  x = y \/ (is_zero x = true /\ is_zero y = true).

End Binary64.

(** The doubles of a policy's thresholds and of a session state. *)
Definition signals64 (sg : Signals) : Binary64.ReadinessCalculator.Signals :=
  Binary64.ReadinessCalculator.mkSignals
    (option_map Binary64.of_Q (files_changed sg))
    (option_map Binary64.of_Q (checks_viewed sg))
    (option_map Binary64.of_Q (diff_time_target_ms sg))
    (option_map Binary64.of_Q (diff_time_max sg))
    (option_map Binary64.of_Q (scroll_depth sg))
    (option_map Binary64.of_Q (conversation_viewed sg))
    (option_map Binary64.of_Z (min_time_before_merge_ms sg))
    (option_map Binary64.of_Q (early_merge_penalty sg)).

Definition thresholds64 (th : Thresholds) : Binary64.ReadinessCalculator.Thresholds :=
  Binary64.ReadinessCalculator.mkThresholds
    (option_map signals64 (signals th))
    (option_map Binary64.of_Q (tier1_min th))
    (option_map Binary64.of_Q (tier2_min th)).

Definition state64 (st : SessionState) : Binary64.ReadinessCalculator.State :=
  Binary64.ReadinessCalculator.mkState
    (Some (tabsViewed st)) (checksViewed st)
    (Some (Binary64.of_Z (diff_time_ms (diffMetrics st))))
    (Some (Binary64.of_Q (diff_scroll_max_pct (diffMetrics st))))
    (Some (Binary64.of_Z (prLoadTime st))).

(** [calculate] as the extension runs it: on the doubles of the policy
    in force and of the session state, at clock reading [now]. *)
Definition calculate64 (policy : option Policy) (st : SessionState) (now : Z)
  : Binary64.ReadinessCalculator.Result :=
  Binary64.ReadinessCalculator.calculate
    (thresholds64 (PolicyLoader.getNudgeThresholds policy)) (state64 st)
    (Binary64.of_Z now).

(** *** Rounding to the format *)

(** What [k] right shifts of [m0] leave: the quotient, and no lost bit
    when the division is exact. *)
Definition shifted (m0 k : Z) (mrs : SpecFloat.shr_record) : Prop :=
  SpecFloat.shr_m mrs = m0 / 2 ^ k
  /\ (m0 mod 2 ^ k = 0 -> SpecFloat.shr_r mrs = false /\ SpecFloat.shr_s mrs = false).

(** ** Logger (privacy-minimised audit log) *)

Module Logger.

Record t := mk {
  BUFFER_SIZE : nat;
  EVENT_VERSION : string;
  (** what [chrome.runtime.getManifest().version] answers, or ["unknown"] *)
  extension_version : string
}.

Definition sensitiveFields : list string :=
  [ "diff_text"; "comment_text"; "code_snippet"; "patch_content";
    "file_content"; "token"; "password"; "api_key"; "secret" ].

Definition truncation_marker : string := "... [truncated]".

(** [delete redacted[field]]. *)
Definition delete_field (field : string) (obj : Payload) : Payload :=
  List.filter (fun kv => negb (String.eqb (fst kv) field)) obj.

(** Is a key on the denylist? *)
Definition is_sensitive (key : string) : bool :=
  existsb (String.eqb key) sensitiveFields.

(** The body of the truncation loop for one entry value. *)
Definition truncate (value : JValue) : JValue :=
  match value with
  | JStr str =>
      if (500 <? String.length str)%nat
      then JStr (JS.substring0 500 str +:+ truncation_marker)
      else value
  | _ => value
  end.

Definition redact (payload : Payload) : Payload :=
  let redacted := fold_left (fun acc field => delete_field field acc)
                    sensitiveFields payload in
  map (fun kv => (fst kv, truncate (snd kv))) redacted.

Definition getPolicyVersion (s : store) : string :=
  match s !! "current_policy" with
  | Some (SPolicy p) =>
      if JS.truthy (policy_version p) then policy_version p else "unknown"
  | _ => "unknown"
  end.

(** [while (buffer.length > BUFFER_SIZE) buffer.shift()]. *)
Fixpoint evict (size : nat) (buffer : list LogEvent) : list LogEvent :=
  match buffer with
  | [] => []
  | _ :: rest => if (size <? length buffer)%nat then evict size rest else buffer
  end.

Definition log (lg : t) (s : store) (now : Z) (eventType : string) (payload : Payload)
  : LogEvent * store :=
  let event := mkLogEvent (EVENT_VERSION lg) now eventType (redact payload)
                 (getPolicyVersion s) (extension_version lg) in
  let buffer := match s !! "event_buffer" with
                | Some (SEvents b) => b
                | _ => []
                end in
  (event, <["event_buffer" := SEvents (evict (BUFFER_SIZE lg) (buffer ++ [event]))]> s).

Definition logCheckpointIntercepted
    (lg : t) (s : store) (now : Z) (kind mergeMethod intentTiming : string) :=
  log lg s now "checkpoint_intercepted"
    [ ("checkpoint_kind", JStr kind); ("merge_method", JStr mergeMethod);
      ("intent_timing", JStr intentTiming) ].

Definition logCheckpointCompleted (lg : t) (s : store) (now : Z) (ms : Z) :=
  log lg s now "checkpoint_completed" [ ("time_to_complete_ms", JNum (inject_Z ms)) ].

Definition logCheckpointAborted (lg : t) (s : store) (now : Z) :=
  log lg s now "checkpoint_aborted" [].

(** Every key occurring in a value, at any depth. *)
Fixpoint keys_within (v : JValue) : list string :=
  match v with
  | JObj fields =>
      (fix go (l : list (string * JValue)) : list string :=
         match l with
         | [] => []
         | (k, x) :: r => k :: keys_within x ++ go r
         end) fields
  | JArr items =>
      (fix go (l : list JValue) : list string :=
         match l with
         | [] => []
         | x :: r => keys_within x ++ go r
         end) items
  | _ => []
  end.

(** Does a denylisted field name occur anywhere in the payload? *)
Definition mentions_sensitive (payload : Payload) : bool :=
  existsb is_sensitive (keys_within (JObj payload)).

(** [await this.storage.get('event_buffer') || []]. *)
Definition read_buffer (s : store) : list LogEvent :=
  match s !! "event_buffer" with
  | Some (SEvents b) => b
  | _ => []
  end.

(** [buffer.slice(start)] for an integer [start]: a negative start
    counts from the end, and both ends are clamped. *)
Definition slice_from (start : Z) (buffer : list LogEvent) : list LogEvent :=
  let len := Z.of_nat (length buffer) in
  let from := if start <? 0 then Z.max (len + start) 0 else Z.min start len in
  drop (Z.to_nat from) buffer.

(** [getRecent(count)] is [buffer.slice(-count)]. *)
Definition getRecent (s : store) (count : Z) : list LogEvent :=
  slice_from (- count) (read_buffer s).

Definition getByType (s : store) (type : string) : list LogEvent :=
  List.filter (fun e => String.eqb (ev_type e) type) (read_buffer s).

Definition clear (s : store) : store := delete "event_buffer" s.

End Logger.

(** ** The Logger bundled into the content script *)

(** [content.js] carries its own copy of the logger, with a shorter
    denylist and a shorter marker. *)
Module ContentScript.

Definition sensitiveFields : list string :=
  [ "diff_text"; "comment_text"; "code_snippet"; "token"; "password" ].

Definition is_sensitive (key : string) : bool :=
  existsb (String.eqb key) sensitiveFields.

Definition truncate (value : JValue) : JValue :=
  match value with
  | JStr str =>
      if (500 <? String.length str)%nat
      then JStr (JS.substring0 500 str +:+ "...")
      else value
  | _ => value
  end.

Definition redact (payload : Payload) : Payload :=
  let redacted := fold_left (fun acc field => Logger.delete_field field acc)
                    sensitiveFields payload in
  map (fun kv => (fst kv, truncate (snd kv))) redacted.

End ContentScript.

(** ** The page: elements the interceptor is handed *)

(** What [element.closest('.merge-box, ...')] exposes to
    [detectMergeMethod]. *)
Record MergeBox := mkMergeBox {
  (** [select[name="merge_method"]].value, when the select exists *)
  mb_select : option string;
  (** text content of the selected tab or menu item, when one exists *)
  mb_selectedTab : option string
}.

Record Element := mkElement {
  (** identity of the DOM node *)
  node : nat;
  el_id : string;
  data_testid : option string;
  data_action : option string;
  tagName : string;
  el_type : option string;
  textContent : option string;
  attr_name : option string;
  aria_label : option string;
  attr_title : option string;
  el_value : option string;
  innerText : option string;
  placeholder : option string;
  (** is [element.closest(selector)] non-null? *)
  closest : string -> bool;
  mergeBox : option MergeBox;
  (** for forms: the [action] attribute and the presence of
      [input[name="merge"]] *)
  attr_action : option string;
  has_merge_input : bool
}.

(** ** Tier3Modal (the non-overridable confirmation surface) *)

Module Tier3Modal.

(** The values the promise of [show] resolves to: ['completed'] and
    ['aborted']. *)
Inductive outcome := Completed | Aborted.

Definition outcome_string (o : outcome) : string :=
  match o with
  | Completed => "completed"
  | Aborted => "aborted"
  end.

Record Config := mkConfig {
  cfg_title : option string;
  cfg_subtitle : option string;
  cfg_checklist : list string;
  confirmationText : string;
  cfg_kind : string
}.

(** [s.replace(pattern, replacement)] with a string pattern: the first
    occurrence only. *)
Fixpoint replace_first (pattern replacement s : string) : string :=
  if JS.startsWith pattern s
  then replacement +:+ String.substring (String.length pattern) (String.length s) s
  else match s with
       | EmptyString => EmptyString
       | String c r => String c (replace_first pattern replacement r)
       end.

(** [x || d] on a possibly-missing string. *)
Definition or_string (x : option string) (d : string) : string :=
  match x with
  | Some v => if JS.truthy v then v else d
  | None => d
  end.

Definition buildConfig (template : Tier3Template) (kind mergeMethod baseBranch : string)
  : Config :=
  let method := if String.eqb mergeMethod "scheduled" then "merge"
                else or_string (Some mergeMethod) "merge" in
  mkConfig
    (match title_template template with
     | Some tpl => if JS.truthy tpl then Some (replace_first "{method}" method tpl)
                  else title template
     | None => title template
     end)
    (match subtitle_template template with
     | Some tpl => if JS.truthy tpl
                   then Some (replace_first "{base_branch}" baseBranch tpl)
                  else subtitle template
     | None => subtitle template
     end)
    (default [] (checklist template))
    (or_string (confirmation_text template) "MERGE")
    kind.

(** The live state of the dialog: one check box per checklist item, the
    text field, and the [disabled] flag of the proceed button. *)
Record Modal := mkModal {
  config : Config;
  checked : list bool;
  textValue : string;
  confirmDisabled : bool
}.

Definition createModalElement (cfg : Config) : Modal :=
  mkModal cfg (map (fun _ => false) (cfg_checklist cfg)) "" true.

Definition allChecked (m : Modal) : bool := forallb (fun b => b) (checked m).

Definition textValid (m : Modal) : bool :=
  String.eqb (JS.toUpperCase (JS.trim (textValue m)))
             (JS.toUpperCase (confirmationText (config m))).

(** The [validate] closure. *)
Definition validate (m : Modal) : Modal :=
  mkModal (config m) (checked m) (textValue m) (negb (allChecked m && textValid m)).

(** Where a bubbling event originated. *)
Inductive target := TOverlay | TTextInput | TInside.

(** What the user can do to the open dialog.  A click on the proceed
    button reaches its listener only while the button is enabled: the
    page does not dispatch clicks to a disabled button. *)
Inductive event :=
  | ChangeCheckbox (index : nat)
  | InputText (value : string)
  | ClickConfirm
  | ClickAbort
  | Click (t : target)
  | KeyDown (key : string) (t : target).

Definition step (m : Modal) (e : event) : Modal + outcome :=
  match e with
  | ChangeCheckbox i =>
      inl (validate (mkModal (config m) (alter negb i (checked m)) (textValue m)
                       (confirmDisabled m)))
  | InputText v =>
      inl (validate (mkModal (config m) (checked m) v (confirmDisabled m)))
  | ClickConfirm => if confirmDisabled m then inl m else inr Completed
  | ClickAbort => inr Aborted
  | Click TOverlay => inr Aborted
  | Click _ => inl m
  | KeyDown key t =>
      if String.eqb key "Escape" then inr Aborted
      else if String.eqb key "Enter" && negb (confirmDisabled m)
              && match t with TTextInput => true | _ => false end
      then inr Completed
      else inl m
  end.

(** The dialog driven by the user's events: the state it is left in and
    what the promise resolved to, if it did. *)
Fixpoint drive (m : Modal) (events : list event) : Modal * option outcome :=
  match events with
  | [] => (m, None)
  | e :: rest =>
      match step m e with
      | inl m' => drive m' rest
      | inr o => (m, Some o)
      end
  end.

(** [show(checkpointInfo)]: [None] while the promise is unresolved. *)
Definition show (policy : option Policy) (kind mergeMethod baseBranch : string)
    (events : list event) : option outcome :=
  match PolicyLoader.getTier3Template policy kind with
  | None => Some Aborted
  | Some template =>
      snd (drive (createModalElement (buildConfig template kind mergeMethod baseBranch))
             events)
  end.

(** The straightforward way through the dialog: tick each of the [n]
    boxes once, type the text, press the proceed button. *)
Definition confirm_script (n : nat) (text : string) : list event :=
  map ChangeCheckbox (seq 0 n) ++ [InputText text; ClickConfirm].

End Tier3Modal.

(** ** Tier2Modal (the overridable readiness dialog) *)

Module Tier2Modal.

(** What the promise of [show] resolves to: [{action: 'proceed', reason}],
    [{action: 'override'}] or [{action: 'cancel'}]. *)
Inductive result :=
  | Proceed (reason : string)
  | Override
  | Cancel.

(** [items.join(', ')]. *)
Fixpoint join (sep : string) (items : list string) : string :=
  match items with
  | [] => ""
  | [x] => x
  | x :: rest => x +:+ sep +:+ join sep rest
  end.

Definition formatMissingItems (reasons : list string) : option string :=
  let items :=
    (if StateManager.includes "files_not_viewed" reasons then ["Files changed"] else [])
    ++ (if StateManager.includes "checks_not_viewed" reasons then ["Checks"] else [])
    ++ (if StateManager.includes "insufficient_diff_time" reasons
        then ["sufficient review time"] else [])
    ++ (if StateManager.includes "low_scroll_depth" reasons
        then ["diff review (scroll)"] else [])
    ++ (if StateManager.includes "merge_too_fast" reasons
        then ["time since page load"] else []) in
  match items with
  | [] => None
  | _ => Some (join ", " items)
  end.

(** The live state of the dialog: the text area and the [disabled] flag
    of the continue button. *)
Record Modal := mkModal {
  textValue : string;
  proceedDisabled : bool
}.

Definition createModalElement : Modal := mkModal "" true.

(** What the user can do to the open dialog.  A click on the continue
    button reaches its listener only while the button is enabled. *)
Inductive event :=
  | InputText (value : string)
  | ClickProceed
  | ClickCancel
  | ClickOverride
  | Click (t : Tier3Modal.target)
  | KeyDown (key : string).

Definition step (m : Modal) (e : event) : Modal + result :=
  match e with
  | InputText v => inl (mkModal v (String.length (JS.trim v) <? 10)%nat)
  | ClickProceed =>
      if proceedDisabled m then inl m else inr (Proceed (JS.trim (textValue m)))
  | ClickCancel => inr Cancel
  | ClickOverride => inr Override
  | Click Tier3Modal.TOverlay => inr Cancel
  | Click _ => inl m
  | KeyDown key => if String.eqb key "Escape" then inr Cancel else inl m
  end.

Fixpoint drive (m : Modal) (events : list event) : option result :=
  match events with
  | [] => None
  | e :: rest =>
      match step m e with
      | inl m' => drive m' rest
      | inr r => Some r
      end
  end.

(** [show(readiness)]: [None] while the promise is unresolved. *)
Definition show (events : list event) : option result :=
  drive createModalElement events.

End Tier2Modal.

(** ** MetricsTracker: naming the tab that was clicked *)

Module MetricsTracker.

(** [identifyTab(tabElement)], from the element's text content, its
    [aria-label] and its [href]. *)
Definition identifyTab (textContent ariaLabel href : option string) : option string :=
  let text := JS.toLowerCase
                (Tier3Modal.or_string textContent (Tier3Modal.or_string ariaLabel "")) in
  if JS.includes "conversation" text || JS.includes "overview" text
  then Some "conversation"
  else if JS.includes "files" text || JS.includes "changed" text
          || JS.includes "diff" text
  then Some "files"
  else if JS.includes "check" text || JS.includes "commit" text
  then Some "checks"
  else
    let h := Tier3Modal.or_string href "" in
    if JS.includes "files" h then Some "files"
    else if JS.includes "commits" h then Some "checks"
    else if JS.includes "conversation" h then Some "conversation"
    else None.

(** The tracker's own fields that the measurements go through:
    [diffStartTime] ([null] while the diff is not on screen) and
    [maxScrollPct]. *)
Record t := mkTracker {
  diffStartTime : option Z;
  maxScrollPct : Q
}.

(** [if (this.diffStartTime)]: set, and not [0]. *)
Definition viewing_since (tr : t) : option Z :=
  match diffStartTime tr with
  | Some t0 => if t0 =? 0 then None else Some t0
  | None => None
  end.

Definition getTotalDiffTime (m : StateManager.t) (tr : t) (now : Z) : Z :=
  let total := StateManager.getDiffTimeAccumulated m in
  match viewing_since tr with
  | Some t0 => total + (now - t0)
  | None => total
  end.

(** [saveMetrics()]: what it writes to the session state.  The log entry
    it adds when [logsDiffMetrics] holds does not touch the state. *)
Definition saveMetrics (m : StateManager.t) (s : store) (now : Z) (tr : t)
  : StateManager.t * store :=
  let diffTime := getTotalDiffTime m tr now in
  StateManager.updateDiffMetrics m s now
    (StateManager.mkMetricsPatch (Some diffTime) (Some (maxScrollPct tr))).

Definition logsDiffMetrics (diffTime : Z) : bool :=
  (0 <? diffTime) && (diffTime mod 30000 <? 5000).

(** The timer started by [start()]: [saveMetrics()] at each of the given
    times, with the diff staying as it is in between. *)
Fixpoint periodic_saves (m : StateManager.t) (s : store) (tr : t) (times : list Z)
  : StateManager.t * store :=
  match times with
  | [] => (m, s)
  | now :: rest =>
      let '(m', s') := saveMetrics m s now tr in
      periodic_saves m' s' tr rest
  end.

(** The visibility observer's callback, for one entry. *)
Definition onVisibility (m : StateManager.t) (s : store) (now : Z) (tr : t)
    (isIntersecting : bool) : StateManager.t * store * t :=
  if isIntersecting then (m, s, mkTracker (Some now) (maxScrollPct tr))
  else
    match viewing_since tr with
    | Some t0 =>
        let '(m', s') := StateManager.addDiffTime m s now (now - t0) in
        (m', s', mkTracker None (maxScrollPct tr))
    | None => (m, s, tr)
    end.

(** [stop()], as far as the measurements go. *)
Definition stop (m : StateManager.t) (s : store) (now : Z) (tr : t)
  : StateManager.t * store * t :=
  let '(m1, s1) := saveMetrics m s now tr in
  match viewing_since tr with
  | Some t0 =>
      let '(m2, s2) := StateManager.addDiffTime m1 s1 now (now - t0) in
      (m2, s2, mkTracker None (maxScrollPct tr))
  | None => (m1, s1, tr)
  end.

End MetricsTracker.

(** ** SafeReplay *)

Module SafeReplay.

(** The pending markers: membership in the [WeakSet] and the
    [data-pais-pending] attribute, both by node identity. *)
Record Pending := mkPending {
  pendingElements : gset nat;
  pendingAttribute : gset nat
}.

Definition getElementId (element : Element) : string :=
  let text := JS.substring0 20 (JS.trim (default "" (textContent element))) in
  if JS.truthy (el_id element) then el_id element
  else if JS.truthy (default "" (data_testid element))
  then "testid-" +:+ default "" (data_testid element)
  else if JS.truthy (default "" (data_action element))
  then "action-" +:+ default "" (data_action element)
  else tagName element +:+ "-" +:+ default "" (el_type element) +:+ "-" +:+ text
       +:+ "-" +:+ default "" (attr_name element).

Definition hasValidToken (s : store) (now : Z) (pr : string) (element : Element) : bool :=
  CooldownManager.hasValidToken s now pr (getElementId element).

Definition consumeToken (s : store) (pr : string) (element : Element) : store :=
  CooldownManager.consumeToken s pr (getElementId element).

Definition createToken (policy : option Policy) (s : store) (now : Z) (pr : string)
    (element : Element) : store :=
  CooldownManager.createAllowToken policy s now pr (getElementId element).

Definition isPending (p : Pending) (element : Element) : bool :=
  bool_decide (node element ∈ pendingElements p)
  || bool_decide (node element ∈ pendingAttribute p).

Definition markPending (p : Pending) (element : Element) : Pending :=
  mkPending ({[node element]} ∪ pendingElements p)
            ({[node element]} ∪ pendingAttribute p).

Definition clearPending (p : Pending) (element : Element) : Pending :=
  mkPending (pendingElements p ∖ {[node element]})
            (pendingAttribute p ∖ {[node element]}).

(** [replay(element)]: the token is written, the original action is
    re-issued natively on the element (recorded in [reissued]), and the
    pending marker is cleared again. *)
Definition replay (policy : option Policy) (s : store) (now : Z) (pr : string)
    (p : Pending) (reissued : list nat) (element : Element)
  : store * Pending * list nat * bool :=
  if isPending p element then (s, p, reissued, false)
  else
    let p1 := markPending p element in
    let s1 := createToken policy s now pr element in
    (s1, clearPending p1 element, reissued ++ [node element], true).

End SafeReplay.

(** ** EventInterceptor (the checkpoint gate) *)

Module EventInterceptor.

(** [{kind, mergeMethod, intentTiming, element, accessibleName}]. *)
Record ActionInfo := mkActionInfo {
  kind : string;
  mergeMethod : string;
  intentTiming : string;
  element : Element;
  accessibleName : string
}.

(** What a handler does to the event it was handed, within a turn. *)
Inductive effect := PreventDefault | StopImmediatePropagation.

(** The asynchronous calls a handler awaits, indexed by what they
    resolve to. *)
Inductive call : Type -> Type :=
  | HasValidToken (element : Element) : call bool
  | ConsumeToken (element : Element) : call unit
  | LogCheckpointIntercepted (kind mergeMethod intentTiming : string) : call unit
  | ShowTier3 (info : ActionInfo) : call Tier3Modal.outcome
  | LogCheckpointCompleted (timeToCompleteMs : Z) : call unit
  | LogCheckpointAborted : call unit
  | RecordCheckpoint (kind result : string) : call unit
  | Replay (element : Element) : call bool.

(** An [async] function body: it runs synchronously up to each [await],
    where it is suspended until the awaited call settles. *)
Inductive async (A : Type) : Type :=
  | Return (a : A)
  | Do (e : effect) (k : async A)
  | Await {R : Type} (c : call R) (k : R -> async A).
Arguments Return {A} a.
Arguments Do {A} e k.
Arguments Await {A R} c k.

Fixpoint bind {A B} (m : async A) (f : A -> async B) : async B :=
  match m with
  | Return a => f a
  | Do e k => Do e (bind k f)
  | Await c k => Await c (fun r => bind (k r) f)
  end.

Definition await {R} (c : call R) : async R := Await c Return.
Definition perform (e : effect) : async unit := Do e (Return tt).

Notation "'let*' x ':=' m 'in' k" := (bind m (fun x => k))
  (at level 10, x name, m at level 100, k at level 200).
Notation "'do*' m 'in' k" := (bind m (fun _ => k))
  (at level 10, m at level 100, k at level 200).

(** The part of the interceptor and page state a handler reads at entry. *)
Record Gate := mkGate {
  isActive : bool;
  tier3Open : bool;
  tier2Open : bool
}.

(** A dispatched event, with the elements the page resolves for it. *)
Record DomEvent := mkDomEvent {
  ev_target : Element;
  (** the result of [findActionableElement(event.target)] *)
  ev_actionable : option Element;
  ev_key : string;
  (** [document.activeElement] *)
  ev_activeElement : option Element
}.

Definition shouldIntercept (g : Gate) : bool :=
  if negb (isActive g) then false
  else if tier3Open g then false
  else if tier2Open g then false
  else true.

(** The first source whose trimmed value is non-empty. *)
Fixpoint first_name (sources : list (option string)) : string :=
  match sources with
  | [] => ""
  | Some v :: rest => if JS.truthy (JS.trim v) then JS.trim v else first_name rest
  | None :: rest => first_name rest
  end.

Definition getAccessibleName (el : Element) : string :=
  first_name [ aria_label el; attr_title el; el_value el; innerText el;
               textContent el; placeholder el ].

Definition isInScope (policy : option Policy) (el : Element) : bool :=
  match scope_selector (PolicyLoader.getCheckpointMatchers policy) with
  | Some scopeSelector =>
      if JS.truthy scopeSelector then closest el scopeSelector else true
  | None => true
  end.

Definition detectMergeMethod (el : Element) (kind : string) : string :=
  if negb (String.eqb kind "MERGE_NOW") then "scheduled"
  else
    match mergeBox el with
    | None => "unknown"
    | Some box =>
        match mb_select box with
        | Some v => v
        | None =>
            let by_button :=
              let buttonText := JS.toLowerCase (default "" (textContent el)) in
              if JS.includes "squash" buttonText then "squash"
              else if JS.includes "rebase" buttonText then "rebase"
              else "merge" in
            match mb_selectedTab box with
            | Some tab =>
                let text := JS.toLowerCase tab in
                if JS.includes "squash" text then "squash"
                else if JS.includes "rebase" text then "rebase"
                else if JS.includes "merge" text then "merge"
                else by_button
            | None => by_button
            end
        end
    end.

Section Handlers.

Variable RegExp_i : RegExpCtor.
Variable policy : option Policy.

Definition classifyAction (el : Element) : option ActionInfo :=
  if negb (isInScope policy el) then None
  else
    let name := getAccessibleName el in
    if negb (JS.truthy name) then None
    else
      match PolicyLoader.classifyCheckpoint RegExp_i policy name with
      | None => None
      | Some kind =>
          if negb (JS.truthy kind) then None
          else Some (mkActionInfo kind (detectMergeMethod el kind)
                       (if String.eqb kind "MERGE_NOW" then "now" else "scheduled")
                       el name)
      end.

Definition classifyForm (form : Element) : option ActionInfo :=
  if negb (isInScope policy form) then None
  else if has_merge_input form
          || JS.includes "merge" (Tier3Modal.or_string (attr_action form) "")
  then Some (mkActionInfo "MERGE_NOW" (detectMergeMethod form "MERGE_NOW")
               "now" form "Merge form")
  else None.

Definition handleCheckpoint (actionInfo : ActionInfo) (el : Element) : async unit :=
  do* await (LogCheckpointIntercepted (kind actionInfo) (mergeMethod actionInfo)
              (intentTiming actionInfo)) in
  let* result := await (ShowTier3 actionInfo) in
  match result with
  | Tier3Modal.Completed =>
      do* await (LogCheckpointCompleted 0) in
      do* await (RecordCheckpoint (kind actionInfo) "completed") in
      do* await (Replay el) in
      Return tt
  | Tier3Modal.Aborted =>
      do* await LogCheckpointAborted in
      await (RecordCheckpoint (kind actionInfo) "aborted")
  end.

Definition handleClick (g : Gate) (event : DomEvent) : async unit :=
  if negb (shouldIntercept g) then Return tt
  else
    match ev_actionable event with
    | None => Return tt
    | Some el =>
        let* valid := await (HasValidToken el) in
        if valid : bool then await (ConsumeToken el)
        else
          match classifyAction el with
          | None => Return tt
          | Some actionInfo =>
              do* perform PreventDefault in
              do* perform StopImmediatePropagation in
              handleCheckpoint actionInfo el
          end
    end.

Definition handleSubmit (g : Gate) (event : DomEvent) : async unit :=
  if negb (shouldIntercept g) then Return tt
  else
    let form := ev_target event in
    match classifyForm form with
    | None => Return tt
    | Some actionInfo =>
        let* valid := await (HasValidToken form) in
        if valid : bool then await (ConsumeToken form)
        else
          do* perform PreventDefault in
          do* perform StopImmediatePropagation in
          handleCheckpoint actionInfo form
    end.

Definition handleKeydown (g : Gate) (event : DomEvent) : async unit :=
  if negb (shouldIntercept g) then Return tt
  else if negb (String.eqb (ev_key event) "Enter") then Return tt
  else
    match ev_activeElement event with
    | None => Return tt
    | Some el =>
        match classifyAction el with
        | None => Return tt
        | Some actionInfo =>
            let* valid := await (HasValidToken el) in
            if valid : bool then await (ConsumeToken el)
            else
              do* perform PreventDefault in
              do* perform StopImmediatePropagation in
              handleCheckpoint actionInfo el
        end
    end.

End Handlers.

(** *** Running a handler *)

(** One observable step of a handler: an effect on the event, or a
    suspension on an awaited call. *)
Inductive obs :=
  | OEffect (e : effect)
  | OAwait {R : Type} (c : call R).

(** The effects of the turn in which the event is dispatched: whatever
    the handler does before its first suspension point. *)
Fixpoint first_turn {A} (p : async A) : list effect :=
  match p with
  | Return _ => []
  | Do e k => e :: first_turn k
  | Await _ _ => []
  end.

(** Everything the gate's collaborators hold while a handler runs. *)
Record World := mkWorld {
  w_store : store;
  w_state : StateManager.t;
  w_pending : SafeReplay.Pending;
  (** nodes on which the original action was re-issued, in order *)
  w_reissued : list nat;
  w_tier3Open : bool
}.

(** What does not change during a run. *)
Record Env := mkEnv {
  env_policy : option Policy;
  env_logger : Logger.t;
  (** the [prId] the [SafeReplay] instance was built with *)
  env_prId : string;
  env_now : Z;
  env_baseBranch : string;
  (** what the user does to the confirmation dialog once it is open *)
  env_user : list Tier3Modal.event
}.

Definition with_store (s : store) (w : World) : World :=
  mkWorld s (w_state w) (w_pending w) (w_reissued w) (w_tier3Open w).

(** How an awaited call settles; [None] when it never does. *)
Definition settle (env : Env) {R} (c : call R) (w : World) : option (World * R) :=
  match c in call R return option (World * R) with
  | HasValidToken el =>
      Some (w, SafeReplay.hasValidToken (w_store w) (env_now env) (env_prId env) el)
  | ConsumeToken el =>
      Some (with_store (SafeReplay.consumeToken (w_store w) (env_prId env) el) w, tt)
  | LogCheckpointIntercepted k m t =>
      Some (with_store
              (snd (Logger.logCheckpointIntercepted (env_logger env) (w_store w)
                      (env_now env) k m t)) w, tt)
  | ShowTier3 info =>
      match Tier3Modal.show (env_policy env) (kind info) (mergeMethod info)
              (env_baseBranch env) (env_user env) with
      | Some o => Some (mkWorld (w_store w) (w_state w) (w_pending w)
                          (w_reissued w) false, o)
      | None => None
      end
  | LogCheckpointCompleted ms =>
      Some (with_store
              (snd (Logger.logCheckpointCompleted (env_logger env) (w_store w)
                      (env_now env) ms)) w, tt)
  | LogCheckpointAborted =>
      Some (with_store
              (snd (Logger.logCheckpointAborted (env_logger env) (w_store w)
                      (env_now env))) w, tt)
  | RecordCheckpoint k r =>
      let '(m', s') := StateManager.recordCheckpoint (w_state w) (w_store w)
                         (env_now env) k r in
      Some (mkWorld s' m' (w_pending w) (w_reissued w) (w_tier3Open w), tt)
  | Replay el =>
      let '(s', p', re', ok) :=
        SafeReplay.replay (env_policy env) (w_store w) (env_now env) (env_prId env)
          (w_pending w) (w_reissued w) el in
      Some (mkWorld s' (w_state w) p' re' (w_tier3Open w), ok)
  end.

(** Runs a handler to its end, or to the call that never settles (the
    dialog left open).  The result is the final world, the steps
    observed in order, and whether the handler returned. *)
Fixpoint run {A} (env : Env) (p : async A) (w : World) : World * list obs * option A :=
  match p with
  | Return a => (w, [], Some a)
  | Do e k =>
      let '(w', tr, r) := run env k w in (w', OEffect e :: tr, r)
  | Await c k =>
      match settle env c w with
      | Some (w1, r) =>
          let '(w', tr, res) := run env (k r) w1 in (w', OAwait c :: tr, res)
      | None =>
          (mkWorld (w_store w) (w_state w) (w_pending w) (w_reissued w) true,
           [OAwait c], None)
      end
  end.

(** Was the original action re-issued during a run? *)
Definition replay_issued (tr : list obs) : bool :=
  existsb (fun o => match o with
                    | @OAwait _ (Replay _) => true
                    | _ => false
                    end) tr.

End EventInterceptor.

(** The behaviour of [new RegExp(p, 'i')] on patterns without
    metacharacters: a case-insensitive substring search.  This instance
    accepts no other pattern. *)
Definition is_literal (p : string) : bool :=
  forallb (fun c => negb (existsb (Ascii.eqb c)
                            (list_ascii_of_string "\^$.|?*+()[]{}")))
          (list_ascii_of_string p).

Definition ci_includes (p text : string) : bool :=
  JS.includes (JS.toUpperCase p) (JS.toUpperCase text).

Definition literal_RegExp : RegExpCtor :=
  fun p => if is_literal p then Some (ci_includes p) else None.

(** ** Classification as the specification words it *)

Section ClassificationSpec.

Variable RegExp_i : RegExpCtor.

(** A pattern matches a label when it compiles and its test succeeds;
    an unparseable pattern matches nothing. *)
Definition pattern_matches (text pattern : string) : bool :=
  match RegExp_i pattern with
  | Some regex => regex text
  | None => false
  end.


Definition kind_matches (text : string) (entry : string * KindConfig) : bool :=
  existsb (pattern_matches text) (patterns (snd entry)).


End ClassificationSpec.

(** Does the constructor treat patterns without metacharacters as
    case-insensitive substring searches? *)
Definition literal_patterns_search (RegExp_i : RegExpCtor) : Prop :=
  forall p, is_literal p = true -> RegExp_i p = Some (ci_includes p).

(** ** The dialog invariant *)

(** The proceed button is disabled exactly while a condition is unmet. *)
Definition consistent (m : Tier3Modal.Modal) : Prop :=
  Tier3Modal.confirmDisabled m
  = negb (Tier3Modal.allChecked m && Tier3Modal.textValid m).

(** ** The session-state invariant *)

(** The bound on [checkpointHistory], on the live state and on every
    session state held in storage. *)
Definition history_bounded (st : SessionState) : Prop :=
  (length (checkpointHistory st) <= 10)%nat.

Definition bounded (m : StateManager.t) (s : store) : Prop :=
  (forall st, StateManager.currentState m = Some st -> history_bounded st)
  /\ (forall key st, s !! key = Some (SState st) -> history_bounded st).

(** ** Concrete instances used in the worked examples *)

Definition demo_prId : string := "octo/widgets/7".
Definition demo_elementId : string := "merge-button".

Definition demo_token_store : store :=
  CooldownManager.createAllowToken (Some PolicyLoader.getFallbackPolicy) ∅ 1000
    demo_prId demo_elementId.

(** A payload whose secret sits one level down, next to a long nested
    string. *)
Definition nested_payload : Payload :=
  [ ("action", JStr "override");
    ("metadata", JObj [ ("token", JStr "ghp_0123456789");
                        ("diff_text", JStr "+ const key = 1;") ]) ].

Definition demo_logger : Logger.t := Logger.mk 1000 "1.0.0" "1.0.0".

(** A control inside the merge box. *)
Definition button (n : nat) (label : option string) (in_scope : bool) : Element :=
  mkElement n "" None None "BUTTON" (Some "submit") label None None None None
    label None (fun _ => in_scope) (Some (mkMergeBox None None)) None false.

Definition confirm_merge_button : Element := button 1 (Some "Confirm merge") true.
(** An icon-only button: no accessible name. *)
Definition unnamed_button : Element := button 3 None true.

(** A policy one of whose patterns is the empty pattern, which matches
    every label. *)
Definition catch_all_policy : Policy :=
  mkPolicy "1.0.0-test"
    (Some (mkMatchers None
       (Some [ ("MERGE_NOW", mkKindConfig [""] "Everything in scope") ])))
    (Some (mkThresholds None None None)) None (Some (mkTemplates None)).

(** A session on the demo pull request, loaded at time 1000, with
    nothing reviewed yet. *)
Definition demo_state : SessionState :=
  mkSessionState demo_prId "session-1" 1000 1000 "octo" "widgets" 7
    [] false (mkDiffMetrics 0 0) ∅ [] "1.0.0".

(** The same session after a thorough review. *)
Definition reviewed_state : SessionState :=
  mkSessionState demo_prId "session-1" 1000 1000 "octo" "widgets" 7
    ["files"; "conversation"] true (mkDiffMetrics 60000 80) ∅ [] "1.0.0".

Definition demo_manager : StateManager.t :=
  StateManager.mk "session-1" (Some demo_state) (Some demo_prId).

Definition demo_world : EventInterceptor.World :=
  EventInterceptor.mkWorld
    {[ StateManager.state_key demo_prId := SState demo_state ]}
    demo_manager (SafeReplay.mkPending ∅ ∅) [] false.

Definition demo_env (user : list Tier3Modal.event) : EventInterceptor.Env :=
  EventInterceptor.mkEnv (Some PolicyLoader.getFallbackPolicy) demo_logger
    demo_prId 90000 "main" user.

(** The user ticks the three boxes, types the word in lower case with
    blanks around it, and presses the proceed button. *)
Definition padded_confirmation : list Tier3Modal.event :=
  [ Tier3Modal.ChangeCheckbox 0; Tier3Modal.ChangeCheckbox 1;
    Tier3Modal.ChangeCheckbox 2; Tier3Modal.InputText "  merge ";
    Tier3Modal.ClickConfirm ].

(** The user ticks the boxes, types the word, then presses Escape. *)
Definition escaped_confirmation : list Tier3Modal.event :=
  [ Tier3Modal.ChangeCheckbox 0; Tier3Modal.ChangeCheckbox 1;
    Tier3Modal.ChangeCheckbox 2; Tier3Modal.InputText "MERGE";
    Tier3Modal.KeyDown "Escape" Tier3Modal.TTextInput ].

Definition demo_gate : EventInterceptor.Gate := EventInterceptor.mkGate true false false.

Definition click_on (el : Element) : EventInterceptor.DomEvent :=
  EventInterceptor.mkDomEvent el (Some el) "" None.

Definition confirm_merge_info : EventInterceptor.ActionInfo :=
  EventInterceptor.mkActionInfo "MERGE_NOW" "merge" "now" confirm_merge_button
    "Confirm merge".

(** ** Storage (the name-spaced wrapper around [chrome.storage.local]) *)

Module Storage.

Section Area.

Context {V : Type}.

(** [`${this.namespace}:`] *)
Definition prefix (namespace : string) : string := namespace +:+ ":".

(** [`${this.namespace}:${key}`] *)
Definition namespacedKey (namespace key : string) : string :=
  prefix namespace +:+ key.

Definition get (namespace : string) (area : gmap string V) (key : string) : option V :=
  area !! namespacedKey namespace key.

Definition set (namespace : string) (area : gmap string V) (key : string) (value : V)
  : gmap string V :=
  <[namespacedKey namespace key := value]> area.

Definition remove (namespace : string) (area : gmap string V) (key : string)
  : gmap string V :=
  delete (namespacedKey namespace key) area.

(** [getAll()]: the entries under the prefix, with the prefix cut off. *)
Definition getAll (namespace : string) (area : gmap string V) : gmap string V :=
  map_fold
    (fun key value result =>
       if JS.startsWith (prefix namespace) key
       then <[JS.slice (String.length (prefix namespace)) key := value]> result
       else result)
    ∅ area.

(** [clear()]: every key under the prefix is removed. *)
Definition clear (namespace : string) (area : gmap string V) : gmap string V :=
  let keysToRemove :=
    List.filter (JS.startsWith (prefix namespace)) (map fst (map_to_list area)) in
  fold_right delete area keysToRemove.

End Area.

End Storage.

(** A name space without a colon in it. *)
Fixpoint colon_free (s : string) : bool :=
  match s with
  | EmptyString => true
  | String c s' => negb (Ascii.eqb c ":") && colon_free s'
  end.

(** The files and conversation tabs visited, nothing else done. *)
Definition files_conversation_state : SessionState :=
  mkSessionState demo_prId "session-1" 1000 1000 "octo" "widgets" 7
    ["files"; "conversation"] false (mkDiffMetrics 0 0) ∅ [] "1.0.0".

(** The files tab and the checks seen, and 29 seconds spent on the
    diff. *)
Definition near_ready_state : SessionState :=
  mkSessionState demo_prId "session-1" 1000 1000 "octo" "widgets" 7
    ["files"] true (mkDiffMetrics 29000 0) ∅ [] "1.0.0".

(** Thresholds whose weight for the files tab is the default
    [tier1_min] itself, and a session that has visited that tab only. *)
Definition boundary_thresholds : Binary64.ReadinessCalculator.Thresholds :=
  Binary64.ReadinessCalculator.mkThresholds
    (Some (Binary64.ReadinessCalculator.mkSignals
             (Some (Binary64.of_Q 0.70)) None None None None None None None))
    None None.

Definition files_only_state : Binary64.ReadinessCalculator.State :=
  Binary64.ReadinessCalculator.mkState (Some ["files"]) false None None
    (Some (Binary64.of_Z 1000)).

(** A session that has recorded ten checkpoints already, at times 1 to
    10, held live and in storage. *)
Definition full_history : list Checkpoint :=
  map (fun t => mkCheckpoint t "MERGE_NOW" "aborted") [1; 2; 3; 4; 5; 6; 7; 8; 9; 10].

Definition full_state : SessionState :=
  mkSessionState demo_prId "session-1" 1000 1000 "octo" "widgets" 7
    [] false (mkDiffMetrics 0 0) ∅ full_history "1.0.0".

Definition full_manager : StateManager.t :=
  StateManager.mk "session-1" (Some full_state) (Some demo_prId).

Definition full_store : store :=
  {[ StateManager.state_key demo_prId := SState full_state ]}.

(** The time on the diff held in the session state, if there is a
    session. *)
Definition stored_time (m : StateManager.t) : option Z :=
  option_map (fun st => diff_time_ms (diffMetrics st)) (StateManager.currentState m).

(** * Properties *)

(** ** Storage keys *)

Lemma append_inj_r (p a b : string) : p +:+ a = p +:+ b -> a = b.
Proof.
  induction p as [|c p IH]; simpl; intros H; [exact H|].
  injection H as H. auto.
Qed.

Lemma premerge_key_inj (a b : string) :
  CooldownManager.premerge_key a = CooldownManager.premerge_key b -> a = b.
Proof. apply append_inj_r. Qed.

Lemma review_key_inj (a b : string) :
  CooldownManager.review_key a = CooldownManager.review_key b -> a = b.
Proof. apply append_inj_r. Qed.

Lemma review_key_not_premerge (a b : string) :
  CooldownManager.review_key a <> CooldownManager.premerge_key b.
Proof. discriminate. Qed.

(** ** TokenVault: allow tokens *)

Section TokenVault.

Import CooldownManager.

Lemma hasValidToken_token (s : store) (now : Z) (pr el : string) (tok : AllowToken) :
  s !! token_key pr el = Some (SToken tok) ->
  hasValidToken s now pr el
  = negb (tok_used tok) && (now - tok_timestamp tok <=? tok_ttl tok).
Proof.
  intros Hget. unfold hasValidToken. rewrite Hget. simpl.
  destruct (tok_used tok); simpl; [reflexivity|].
  destruct (Z.ltb_spec (tok_ttl tok) (now - tok_timestamp tok));
    destruct (Z.leb_spec (now - tok_timestamp tok) (tok_ttl tok));
    auto; lia.
Qed.

Lemma hasValidToken_missing (s : store) (now : Z) (pr el : string) :
  s !! token_key pr el = None -> hasValidToken s now pr el = false.
Proof. intros Hget. unfold hasValidToken. now rewrite Hget. Qed.

Lemma createAllowToken_lookup (policy : option Policy) (s : store) (now : Z)
    (pr el : string) :
  createAllowToken policy s now pr el !! token_key pr el
  = Some (SToken (mkAllowToken now
                    (JS.or_default (token_ttl_ms (getCooldowns policy)) 5000) false)).
Proof. unfold createAllowToken. apply lookup_insert_eq. Qed.

(** C3. A token is valid at most once: when a pair holds a currently
    valid allow token, the validity check made right after [consumeToken]
    for the same pair answers false, at whatever time it is made, and it
    still does once the scheduled removal has run. *)
Theorem consume_then_invalid (s : store) (now later : Z) (pr el : string)
    (tok : AllowToken) :
  s !! token_key pr el = Some (SToken tok) ->
  hasValidToken s now pr el = true ->
  hasValidToken (consumeToken s pr el) later pr el = false
  /\ hasValidToken (cleanupToken (consumeToken s pr el) pr el) later pr el = false.
Proof.
  intros Hget _. split.
  - rewrite (hasValidToken_token _ _ _ _ (mkAllowToken (tok_timestamp tok) (tok_ttl tok) true)).
    + reflexivity.
    + unfold consumeToken. rewrite Hget. simpl. apply lookup_insert_eq.
  - apply hasValidToken_missing. unfold cleanupToken. apply lookup_delete_eq.
Qed.

(** C4. For a stored allow token the validity check answers true
    exactly when the token is unused and the time elapsed since it was
    issued is at most its TTL; with no record under the key it answers
    false; a token issued under a 5000 ms TTL is valid 4999 ms after
    issuance and invalid 5001 ms after it. *)
Theorem token_valid_iff :
  (forall (s : store) (now : Z) (pr el : string) (tok : AllowToken),
      s !! token_key pr el = Some (SToken tok) ->
      (hasValidToken s now pr el = true
       <-> tok_used tok = false /\ now - tok_timestamp tok <= tok_ttl tok))
  /\ (forall (s : store) (now : Z) (pr el : string),
      s !! token_key pr el = None -> hasValidToken s now pr el = false)
  /\ (forall (policy : option Policy) (s : store) (issuedAt : Z) (pr el : string),
      JS.or_default (token_ttl_ms (getCooldowns policy)) 5000 = 5000 ->
      hasValidToken (createAllowToken policy s issuedAt pr el)
        (issuedAt + 4999) pr el = true
      /\ hasValidToken (createAllowToken policy s issuedAt pr el)
        (issuedAt + 5001) pr el = false).
Proof.
  split; [|split].
  - intros s now pr el tok Hget.
    rewrite (hasValidToken_token _ _ _ _ _ Hget).
    rewrite andb_true_iff, negb_true_iff, Z.leb_le. reflexivity.
  - apply hasValidToken_missing.
  - intros policy s t0 pr el Httl.
    rewrite !(hasValidToken_token _ _ _ _ _ (createAllowToken_lookup _ _ _ _ _)).
    rewrite Httl. simpl. split.
    + apply Z.leb_le. lia.
    + apply Z.leb_gt. lia.
Qed.

End TokenVault.

(** ** CooldownRegistry: the pre-merge nudge *)

Section Cooldowns.

Import CooldownManager.

(** C8. [shouldShowPremergeNudge] answers true exactly when no
    pre-merge record exists for the resource, or a review record for the
    same resource carries a timestamp strictly after the one of the
    pre-merge record; it takes no clock reading, so elapsed time never
    changes the answer. *)
Theorem premerge_nudge_iff (s : store) (pr : string) :
  shouldShowPremergeNudge s pr = true
  <-> s !! premerge_key pr = None
      \/ exists shown review tShown tReview,
           s !! premerge_key pr = Some shown
           /\ s !! review_key pr = Some review
           /\ timestamp_of shown = Some tShown
           /\ timestamp_of review = Some tReview
           /\ tShown < tReview.
Proof.
  unfold shouldShowPremergeNudge.
  destruct (s !! premerge_key pr) as [shown|] eqn:Hshown.
  - destruct (s !! review_key pr) as [review|] eqn:Hreview.
    + unfold js_gt.
      destruct (timestamp_of review) as [tr|] eqn:Htr;
        destruct (timestamp_of shown) as [ts|] eqn:Hts.
      * destruct (Z.ltb_spec ts tr) as [Hlt|Hge].
        -- split; [|reflexivity]. intros _. right.
           exists shown, review, ts, tr. repeat split; assumption.
        -- split; [discriminate|].
           intros [Hnone|(sh & rv & a & b & H1 & H2 & H3 & H4 & H5)];
             [discriminate|].
           injection H1 as <-. injection H2 as <-.
           rewrite Hts in H3. rewrite Htr in H4.
           injection H3 as <-. injection H4 as <-. lia.
      * split; [discriminate|].
        intros [Hnone|(sh & rv & a & b & H1 & H2 & H3 & H4 & H5)];
          [discriminate|].
        injection H1 as <-. rewrite Hts in H3. discriminate.
      * split; [discriminate|].
        intros [Hnone|(sh & rv & a & b & H1 & H2 & H3 & H4 & H5)];
          [discriminate|].
        injection H2 as <-. rewrite Htr in H4. discriminate.
      * split; [discriminate|].
        intros [Hnone|(sh & rv & a & b & H1 & H2 & H3 & H4 & H5)];
          [discriminate|].
        injection H2 as <-. rewrite Htr in H4. discriminate.
    + split; [discriminate|].
      intros [Hnone|(sh & rv & a & b & H1 & H2 & _)]; discriminate.
  - split; [|reflexivity]. intros _. now left.
Qed.

(** The review-triggered reset on the recording operations: once the
    nudge is recorded as shown at [tShown], a review recorded afterwards
    at [tReview] brings it back exactly when [tShown < tReview]. *)
Lemma premerge_reset_by_review (s : store) (pr : string) (tShown : Z)
    (tier : nat) (action : string) (tReview : Z) :
  shouldShowPremergeNudge
    (recordReview (recordPremergeNudge s tShown pr tier action) tReview pr) pr
  = (tShown <? tReview).
Proof.
  unfold shouldShowPremergeNudge, recordReview, recordPremergeNudge.
  rewrite lookup_insert_ne by apply review_key_not_premerge.
  rewrite !lookup_insert_eq. simpl.
  destruct (tShown <? tReview); reflexivity.
Qed.

End Cooldowns.

(** *** Worked instances *)

Lemma consume_then_invalid_witness :
  demo_token_store !! CooldownManager.token_key demo_prId demo_elementId
    = Some (SToken (mkAllowToken 1000 5000 false))
  /\ CooldownManager.hasValidToken demo_token_store 1200 demo_prId demo_elementId = true
  /\ CooldownManager.hasValidToken
       (CooldownManager.consumeToken demo_token_store demo_prId demo_elementId)
       1200 demo_prId demo_elementId = false
  /\ CooldownManager.hasValidToken
       (CooldownManager.cleanupToken
          (CooldownManager.consumeToken demo_token_store demo_prId demo_elementId)
          demo_prId demo_elementId)
       1200 demo_prId demo_elementId = false.
Proof.
  assert (Hget : demo_token_store !! CooldownManager.token_key demo_prId demo_elementId
                 = Some (SToken (mkAllowToken 1000 5000 false)))
    by (vm_compute; reflexivity).
  assert (Hvalid : CooldownManager.hasValidToken demo_token_store 1200
                     demo_prId demo_elementId = true)
    by (vm_compute; reflexivity).
  split; [exact Hget|]. split; [exact Hvalid|].
  exact (consume_then_invalid demo_token_store 1200 1200 demo_prId demo_elementId
           _ Hget Hvalid).
Defined.

Lemma token_valid_iff_witness :
  (CooldownManager.hasValidToken demo_token_store 1200 demo_prId demo_elementId = true
   <-> false = false /\ 1200 - 1000 <= 5000)
  /\ CooldownManager.hasValidToken ∅ 1200 demo_prId demo_elementId = false
  /\ CooldownManager.hasValidToken demo_token_store (1000 + 4999)
       demo_prId demo_elementId = true
  /\ CooldownManager.hasValidToken demo_token_store (1000 + 5001)
       demo_prId demo_elementId = false.
Proof.
  destruct token_valid_iff as (Hiff & Hnone & Httl).
  split; [|split].
  - apply (Hiff demo_token_store 1200 demo_prId demo_elementId
             (mkAllowToken 1000 5000 false)).
    vm_compute; reflexivity.
  - apply Hnone. reflexivity.
  - apply (Httl (Some PolicyLoader.getFallbackPolicy) ∅ 1000 demo_prId demo_elementId).
    reflexivity.
Defined.

(** ** SessionStateStore: checkpoint history and scroll depth *)

Section SessionState.

Import StateManager.

Lemma push_bounded_cases (entry : Checkpoint) (h : list Checkpoint) :
  (length h <= 10)%nat ->
  push_bounded entry h
  = if (length h <? 10)%nat then h ++ [entry] else tail h ++ [entry].
Proof.
  intros Hlen. unfold push_bounded. rewrite length_app. simpl.
  destruct (Nat.ltb_spec (length h) 10) as [Hlt|Hge].
  - destruct (Nat.ltb_spec 10 (length h + 1)); [lia|reflexivity].
  - destruct (Nat.ltb_spec 10 (length h + 1)); [|lia].
    destruct h as [|x h]; [simpl in Hge; lia|reflexivity].
Qed.

Lemma push_bounded_length (entry : Checkpoint) (h : list Checkpoint) :
  (length h <= 10)%nat -> (length (push_bounded entry h) <= 10)%nat.
Proof.
  intros Hlen. rewrite push_bounded_cases by exact Hlen.
  destruct (Nat.ltb_spec (length h) 10).
  - rewrite length_app. simpl. lia.
  - rewrite length_app. destruct h; simpl in *; lia.
Qed.

Lemma push_bounded_recent (entry : Checkpoint) (h : list Checkpoint) :
  (length h <= 10)%nat ->
  push_bounded entry h = drop (length (h ++ [entry]) - 10) (h ++ [entry]).
Proof.
  intros Hlen. rewrite push_bounded_cases by exact Hlen.
  rewrite length_app. simpl.
  destruct (Nat.ltb_spec (length h) 10) as [Hlt|Hge].
  - replace (length h + 1 - 10)%nat with 0%nat by lia. reflexivity.
  - replace (length h + 1 - 10)%nat with 1%nat by lia.
    destruct h as [|x h]; [simpl in Hge; lia|reflexivity].
Qed.

Lemma save_bounded (m : StateManager.t) (s : store) (now : Z) :
  bounded m s -> bounded (fst (save m s now)) (snd (save m s now)).
Proof.
  intros [Hcur Hsto]. unfold save.
  destruct (currentState m) as [st|] eqn:Hst; [|split; simpl; [now rewrite Hst|exact Hsto]].
  destruct (sm_prId m) as [pr|]; [|split; simpl; [now rewrite Hst|exact Hsto]].
  destruct (JS.truthy pr); [|split; simpl; [now rewrite Hst|exact Hsto]].
  simpl. split.
  - intros st' [= <-]. apply (Hcur st eq_refl).
  - intros key st' Hget.
    destruct (decide (state_key pr = key)) as [<-|Hne].
    + rewrite lookup_insert_eq in Hget. injection Hget as <-. apply (Hcur st eq_refl).
    + rewrite lookup_insert_ne in Hget by exact Hne. eapply Hsto; eassumption.
Qed.

(** Saving a manager whose live state was replaced by a bounded one. *)
Lemma save_replaced_bounded (m : StateManager.t) (s : store) (now : Z)
    (st' : SessionState) :
  bounded m s -> history_bounded st' ->
  bounded (fst (save (set_currentState (Some st') m) s now))
          (snd (save (set_currentState (Some st') m) s now)).
Proof.
  intros [Hcur Hsto] Hst'. apply save_bounded. split.
  - simpl. intros st [= <-]. exact Hst'.
  - exact Hsto.
Qed.

Lemma apply_bounded (o : op) (m : StateManager.t) (s : store) (now : Z) :
  bounded m s -> bounded (fst (apply o m s now)) (snd (apply o m s now)).
Proof.
  intros Hb. pose proof Hb as [Hcur Hsto].
  destruct o as [parsed|tab| |ms|pct|metrics|type tier|kind result|fresh]; simpl.
  - (* initialize *)
    unfold initialize. destruct parsed as [info|].
    + set (pr := pi_owner info +:+ "/" +:+ pi_repo info +:+ "/"
                   +:+ pretty (pi_prNumber info)).
      set (m1 := mk (sm_sessionId m) (currentState m) (Some pr)).
      assert (Hb1 : bounded m1 s) by (split; [exact Hcur|exact Hsto]).
      apply (save_replaced_bounded m1 s now); [exact Hb1|].
      destruct (s !! state_key pr) as [v|] eqn:Hget;
        [|unfold history_bounded; simpl; lia].
      destruct v as [? ? | ? ? ? | ? | ? | st | ? | ?];
        try (unfold history_bounded; simpl; lia).
      destruct (isValidState (SState st));
        [|unfold history_bounded; simpl; lia].
      unfold history_bounded. simpl. eapply Hsto; eassumption.
    + split; simpl; [discriminate|exact Hsto].
  - unfold recordTabView.
    destruct (currentState m) as [st|] eqn:Hst; [|exact Hb].
    destruct (includes tab (tabsViewed st)); [exact Hb|].
    apply save_replaced_bounded; [exact Hb|]. apply (Hcur st eq_refl).
  - unfold recordChecksViewed.
    destruct (currentState m) as [st|] eqn:Hst; [|exact Hb].
    destruct (checksViewed st); [exact Hb|].
    apply save_replaced_bounded; [exact Hb|]. apply (Hcur st eq_refl).
  - unfold addDiffTime.
    destruct (currentState m) as [st|] eqn:Hst; [|exact Hb].
    apply save_replaced_bounded; [exact Hb|]. apply (Hcur st eq_refl).
  - unfold updateScrollMax.
    destruct (currentState m) as [st|] eqn:Hst; [|exact Hb].
    apply save_replaced_bounded; [exact Hb|]. apply (Hcur st eq_refl).
  - unfold updateDiffMetrics.
    destruct (currentState m) as [st|] eqn:Hst; [|exact Hb].
    apply save_replaced_bounded; [exact Hb|]. apply (Hcur st eq_refl).
  - unfold recordNudgeShown.
    destruct (currentState m) as [st|] eqn:Hst; [|exact Hb].
    apply save_replaced_bounded; [exact Hb|]. apply (Hcur st eq_refl).
  - unfold recordCheckpoint.
    destruct (currentState m) as [st|] eqn:Hst; [|exact Hb].
    apply save_replaced_bounded; [exact Hb|].
    unfold history_bounded. simpl. apply push_bounded_length, (Hcur st eq_refl).
  - split; simpl; [discriminate|exact Hsto].
Qed.

Lemma save_currentState (m : StateManager.t) (s : store) (now : Z) (st : SessionState) :
  currentState m = Some st ->
  exists la, currentState (fst (save m s now)) = Some (set_lastActive la st).
Proof.
  intros Hst. unfold save. rewrite Hst.
  destruct (sm_prId m) as [pr|].
  - destruct (JS.truthy pr); simpl.
    + exists now. reflexivity.
    + exists (lastActive st). rewrite Hst. now destruct st.
  - exists (lastActive st). simpl. rewrite Hst. now destruct st.
Qed.

(** C9. The bound [checkpointHistory.length <= 10] is preserved by
    every operation of the store (on the live state and on every
    persisted one), and on a state within the bound [recordCheckpoint]
    appends the new [{timestamp, kind, result}] entry at the end and,
    when that makes eleven, drops exactly the oldest entry, so that the
    ten most recent entries remain in order. *)
Theorem checkpoint_history_bounded_fifo :
  (forall (o : op) (m : StateManager.t) (s : store) (now : Z),
      bounded m s -> bounded (fst (apply o m s now)) (snd (apply o m s now)))
  /\ (forall (m : StateManager.t) (s : store) (now : Z) (kind result : string)
             (st : SessionState),
      currentState m = Some st ->
      (length (checkpointHistory st) <= 10)%nat ->
      exists st',
        currentState (fst (recordCheckpoint m s now kind result)) = Some st'
        /\ checkpointHistory st'
           = (if (length (checkpointHistory st) <? 10)%nat
              then checkpointHistory st ++ [mkCheckpoint now kind result]
              else tail (checkpointHistory st) ++ [mkCheckpoint now kind result])
        /\ checkpointHistory st'
           = drop (length (checkpointHistory st ++ [mkCheckpoint now kind result]) - 10)
                  (checkpointHistory st ++ [mkCheckpoint now kind result])
        /\ (length (checkpointHistory st') <= 10)%nat).
Proof.
  split; [exact apply_bounded|].
  intros m s now kind result st Hst Hlen.
  unfold recordCheckpoint. rewrite Hst.
  set (h := push_bounded (mkCheckpoint now kind result) (checkpointHistory st)).
  destruct (save_currentState (set_currentState (Some (set_checkpointHistory h st)) m)
              s now (set_checkpointHistory h st) eq_refl) as [la Hla].
  eexists. split; [exact Hla|]. simpl. subst h. split; [|split].
  - apply push_bounded_cases, Hlen.
  - apply push_bounded_recent, Hlen.
  - apply push_bounded_length, Hlen.
Qed.

(** C10. [updateScrollMax] stores the maximum of the previous value
    and the input, so the stored maximum never decreases, and it leaves
    every field of the session state other than
    [diffMetrics.diff_scroll_max_pct] and [lastActive] as it was. *)
Theorem updateScrollMax_monotone (m : StateManager.t) (s : store) (now : Z)
    (pct : Q) (st : SessionState) :
  currentState m = Some st ->
  exists st',
    currentState (fst (updateScrollMax m s now pct)) = Some st'
    /\ diff_scroll_max_pct (diffMetrics st')
       = Qmax (diff_scroll_max_pct (diffMetrics st)) pct
    /\ (diff_scroll_max_pct (diffMetrics st)
        <= diff_scroll_max_pct (diffMetrics st'))%Q
    /\ (pct <= diff_scroll_max_pct (diffMetrics st'))%Q
    /\ st' = set_lastActive (lastActive st')
               (set_diffMetrics
                  (mkDiffMetrics (diff_time_ms (diffMetrics st))
                     (diff_scroll_max_pct (diffMetrics st'))) st).
Proof.
  intros Hst. unfold updateScrollMax. rewrite Hst.
  set (dm := mkDiffMetrics (diff_time_ms (diffMetrics st))
               (Qmax (diff_scroll_max_pct (diffMetrics st)) pct)).
  destruct (save_currentState (set_currentState (Some (set_diffMetrics dm st)) m)
              s now (set_diffMetrics dm st) eq_refl) as [la Hla].
  eexists. split; [exact Hla|]. simpl. repeat split.
  - apply Q.le_max_l.
  - apply Q.le_max_r.
Qed.

End SessionState.

(** ** ReadinessScorer *)

Section Readiness.

Import ReadinessCalculator.

Lemma clamp01_range (x : Q) : (0 <= clamp01 x /\ clamp01 x <= 1)%Q.
Proof.
  unfold clamp01. split.
  - apply Q.le_max_l.
  - apply Q.max_lub; [discriminate|apply Q.le_min_l].
Qed.

Lemma clamp01_monotone (x y : Q) : (x <= y)%Q -> (clamp01 x <= clamp01 y)%Q.
Proof.
  intros Hxy. unfold clamp01.
  apply Q.max_le_compat_l. apply Q.min_le_compat_l. exact Hxy.
Qed.

Lemma hundredths_range (z : Z) :
  0 <= z <= 100 -> (0 <= inject_Z z / 100 /\ inject_Z z / 100 <= 1)%Q.
Proof.
  intros Hz. unfold Qle, Qdiv, Qmult, Qinv, inject_Z. simpl. lia.
Qed.

Lemma hundredths_monotone (a b : Z) :
  a <= b -> (inject_Z a / 100 <= inject_Z b / 100)%Q.
Proof.
  intros Hab. unfold Qle, Qdiv, Qmult, Qinv, inject_Z. simpl. lia.
Qed.

Lemma round2_monotone (x y : Q) : (x <= y)%Q -> (round2 x <= round2 y)%Q.
Proof.
  intros Hxy. unfold round2. apply hundredths_monotone, Qfloor_resp_le.
  apply Qplus_le_compat; [|apply Qle_refl].
  apply Qmult_le_compat_r; [exact Hxy|discriminate].
Qed.

Lemma round2_range (x : Q) :
  (0 <= x)%Q -> (x <= 1)%Q -> (0 <= round2 x /\ round2 x <= 1)%Q.
Proof.
  intros H0 H1. split.
  - apply (Qle_trans _ (round2 0)); [discriminate|apply round2_monotone, H0].
  - apply (Qle_trans _ (round2 1)); [apply round2_monotone, H1|discriminate].
Qed.

Lemma tier_of_range (t1 t2 x : Q) :
  tier_of t1 t2 x = 0%nat \/ tier_of t1 t2 x = 1%nat \/ tier_of t1 t2 x = 2%nat.
Proof.
  unfold tier_of. destruct (Qle_bool t1 x); [now left|].
  destruct (Qle_bool t2 x); [right; now left|right; now right].
Qed.

Lemma Qle_bool_false (a b : Q) : Qle_bool a b = false <-> (b < a)%Q.
Proof.
  split.
  - intros Hf. apply Qnot_le_lt. intros Hle.
    apply Qle_bool_iff in Hle. congruence.
  - intros Hlt. destruct (Qle_bool a b) eqn:Hb; [|reflexivity].
    apply Qle_bool_iff in Hb. exfalso. exact (Qlt_not_le _ _ Hlt Hb).
Qed.

Lemma tier_of_zero (t1 t2 x : Q) : (t1 <= x)%Q -> tier_of t1 t2 x = 0%nat.
Proof.
  intros H. unfold tier_of. apply Qle_bool_iff in H. now rewrite H.
Qed.

Lemma tier_of_one (t1 t2 x : Q) :
  (t2 <= x)%Q -> (x < t1)%Q -> tier_of t1 t2 x = 1%nat.
Proof.
  intros H2 H1. unfold tier_of.
  apply Qle_bool_false in H1. apply Qle_bool_iff in H2. now rewrite H1, H2.
Qed.

Lemma tier_of_two (t1 t2 x : Q) :
  (x < t2)%Q -> (x < t1)%Q -> tier_of t1 t2 x = 2%nat.
Proof.
  intros H2 H1. unfold tier_of.
  apply Qle_bool_false in H1. apply Qle_bool_false in H2. now rewrite H1, H2.
Qed.

Lemma tier_of_antitone (t1 t2 x y : Q) :
  (x <= y)%Q -> (tier_of t1 t2 y <= tier_of t1 t2 x)%nat.
Proof.
  intros Hxy. unfold tier_of.
  destruct (Qle_bool t1 x) eqn:H1x.
  - apply Qle_bool_iff in H1x.
    assert (H1y : Qle_bool t1 y = true)
      by (apply Qle_bool_iff; eapply Qle_trans; eassumption).
    rewrite H1y. lia.
  - destruct (Qle_bool t1 y); [lia|].
    destruct (Qle_bool t2 x) eqn:H2x.
    + apply Qle_bool_iff in H2x.
      assert (H2y : Qle_bool t2 y = true)
        by (apply Qle_bool_iff; eapply Qle_trans; eassumption).
      rewrite H2y. lia.
    + destruct (Qle_bool t2 y); lia.
Qed.

Lemma calculate_fields (policy : option Policy) (state : SessionState) (now : Z) :
  score (calculate policy state now) = round2 (clamped_score policy state now)
  /\ tier (calculate policy state now)
     = tier_of (JS.nullish (tier1_min (PolicyLoader.getNudgeThresholds policy)) 0.70)
               (JS.nullish (tier2_min (PolicyLoader.getNudgeThresholds policy)) 0.45)
               (clamped_score policy state now).
Proof.
  unfold calculate, clamped_score.
  destruct (accumulate _ state now) as [[u r] p]. simpl. split; reflexivity.
Qed.

End Readiness.

(** ** Event log: payload redaction *)

Section Redaction.

Import Logger.

Lemma filter_filter {A} (f g : A -> bool) (l : list A) :
  List.filter f (List.filter g l) = List.filter (fun x => g x && f x) l.
Proof.
  induction l as [|x l IH]; simpl; [reflexivity|].
  destruct (g x); simpl; [destruct (f x)|]; now rewrite IH.
Qed.

Lemma delete_fields_filter (fields : list string) (payload : Payload) :
  fold_left (fun acc field => delete_field field acc) fields payload
  = List.filter (fun kv => negb (existsb (String.eqb (fst kv)) fields)) payload.
Proof.
  revert payload. induction fields as [|f fields IH]; intros payload; simpl.
  - clear. induction payload as [|kv l IHl]; simpl; congruence.
  - rewrite IH. unfold delete_field. rewrite filter_filter.
    apply filter_ext. intros kv. now rewrite negb_orb.
Qed.

Lemma redact_eq (payload : Payload) :
  redact payload
  = map (fun kv => (fst kv, truncate (snd kv)))
        (List.filter (fun kv => negb (is_sensitive (fst kv))) payload).
Proof. unfold redact. now rewrite delete_fields_filter. Qed.

Lemma substring0_prefix (n : nat) (str : string) :
  (n <= String.length str)%nat ->
  String.length (JS.substring0 n str) = n
  /\ exists rest, str = JS.substring0 n str +:+ rest.
Proof.
  unfold JS.substring0. revert str.
  induction n as [|n IH]; intros str Hlen.
  - destruct str; simpl; (split; [reflexivity|eexists; reflexivity]).
  - destruct str as [|c str]; simpl in *; [lia|].
    destruct (IH str ltac:(lia)) as [Hl [rest Hrest]].
    split; [now rewrite Hl|]. exists rest.
    change (String c str = String c (substring 0 n str +:+ rest)).
    f_equal. exact Hrest.
Qed.

Lemma evict_keeps_last (size : nat) (buffer : list LogEvent) (event : LogEvent) :
  (1 <= size)%nat ->
  exists older, evict size (buffer ++ [event]) = older ++ [event].
Proof.
  intros Hsize. induction buffer as [|x buffer IH]; simpl.
  - destruct (Nat.ltb_spec size 1); [lia|]. now exists [].
  - destruct (size <? S (length (buffer ++ [event])))%nat.
    + exact IH.
    + now exists (x :: buffer).
Qed.

Lemma evict_length (size : nat) (buffer : list LogEvent) :
  (length (evict size buffer) <= size)%nat.
Proof.
  induction buffer as [|x buffer IH]; simpl; [lia|].
  destruct (Nat.ltb_spec size (S (length buffer))); [exact IH|simpl; lia].
Qed.

(** C7, as the code has it.  Redaction works on the top level of the
    payload: every top-level field on the denylist is removed, every
    remaining top-level string longer than 500 units is cut to its first
    500 units followed by the marker ["... [truncated]"], every other
    top-level value is kept as it is (whatever it contains), and the
    entry appended to the persisted buffer carries exactly this
    redacted payload. *)
Theorem redact_top_level (lg : Logger.t) (s : store) (now : Z)
    (eventType : string) (payload : Payload) :
  (1 <= BUFFER_SIZE lg)%nat ->
  redact payload
    = map (fun kv => (fst kv, truncate (snd kv)))
          (List.filter (fun kv => negb (is_sensitive (fst kv))) payload)
  /\ (forall k v, In (k, v) (redact payload) -> is_sensitive k = false)
  /\ (forall k v, In (k, v) (redact payload) ->
        exists v0, In (k, v0) payload /\ v = truncate v0)
  /\ (forall str, (String.length str <= 500)%nat -> truncate (JStr str) = JStr str)
  /\ (forall str, (500 < String.length str)%nat ->
        truncate (JStr str) = JStr (JS.substring0 500 str +:+ truncation_marker)
        /\ String.length (JS.substring0 500 str) = 500%nat
        /\ exists rest, str = JS.substring0 500 str +:+ rest)
  /\ (forall v, (forall str, v <> JStr str) -> truncate v = v)
  /\ ev_payload (fst (log lg s now eventType payload)) = redact payload
  /\ exists older,
       snd (log lg s now eventType payload) !! "event_buffer"
       = Some (SEvents (older ++ [fst (log lg s now eventType payload)])).
Proof.
  intros Hsize.
  split; [apply redact_eq|].
  split.
  { intros k v Hin. rewrite redact_eq in Hin.
    apply in_map_iff in Hin. destruct Hin as [[k0 v0] [Heq Hin]].
    simpl in Heq. injection Heq as <- <-.
    apply filter_In in Hin. destruct Hin as [_ Hns]. simpl in Hns.
    now apply negb_true_iff in Hns. }
  split.
  { intros k v Hin. rewrite redact_eq in Hin.
    apply in_map_iff in Hin. destruct Hin as [[k0 v0] [Heq Hin]].
    simpl in Heq. injection Heq as <- <-.
    apply filter_In in Hin. destruct Hin as [Hin _]. now exists v0. }
  split.
  { intros str Hlen. unfold truncate.
    destruct (Nat.ltb_spec 500 (String.length str)); [lia|reflexivity]. }
  split.
  { intros str Hlen. split.
    - unfold truncate.
      destruct (Nat.ltb_spec 500 (String.length str)); [reflexivity|lia].
    - apply substring0_prefix. lia. }
  split.
  { intros v Hv. destruct v; try reflexivity. now destruct (Hv s0). }
  split; [reflexivity|].
  unfold log. simpl. rewrite lookup_insert_eq.
  match goal with
  | |- context [evict _ (?b ++ [?e])] =>
      destruct (evict_keeps_last (BUFFER_SIZE lg) b e Hsize) as [older Hol]
  end.
  exists older. now rewrite Hol.
Qed.

(** C7 as stated fails below the top level: a denylisted field inside
    a nested object is persisted as it is. *)
Lemma redact_keeps_nested_secret :
  redact nested_payload = nested_payload
  /\ mentions_sensitive (redact nested_payload) = true
  /\ mentions_sensitive
       (ev_payload (fst (log demo_logger ∅ 0 "nudge_action" nested_payload)))
     = true.
Proof. vm_compute. repeat split. Qed.

End Redaction.

(** ** PolicyStore: classification *)

Section Classification.

Import PolicyLoader EventInterceptor.

Variable RegExp_i : RegExpCtor.

Lemma test_patterns_existsb (ps : list string) (text : string) :
  test_patterns RegExp_i ps text = existsb (pattern_matches RegExp_i text) ps.
Proof.
  induction ps as [|p ps IH]; simpl; [reflexivity|].
  unfold pattern_matches at 1.
  destruct (RegExp_i p) as [regex|]; [|exact IH].
  destruct (regex text); [reflexivity|exact IH].
Qed.


Lemma classify_entries_find (entries : list (string * KindConfig)) (text : string) :
  classify_entries RegExp_i entries text
  = option_map fst (List.find (kind_matches RegExp_i text) entries).
Proof.
  induction entries as [|[k config] entries IH]; simpl; [reflexivity|].
  unfold kind_matches at 1. simpl. rewrite test_patterns_existsb.
  destruct (existsb _ (patterns config)); [reflexivity|exact IH].
Qed.


(** The first match, spelled out: the winner is preceded only by kinds
    none of whose patterns match. *)
Lemma classify_entries_first (entries : list (string * KindConfig))
    (text kind : string) :
  classify_entries RegExp_i entries text = Some kind
  <-> exists before config after,
        entries = before ++ (kind, config) :: after
        /\ kind_matches RegExp_i text (kind, config) = true
        /\ Forall (fun e => kind_matches RegExp_i text e = false) before.
Proof.
  rewrite classify_entries_find.
  induction entries as [|[k c] entries IH]; simpl.
  - split; [discriminate|].
    intros (b & c & a & Heq & _). destruct b; discriminate.
  - destruct (kind_matches RegExp_i text (k, c)) eqn:Hm; simpl.
    + split.
      * intros [= <-]. exists [], c, entries. repeat split; [exact Hm|constructor].
      * intros (b & c' & a & Heq & Hk & Hb).
        destruct b as [|e b]; simpl in Heq.
        -- now injection Heq as -> _ _.
        -- injection Heq as <- _. inversion Hb; subst. congruence.
    + rewrite IH. split.
      * intros (b & c' & a & Heq & Hk & Hb).
        exists ((k, c) :: b), c', a. subst entries. repeat split; [exact Hk|].
        now constructor.
      * intros (b & c' & a & Heq & Hk & Hb).
        destruct b as [|e b]; simpl in Heq.
        -- injection Heq as -> -> _. congruence.
        -- injection Heq as <- ->. inversion Hb; subst.
           exists b, c', a. repeat split; assumption.
Qed.


End Classification.


Lemma literal_RegExp_literal : literal_patterns_search literal_RegExp.
Proof. intros p Hp. unfold literal_RegExp. now rewrite Hp. Qed.

(** ** CheckpointGate: the Tier-3 confirmation surface *)

Section Tier3.

Import Tier3Modal EventInterceptor.

Lemma or_string_truthy (x : option string) (d : string) :
  JS.truthy d = true -> JS.truthy (or_string x d) = true.
Proof.
  intros Hd. unfold or_string. destruct x as [v|]; [|exact Hd].
  destruct (JS.truthy v) eqn:Hv; [exact Hv|exact Hd].
Qed.

Lemma created_consistent (template : Tier3Template) (kind method base : string) :
  consistent (createModalElement (buildConfig template kind method base)).
Proof.
  unfold consistent, createModalElement, textValid. simpl.
  pose proof (or_string_truthy (confirmation_text template) "MERGE" eq_refl) as Ht.
  destruct (or_string (confirmation_text template) "MERGE"); [discriminate|].
  simpl. now rewrite andb_false_r.
Qed.

Lemma step_consistent (m m' : Modal) (e : event) :
  consistent m -> step m e = inl m' ->
  consistent m' /\ config m' = config m
  /\ length (checked m') = length (checked m).
Proof.
  intros Hc Hstep. destruct e as [i|v| | |t|key t]; simpl in Hstep.
  - injection Hstep as <-. unfold consistent. simpl.
    repeat split. apply length_alter.
  - injection Hstep as <-. unfold consistent. simpl. repeat split.
  - destruct (confirmDisabled m); [|discriminate].
    injection Hstep as <-. repeat split. exact Hc.
  - discriminate.
  - destruct t; [discriminate| |]; injection Hstep as <-; repeat split; exact Hc.
  - destruct (String.eqb key "Escape"); [discriminate|].
    destruct (String.eqb key "Enter" && negb (confirmDisabled m)
              && match t with TTextInput => true | _ => false end);
      [discriminate|].
    injection Hstep as <-. repeat split. exact Hc.
Qed.

Lemma step_completed (m : Modal) (e : event) :
  consistent m -> step m e = inr Completed ->
  allChecked m = true /\ textValid m = true.
Proof.
  intros Hc Hstep.
  assert (Henabled : confirmDisabled m = false).
  { destruct e as [i|v| | |t|key t]; simpl in Hstep; try discriminate.
    - destruct (confirmDisabled m); [discriminate|reflexivity].
    - destruct t; discriminate.
    - destruct (String.eqb key "Escape"); [discriminate|].
      destruct (confirmDisabled m); [|reflexivity].
      rewrite andb_false_r in Hstep. discriminate. }
  unfold consistent in Hc. rewrite Henabled in Hc.
  symmetry in Hc. apply negb_false_iff, andb_true_iff in Hc. exact Hc.
Qed.

Lemma drive_completed (events : list event) (m final : Modal) :
  consistent m -> drive m events = (final, Some Completed) ->
  config final = config m
  /\ length (checked final) = length (checked m)
  /\ allChecked final = true /\ textValid final = true.
Proof.
  revert m. induction events as [|e events IH]; intros m Hc Hdrive; simpl in Hdrive.
  - discriminate.
  - destruct (step m e) as [m'|o] eqn:Hstep.
    + destruct (step_consistent m m' e Hc Hstep) as (Hc' & Hcfg & Hlen).
      destruct (IH m' Hc' Hdrive) as (H1 & H2 & H3 & H4).
      repeat split; congruence.
    + injection Hdrive as <- ->.
      destruct (step_completed m e Hc Hstep). repeat split; assumption.
Qed.

Lemma push_bounded_last (entry : Checkpoint) (h : list Checkpoint) :
  exists older, StateManager.push_bounded entry h = older ++ [entry].
Proof.
  unfold StateManager.push_bounded.
  destruct h as [|x h]; [now exists []|].
  destruct (10 <? length ((x :: h) ++ [entry]))%nat;
    [now exists h|now exists (x :: h)].
Qed.

Lemma recordCheckpoint_last (m : StateManager.t) (s : store) (now : Z)
    (k result : string) (st : SessionState) :
  StateManager.currentState m = Some st ->
  exists st' older,
    StateManager.currentState (fst (StateManager.recordCheckpoint m s now k result))
      = Some st'
    /\ checkpointHistory st' = older ++ [mkCheckpoint now k result].
Proof.
  intros Hst. unfold StateManager.recordCheckpoint. rewrite Hst.
  destruct (push_bounded_last (mkCheckpoint now k result) (checkpointHistory st))
    as [older Hol].
  destruct (save_currentState
              (StateManager.set_currentState
                 (Some (StateManager.set_checkpointHistory
                          (StateManager.push_bounded (mkCheckpoint now k result)
                             (checkpointHistory st)) st)) m)
              s now _ eq_refl) as [la Hla].
  eexists. exists older. split; [exact Hla|]. simpl. exact Hol.
Qed.

Lemma run_handleCheckpoint_aborted (env : Env) (w : World) (info : ActionInfo)
    (el : Element) :
  show (env_policy env) (kind info) (mergeMethod info) (env_baseBranch env)
    (env_user env) = Some Aborted ->
  let s1 := snd (Logger.logCheckpointIntercepted (env_logger env) (w_store w)
                   (env_now env) (kind info) (mergeMethod info) (intentTiming info)) in
  let s2 := snd (Logger.logCheckpointAborted (env_logger env) s1 (env_now env)) in
  let r := StateManager.recordCheckpoint (w_state w) s2 (env_now env)
             (kind info) "aborted" in
  run env (handleCheckpoint info el) w
  = (mkWorld (snd r) (fst r) (w_pending w) (w_reissued w) false,
     [ OAwait (LogCheckpointIntercepted (kind info) (mergeMethod info)
                 (intentTiming info));
       OAwait (ShowTier3 info);
       OAwait LogCheckpointAborted;
       OAwait (RecordCheckpoint (kind info) "aborted") ],
     Some tt).
Proof.
  intros Hshow. unfold handleCheckpoint.
  cbn [run bind await settle with_store w_store w_state w_pending w_reissued
       w_tier3Open].
  rewrite Hshow.
  cbn [run bind await settle with_store w_store w_state w_pending w_reissued
       w_tier3Open].
  destruct (StateManager.recordCheckpoint _ _ _ _ _) as [m' s'].
  reflexivity.
Qed.

Lemma run_handleCheckpoint_completed (env : Env) (w : World) (info : ActionInfo)
    (el : Element) :
  show (env_policy env) (kind info) (mergeMethod info) (env_baseBranch env)
    (env_user env) = Some Completed ->
  exists w',
    run env (handleCheckpoint info el) w
    = (w',
       [ OAwait (LogCheckpointIntercepted (kind info) (mergeMethod info)
                   (intentTiming info));
         OAwait (ShowTier3 info);
         OAwait (LogCheckpointCompleted 0);
         OAwait (RecordCheckpoint (kind info) "completed");
         OAwait (Replay el) ],
       Some tt).
Proof.
  intros Hshow. unfold handleCheckpoint.
  cbn [run bind await settle with_store w_store w_state w_pending w_reissued
       w_tier3Open].
  rewrite Hshow.
  cbn [run bind await settle with_store w_store w_state w_pending w_reissued
       w_tier3Open].
  destruct (StateManager.recordCheckpoint _ _ _ _ _) as [m' s'].
  cbn [run bind await settle with_store w_store w_state w_pending w_reissued
       w_tier3Open].
  destruct (SafeReplay.replay _ _ _ _ _ _ _) as [[[s'' p''] re''] ok].
  eexists. reflexivity.
Qed.

Lemma drive_consistent (events : list event) (m final : Modal) (o : option outcome) :
  consistent m -> drive m events = (final, o) -> consistent final.
Proof.
  revert m. induction events as [|e events IH]; intros m Hc Hdrive; simpl in Hdrive.
  - now injection Hdrive as <- _.
  - destruct (step m e) as [m'|res] eqn:Hstep.
    + destruct (step_consistent m m' e Hc Hstep) as (Hc' & _ & _).
      exact (IH m' Hc' Hdrive).
    + now injection Hdrive as <- _.
Qed.

(** C2, as the code has it.  On a Tier-3 surface built from a template
    with [n] checklist items, the promise resolves to ['completed'] only
    when all [n] boxes are ticked and the typed text, with the white
    space around it removed, equals the expected text up to letter case;
    while a condition is unmet the proceed button stays disabled.  The
    cancel button, a click on the overlay and the Escape key resolve it
    to ['aborted'], after which the handler issues no replay and records
    the checkpoint as aborted; after ['completed'] it issues the
    replay. *)
Theorem tier3_completion_requires_confirmation (env : Env) (w : World)
    (info : ActionInfo) (el : Element) :
  (forall template k method base events final,
      drive (createModalElement (buildConfig template k method base)) events
        = (final, Some Completed) ->
      length (checked final) = length (default [] (checklist template))
      /\ Forall (fun b => b = true) (checked final)
      /\ JS.toUpperCase (JS.trim (textValue final))
         = JS.toUpperCase (or_string (confirmation_text template) "MERGE"))
  /\ (forall template k method base events final o,
      drive (createModalElement (buildConfig template k method base)) events
        = (final, o) ->
      confirmDisabled final = negb (allChecked final && textValid final))
  /\ (forall m t,
      step m ClickAbort = inr Aborted
      /\ step m (Click TOverlay) = inr Aborted
      /\ step m (KeyDown "Escape" t) = inr Aborted)
  /\ (show (env_policy env) (kind info) (mergeMethod info) (env_baseBranch env)
        (env_user env) = Some Aborted ->
      let '(w', tr, r) := run env (handleCheckpoint info el) w in
      r = Some tt
      /\ replay_issued tr = false
      /\ w_reissued w' = w_reissued w
      /\ forall st, StateManager.currentState (w_state w) = Some st ->
           exists st' older,
             StateManager.currentState (w_state w') = Some st'
             /\ checkpointHistory st'
                = older ++ [mkCheckpoint (env_now env) (kind info) "aborted"])
  /\ (show (env_policy env) (kind info) (mergeMethod info) (env_baseBranch env)
        (env_user env) = Some Completed ->
      let '(w', tr, r) := run env (handleCheckpoint info el) w in
      r = Some tt /\ replay_issued tr = true).
Proof.
  split.
  { intros template k method base events final Hdrive.
    destruct (drive_completed events _ final
                (created_consistent template k method base) Hdrive)
      as (Hcfg & Hlen & Hall & Htext).
    split; [rewrite Hlen; simpl; apply length_map|].
    split.
    - unfold allChecked in Hall. rewrite forallb_forall in Hall.
      apply List.Forall_forall. intros b Hb. exact (Hall b Hb).
    - unfold textValid in Htext. apply String.eqb_eq in Htext.
      rewrite Htext, Hcfg. reflexivity. }
  split.
  { intros template k method base events final o Hdrive.
    exact (drive_consistent events _ final o
             (created_consistent template k method base) Hdrive). }
  split; [intros m t; repeat split|].
  split.
  - intros Hshow. rewrite (run_handleCheckpoint_aborted env w info el Hshow).
    cbv zeta. split; [reflexivity|]. split; [reflexivity|].
    split; [reflexivity|].
    intros st Hst. cbn [w_state].
    exact (recordCheckpoint_last _ _ _ _ _ st Hst).
  - intros Hshow.
    destruct (run_handleCheckpoint_completed env w info el Hshow) as [w' Hrun].
    rewrite Hrun. split; reflexivity.
Qed.

End Tier3.

(** C2 as stated fails on padded input: with the three boxes ticked the
    text ["  merge "] enables the proceed button and the flow completes
    and replays, although it does not equal ["MERGE"] up to letter
    case. *)
Lemma padded_text_completes :
  Tier3Modal.show (Some PolicyLoader.getFallbackPolicy) "MERGE_NOW" "merge" "main"
    padded_confirmation = Some Tier3Modal.Completed
  /\ String.eqb (JS.toUpperCase "  merge ") (JS.toUpperCase "MERGE") = false
  /\ EventInterceptor.replay_issued
       (snd (fst (EventInterceptor.run (demo_env padded_confirmation)
                    (EventInterceptor.handleCheckpoint confirm_merge_info
                       confirm_merge_button)
                    demo_world))) = true.
Proof. vm_compute. repeat split. Qed.

(** ** CheckpointGate: when the default action is suppressed *)

Section Suppression.

Import EventInterceptor.

(** No handler touches the event in the turn in which it is
    dispatched: whenever a handler goes on at all, its first step is the
    suspension on the allow-token lookup. *)
Lemma first_turn_has_no_effect (RegExp_i : RegExpCtor) (policy : option Policy)
    (g : Gate) (event : DomEvent) :
  first_turn (handleClick RegExp_i policy g event) = []
  /\ first_turn (handleSubmit policy g event) = []
  /\ first_turn (handleKeydown RegExp_i policy g event) = [].
Proof.
  unfold handleClick, handleSubmit, handleKeydown.
  destruct (shouldIntercept g); simpl; [|repeat split].
  split; [|split].
  - destruct (ev_actionable event); reflexivity.
  - destruct (classifyForm policy (ev_target event)); reflexivity.
  - destruct (String.eqb (ev_key event) "Enter"); simpl; [|reflexivity].
    destruct (ev_activeElement event) as [el|]; [|reflexivity].
    destruct (classifyAction RegExp_i policy el); reflexivity.
Qed.

(** C1 on the code.  A click on the in-scope "Confirm merge" button
    classifies to [MERGE_NOW], yet the turn in which the click is
    dispatched ends without [preventDefault]: the handler first suspends
    on the allow-token lookup, and only the turn that resumes it (here
    with no token present) calls [preventDefault] and
    [stopImmediatePropagation].  The same holds for every event and for
    the submit and keydown handlers. *)
Theorem suppression_waits_for_token_lookup :
  option_map kind
    (classifyAction literal_RegExp (Some PolicyLoader.getFallbackPolicy)
       confirm_merge_button) = Some "MERGE_NOW"
  /\ first_turn
       (handleClick literal_RegExp (Some PolicyLoader.getFallbackPolicy) demo_gate
          (click_on confirm_merge_button)) = []
  /\ snd (fst (run (demo_env escaped_confirmation)
                 (handleClick literal_RegExp (Some PolicyLoader.getFallbackPolicy)
                    demo_gate (click_on confirm_merge_button))
                 demo_world))
     = [ OAwait (HasValidToken confirm_merge_button);
         OEffect PreventDefault;
         OEffect StopImmediatePropagation;
         OAwait (LogCheckpointIntercepted "MERGE_NOW" "merge" "now");
         OAwait (ShowTier3 confirm_merge_info);
         OAwait LogCheckpointAborted;
         OAwait (RecordCheckpoint "MERGE_NOW" "aborted") ]
  /\ (forall (RegExp_i : RegExpCtor) (policy : option Policy) (g : Gate)
             (event : DomEvent),
        ~ In PreventDefault (first_turn (handleClick RegExp_i policy g event))
        /\ ~ In PreventDefault (first_turn (handleSubmit policy g event))
        /\ ~ In PreventDefault (first_turn (handleKeydown RegExp_i policy g event))).
Proof.
  split; [vm_compute; reflexivity|].
  split; [vm_compute; reflexivity|].
  split; [vm_compute; reflexivity|].
  intros RegExp_i policy g event.
  destruct (first_turn_has_no_effect RegExp_i policy g event) as (H1 & H2 & H3).
  rewrite H1, H2, H3. repeat split; intros [].
Qed.

End Suppression.

(** ** Worked instances *)

(** Scenario A: nothing reviewed, merge attempted 5 s after load. *)
Example scenario_A :
  (ReadinessCalculator.score
     (ReadinessCalculator.calculate (Some PolicyLoader.getFallbackPolicy)
        demo_state 6000) == 0)%Q
  /\ ReadinessCalculator.tier
       (ReadinessCalculator.calculate (Some PolicyLoader.getFallbackPolicy)
          demo_state 6000) = 2%nat.
Proof. split; [vm_compute; reflexivity|vm_compute; reflexivity]. Qed.

(** Scenario B: everything reviewed, merge attempted 120 s after load. *)
Example scenario_B :
  (ReadinessCalculator.score
     (ReadinessCalculator.calculate (Some PolicyLoader.getFallbackPolicy)
        reviewed_state 121000) == 1)%Q
  /\ ReadinessCalculator.tier
       (ReadinessCalculator.calculate (Some PolicyLoader.getFallbackPolicy)
          reviewed_state 121000) = 0%nat.
Proof. split; [vm_compute; reflexivity|vm_compute; reflexivity]. Qed.

(** The session that runs [isValidState] and [initialize] on an empty
    store ends up as the demo session. *)
Example initialize_fresh :
  StateManager.currentState
    (fst (StateManager.initialize (StateManager.mk "session-1" None None) ∅ 1000
            (Some (StateManager.mkPRInfo "octo" "widgets" 7))))
  = Some demo_state.
Proof. vm_compute. reflexivity. Qed.

Lemma checkpoint_history_bounded_fifo_witness :
  bounded full_manager full_store
  /\ StateManager.currentState full_manager = Some full_state
  /\ length (checkpointHistory full_state) = 10%nat
  /\ bounded
       (fst (StateManager.apply (StateManager.OpRecordCheckpoint "MERGE_NOW" "completed")
               full_manager full_store 2000))
       (snd (StateManager.apply (StateManager.OpRecordCheckpoint "MERGE_NOW" "completed")
               full_manager full_store 2000))
  /\ exists st',
       StateManager.currentState
         (fst (StateManager.recordCheckpoint full_manager full_store 2000
                 "MERGE_NOW" "completed"))
       = Some st'
       /\ checkpointHistory st'
          = tail full_history ++ [mkCheckpoint 2000 "MERGE_NOW" "completed"]
       /\ checkpointHistory st'
          = drop 1 (full_history ++ [mkCheckpoint 2000 "MERGE_NOW" "completed"])
       /\ length (checkpointHistory st') = 10%nat
       /\ ~ In (mkCheckpoint 1 "MERGE_NOW" "aborted") (checkpointHistory st').
Proof.
  assert (Hb : bounded full_manager full_store).
  { split.
    - intros st [= <-]. unfold history_bounded. simpl. lia.
    - intros key st Hget. unfold full_store in Hget.
      apply lookup_singleton_Some in Hget as [_ [= <-]].
      unfold history_bounded. simpl. lia. }
  assert (Hlen : (length (checkpointHistory full_state) <= 10)%nat) by (simpl; lia).
  split; [exact Hb|]. split; [reflexivity|]. split; [reflexivity|].
  split.
  - exact (proj1 checkpoint_history_bounded_fifo _ full_manager full_store 2000 Hb).
  - destruct (proj2 checkpoint_history_bounded_fifo full_manager full_store 2000
                "MERGE_NOW" "completed" full_state eq_refl Hlen)
      as (st' & Hcur & Hcases & Hrecent & _).
    exists st'. split; [exact Hcur|]. split; [exact Hcases|]. split; [exact Hrecent|].
    rewrite Hcases. split; [reflexivity|].
    simpl. intros H.
    repeat (destruct H as [H|H]; [discriminate H|]). exact H.
Defined.

Lemma updateScrollMax_monotone_witness :
  StateManager.currentState demo_manager = Some demo_state
  /\ exists st',
       StateManager.currentState
         (fst (StateManager.updateScrollMax demo_manager ∅ 2000 75)) = Some st'
       /\ diff_scroll_max_pct (diffMetrics st') = Qmax 0 75
       /\ (0 <= diff_scroll_max_pct (diffMetrics st'))%Q.
Proof.
  split; [reflexivity|].
  destruct (updateScrollMax_monotone demo_manager ∅ 2000 75 demo_state eq_refl)
    as (st' & Hcur & Hmax & Hle & _).
  exists st'. repeat split; assumption.
Defined.

Lemma redact_top_level_witness :
  (1 <= Logger.BUFFER_SIZE demo_logger)%nat
  /\ (forall k v, In (k, v) (Logger.redact nested_payload) -> Logger.is_sensitive k = false)
  /\ ev_payload (fst (Logger.log demo_logger ∅ 0 "nudge_action" nested_payload))
     = Logger.redact nested_payload.
Proof.
  assert (Hsize : (1 <= Logger.BUFFER_SIZE demo_logger)%nat) by (simpl; lia).
  split; [exact Hsize|].
  destruct (redact_top_level demo_logger ∅ 0 "nudge_action" nested_payload Hsize)
    as (_ & Htop & _ & _ & _ & _ & Hpersist & _).
  split; assumption.
Defined.


Lemma tier3_completion_requires_confirmation_witness :
  Tier3Modal.show (Some PolicyLoader.getFallbackPolicy) "MERGE_NOW" "merge" "main"
    escaped_confirmation = Some Tier3Modal.Aborted
  /\ EventInterceptor.replay_issued
       (snd (fst (EventInterceptor.run (demo_env escaped_confirmation)
                    (EventInterceptor.handleCheckpoint confirm_merge_info
                       confirm_merge_button)
                    demo_world))) = false.
Proof.
  assert (Hshow : Tier3Modal.show (Some PolicyLoader.getFallbackPolicy) "MERGE_NOW"
                    "merge" "main" escaped_confirmation = Some Tier3Modal.Aborted)
    by (vm_compute; reflexivity).
  split; [exact Hshow|].
  destruct (tier3_completion_requires_confirmation (demo_env escaped_confirmation)
              demo_world confirm_merge_info confirm_merge_button)
    as (_ & _ & _ & Haborted & _).
  specialize (Haborted Hshow).
  destruct (EventInterceptor.run (demo_env escaped_confirmation)
              (EventInterceptor.handleCheckpoint confirm_merge_info confirm_merge_button)
              demo_world) as [[w' tr] r].
  exact (proj1 (proj2 Haborted)).
Defined.

(** The monotonicity of the stored maximum belongs to [updateScrollMax]
    alone: [updateDiffMetrics] overwrites the field with what it is
    given. *)
Example updateDiffMetrics_overwrites :
  option_map (fun st => diff_scroll_max_pct (diffMetrics st))
    (StateManager.currentState
       (fst (StateManager.updateDiffMetrics
               (fst (StateManager.updateScrollMax demo_manager ∅ 2000 80)) ∅ 3000
               (StateManager.mkMetricsPatch None (Some 10%Q)))))
  = Some 10%Q.
Proof. vm_compute. reflexivity. Qed.

(** Scenario E through the element-level API: a token created for the
    button is valid 4999 ms later, invalid 5001 ms later, and invalid
    right after it is consumed. *)
Example scenario_E :
  let s := SafeReplay.createToken (Some PolicyLoader.getFallbackPolicy) ∅ 1000
             demo_prId confirm_merge_button in
  SafeReplay.hasValidToken s 5999 demo_prId confirm_merge_button = true
  /\ SafeReplay.hasValidToken s 6001 demo_prId confirm_merge_button = false
  /\ SafeReplay.hasValidToken (SafeReplay.consumeToken s demo_prId confirm_merge_button)
       1001 demo_prId confirm_merge_button = false.
Proof. vm_compute. repeat split. Qed.

(** ** ReadinessScorer on doubles *)

Section Doubles.

Import PrimFloat FloatOps FloatAxioms SpecFloat.

Lemma SFcompare_antisym (x y : spec_float) :
  SFcompare y x = option_map CompOpp (SFcompare x y).
Proof.
  destruct x as [sx|sx| |sx mx ex], y as [sy|sy| |sy my ey];
    try destruct sx; try destruct sy; try reflexivity.
  all: simpl; change (Pos.compare_cont Eq) with Pos.compare;
       destruct (Z.compare_spec ex ey), (Z.compare_spec ey ex); try lia;
       simpl; try reflexivity;
       destruct (Pos.compare_spec mx my), (Pos.compare_spec my mx); try lia;
       subst; try lia; reflexivity.
Qed.

(** The rank of a number in the order of the comparison. *)
Lemma SFleb_trans (x y z : spec_float) :
  SFleb x y = true -> SFleb y z = true -> SFleb x z = true.
Proof.
  unfold SFleb.
  destruct x as [sx|sx| |sx mx ex], y as [sy|sy| |sy my ey], z as [sz|sz| |sz mz ez];
    try destruct sx; try destruct sy; try destruct sz; simpl;
    try reflexivity; try discriminate; intros Hxy Hyz.
  all: change (Pos.compare_cont Eq) with Pos.compare in *.
  all: repeat (match goal with
               | H : context [(?a ?= ?b)%Z] |- _ =>
                   destruct (Z.compare_spec a b); try discriminate H
               | H : context [(?a ?= ?b)%positive] |- _ =>
                   destruct (Pos.compare_spec a b); try discriminate H
               | |- context [(?a ?= ?b)%Z] => destruct (Z.compare_spec a b)
               | |- context [(?a ?= ?b)%positive] => destruct (Pos.compare_spec a b)
               end; subst; simpl in *; try lia; try reflexivity).
Qed.
Lemma digits2_pos_bounds (m : positive) :
  2 ^ (Zpos (digits2_pos m) - 1) <= Zpos m < 2 ^ Zpos (digits2_pos m).
Proof.
  induction m as [m IH|m IH|]; cbn [digits2_pos].
  - rewrite Pos2Z.inj_succ.
    replace (Z.succ (Zpos (digits2_pos m)) - 1) with (Z.succ (Zpos (digits2_pos m) - 1))
      by lia.
    rewrite !Z.pow_succ_r by lia. lia.
  - rewrite Pos2Z.inj_succ.
    replace (Z.succ (Zpos (digits2_pos m)) - 1) with (Z.succ (Zpos (digits2_pos m) - 1))
      by lia.
    rewrite !Z.pow_succ_r by lia. lia.
  - simpl. lia.
Qed.

Lemma valid_finite (s : bool) (m : positive) (e : Z) :
  SpecFloat.valid_binary prec emax (S754_finite s m e) = true ->
  Z.max (Zpos (digits2_pos m) + e - 53) (-1074) = e /\ e <= 971.
Proof.
  cbv [SpecFloat.valid_binary bounded canonical_mantissa fexp SpecFloat.emin prec emax].
  intros H. apply andb_prop in H as [Hc He].
  apply Z.eqb_eq in Hc. apply Z.leb_le in He. split; [exact Hc|exact He].
Qed.

Lemma shr_1_shifted (m0 k : Z) (mrs : shr_record) :
  0 <= m0 -> 0 <= k -> shifted m0 k mrs -> shifted m0 (k + 1) (shr_1 mrs).
Proof.
  intros Hm Hk [Hq Hex]. destruct mrs as [q r s]. cbn [shr_m shr_r shr_s] in *.
  assert (Hpow : 2 ^ (k + 1) = 2 ^ k * 2) by (rewrite Z.pow_add_r by lia; reflexivity).
  assert (Hpos : 0 < 2 ^ k) by (apply Z.pow_pos_nonneg; lia).
  assert (Hdiv : m0 / 2 ^ (k + 1) = q / 2)
    by (rewrite Hpow, <- Z.div_div by lia; now rewrite Hq).
  assert (Hexact : m0 mod 2 ^ (k + 1) = 0 -> m0 mod 2 ^ k = 0 /\ q mod 2 = 0).
  { intros H0. rewrite Hpow in H0. rewrite Z.rem_mul_r in H0 by lia.
    assert (0 <= m0 mod 2 ^ k < 2 ^ k) by (apply Z.mod_pos_bound; lia).
    assert (0 <= (m0 / 2 ^ k) mod 2 < 2) by (apply Z.mod_pos_bound; lia).
    rewrite Hq. nia. }
  unfold shifted. rewrite Hdiv.
  assert (Hq0 : 0 <= q) by (rewrite Hq; apply Z.div_pos; lia).
  destruct q as [|[p|p|]|p]; cbn [shr_1 shr_m shr_r shr_s]; try lia.
  - split; [reflexivity|]. intros H0. destruct (Hexact H0) as [H1 _].
    destruct (Hex H1) as [-> ->]. now split.
  - split; [rewrite Pos2Z.inj_xI; apply Z.div_unique with 1; lia|].
    intros H0. destruct (Hexact H0) as [_ H2]. exfalso.
    rewrite Pos2Z.inj_xI in H2.
    rewrite Z.add_comm, Z.mul_comm, Z.mod_add in H2 by lia. discriminate H2.
  - split; [rewrite Pos2Z.inj_xO; apply Z.div_unique with 0; lia|].
    intros H0. destruct (Hexact H0) as [H1 _].
    destruct (Hex H1) as [-> ->]. now split.
  - split; [reflexivity|]. intros H0. destruct (Hexact H0) as [_ H2]. discriminate H2.
Qed.

Lemma iter_pos_shifted (m0 : Z) (p : positive) :
  0 <= m0 ->
  forall (k : Z) (mrs : shr_record), 0 <= k -> shifted m0 k mrs ->
  shifted m0 (k + Zpos p) (iter_pos shr_1 p mrs).
Proof.
  intros Hm. induction p as [p IH|p IH|]; intros k mrs Hk H; cbn [iter_pos].
  - replace (k + Zpos p~1) with (k + 1 + Zpos p + Zpos p) by lia.
    apply IH; [lia|]. apply IH; [lia|]. now apply shr_1_shifted.
  - replace (k + Zpos p~0) with (k + Zpos p + Zpos p) by lia.
    apply IH; [lia|]. now apply IH.
  - now apply shr_1_shifted.
Qed.

Lemma round_nearest_even_cases (mrs : shr_record) :
  let r := round_nearest_even (shr_m mrs) (loc_of_shr_record mrs) in
  (r = shr_m mrs \/ r = shr_m mrs + 1)
  /\ (shr_r mrs = false /\ shr_s mrs = false -> r = shr_m mrs).
Proof.
  destruct mrs as [m [|] [|]]; cbn; try destruct (Z.even m); split; auto;
    intros [? ?]; discriminate.
Qed.

(** One "shift to the exponent of the format, then round" step
    keeps a non-negative number at most 100 at most 100. *)
Lemma shr_fexp_le_100 (mx ex : Z) :
  0 <= mx -> ex <= 0 -> mx <= 100 * 2 ^ (- ex) ->
  let '(mrs, e') := shr_fexp prec emax mx ex loc_Exact in
  let r := round_nearest_even (shr_m mrs) (loc_of_shr_record mrs) in
  0 <= shr_m mrs <= r /\ e' <= 0 /\ r <= 100 * 2 ^ (- e').
Proof.
  intros Hm He Hle. unfold shr_fexp, shr_record_of_loc, shr.
  destruct (fexp prec emax (Zdigits2 mx + ex) - ex) as [|n|n] eqn:Hn;
    cbn [shr_m loc_of_shr_record round_nearest_even].
  - lia.
  - assert (Hsh := iter_pos_shifted mx n Hm 0 (Build_shr_record mx false false)
                     (Z.le_refl 0)).
    rewrite Z.add_0_l in Hsh.
    assert (Hinit : shifted mx 0 (Build_shr_record mx false false)).
    { split; [cbn; now rewrite Z.div_1_r|]. intros _. now split. }
    specialize (Hsh Hinit). destruct Hsh as [Hq Hex].
    set (mrs := iter_pos shr_1 n (Build_shr_record mx false false)) in *.
    destruct (round_nearest_even_cases mrs) as [Hr Hr0]. cbv zeta in Hr, Hr0.
    set (r := round_nearest_even (shr_m mrs) (loc_of_shr_record mrs)) in *.
    assert (Hpn : 0 < 2 ^ Zpos n) by (apply Z.pow_pos_nonneg; lia).
    assert (Hq0 : 0 <= shr_m mrs) by (rewrite Hq; apply Z.div_pos; lia).
    (* the exponent reached *)
    assert (He' : ex + Zpos n <= -46).
    { assert (Hd : Zdigits2 mx + ex <= 7).
      { destruct mx as [|p|p]; [cbn; lia| |lia].
        cbn [Zdigits2]. pose proof (digits2_pos_bounds p) as [Hlo _].
        assert (H7 : 100 * 2 ^ (- ex) < 2 ^ (7 - ex)).
        { replace (7 - ex) with (7 + - ex) by lia.
          rewrite Z.pow_add_r by lia.
          assert (0 < 2 ^ (- ex)) by (apply Z.pow_pos_nonneg; lia).
          change (2 ^ 7) with 128. lia. }
        assert (Hlt : 2 ^ (Zpos (digits2_pos p) - 1) < 2 ^ (7 - ex)) by lia.
        apply Z.pow_lt_mono_r_iff in Hlt; lia. }
      unfold fexp, SpecFloat.emin, prec, emax in Hn. lia. }
    split; [lia|]. split; [lia|].
    assert (Hsplit : 2 ^ (- ex) = 2 ^ (- (ex + Zpos n)) * 2 ^ Zpos n).
    { rewrite <- Z.pow_add_r by lia. f_equal. lia. }
    set (P := 2 ^ (- (ex + Zpos n))) in *.
    assert (HP : 0 < P) by (apply Z.pow_pos_nonneg; lia).
    destruct (Z.eq_dec (mx mod 2 ^ Zpos n) 0) as [H0|H0].
    + rewrite (Hr0 (Hex H0)). rewrite Hq.
      apply Z.div_le_upper_bound; [lia|]. lia.
    + assert (Hlt : shr_m mrs < 100 * P).
      { rewrite Hq. apply Z.div_lt_upper_bound; [lia|].
        assert (Hne : mx <> 2 ^ Zpos n * (100 * P)).
        { intros ->. apply H0. rewrite Z.mul_comm. apply Z.mod_mul. lia. }
        lia. }
      lia.
  - lia.
Qed.

Lemma binary_round_aux_le_100 (mx ex : Z) :
  0 <= mx -> ex <= 0 -> mx <= 100 * 2 ^ (- ex) ->
  binary_round_aux prec emax false mx ex loc_Exact = S754_zero false
  \/ exists m' e',
       binary_round_aux prec emax false mx ex loc_Exact = S754_finite false m' e'
       /\ e' <= 0 /\ Zpos m' <= 100 * 2 ^ (- e').
Proof.
  intros Hm He Hle. unfold binary_round_aux.
  pose proof (shr_fexp_le_100 mx ex Hm He Hle) as H1.
  destruct (shr_fexp prec emax mx ex loc_Exact) as [mrs1 e1]. cbv zeta in H1.
  set (r1 := round_nearest_even (shr_m mrs1) (loc_of_shr_record mrs1)) in *.
  destruct H1 as (Hr1 & He1 & Hle1).
  assert (Hr1' : 0 <= r1) by lia.
  pose proof (shr_fexp_le_100 r1 e1 Hr1' He1 Hle1) as H2.
  destruct (shr_fexp prec emax r1 e1 loc_Exact) as [mrs2 e2]. cbv zeta in H2.
  destruct H2 as (Hr2 & He2 & Hle2).
  destruct (shr_m mrs2) as [|m2|m2]; [now left| |lia].
  right. exists m2, e2.
  assert (Hb : (e2 <=? emax - prec) = true) by (apply Z.leb_le; unfold emax, prec; lia).
  rewrite Hb. repeat split; [exact He2|lia].
Qed.

(** A double between 0 and 1, as a fraction. *)
Lemma unit_interval (c : float) :
  (0 <=? c)%float = true -> (c <=? 1)%float = true ->
  (exists s, Prim2SF c = S754_zero s)
  \/ exists m e, Prim2SF c = S754_finite false m e /\ e < 0 /\ Zpos m <= 2 ^ (- e).
Proof.
  rewrite !leb_spec. intros H0 H1.
  change (Prim2SF 0) with (S754_zero false) in H0.
  change (Prim2SF 1) with (S754_finite false 4503599627370496 (-52)) in H1.
  pose proof (Prim2SF_valid c) as Hv.
  destruct (Prim2SF c) as [s|s| |s m e]; [left; now exists s| | |].
  - exfalso. destruct s; cbn in H0, H1; discriminate.
  - discriminate H0.
  - right. destruct s; [discriminate H0|]. exists m, e. split; [reflexivity|].
    apply valid_finite in Hv as [Hc _].
    pose proof (digits2_pos_bounds m) as [_ Hup].
    unfold SFleb, SFcompare in H1.
    change (Pos.compare_cont Eq) with Pos.compare in H1.
    rewrite Pos2Z.inj_compare in H1.
    destruct (Z.compare_spec e (-52)) as [->|Hlt|Hgt]; [| |discriminate H1].
    + split; [lia|]. change (2 ^ (- -52)) with 4503599627370496.
      destruct (Z.compare_spec (Zpos m) 4503599627370496); try discriminate H1; lia.
    + split; [lia|].
      assert (Hd : Zpos (digits2_pos m) <= 53) by lia.
      assert (2 ^ Zpos (digits2_pos m) <= 2 ^ (- e)) by (apply Z.pow_le_mono_r; lia).
      lia.
Qed.

Lemma SF64mul_finite (s1 s2 : bool) (m1 m2 : positive) (e1 e2 : Z) :
  SF64mul (S754_finite s1 m1 e1) (S754_finite s2 m2 e2)
  = binary_round_aux prec emax (xorb s1 s2) (Zpos (m1 * m2)) (e1 + e2) loc_Exact.
Proof. reflexivity. Qed.

Lemma mul_100_le_100 (c : float) :
  (0 <=? c)%float = true -> (c <=? 1)%float = true ->
  (exists s, Prim2SF (c * 100)%float = S754_zero s)
  \/ exists m e,
       Prim2SF (c * 100)%float = S754_finite false m e
       /\ e < 0 /\ Zpos m <= 100 * 2 ^ (- e).
Proof.
  intros H0 H1.
  pose proof (Prim2SF_valid (c * 100)%float) as Hv. rewrite mul_spec in *.
  change (Prim2SF 100) with (S754_finite false 7036874417766400 (-46)) in *.
  destruct (unit_interval c H0 H1) as [[s Hc]|(m & e & Hc & He & Hm)];
    rewrite Hc in *.
  - left. now exists (xorb s false).
  - rewrite SF64mul_finite in *. cbn [xorb] in *.
    assert (He46 : e + -46 <= 0) by (clear - He; lia).
    assert (Hprod : Zpos (m * 7036874417766400) <= 100 * 2 ^ (- (e + -46))).
    { rewrite Pos2Z.inj_mul.
      replace (- (e + -46)) with (- e + 46) by (clear; lia).
      rewrite Z.pow_add_r by (clear - He; lia). change (2 ^ 46) with 70368744177664.
      assert (HP : 0 < 2 ^ (- e)) by (apply Z.pow_pos_nonneg; clear - He; lia).
      clear - Hm HP. set (P := 2 ^ (- e)) in *. set (M := Zpos m) in *. nia. }
    destruct (binary_round_aux_le_100 (Zpos (m * 7036874417766400)) (e + -46)
                (Pos2Z.pos_is_nonneg _) He46 Hprod)
      as [Hz|(m' & e' & Heq & He' & Hm')].
    + left. exists false. exact Hz.
    + right. exists m', e'. split; [exact Heq|]. split; [|exact Hm'].
      rewrite Heq in Hv. apply valid_finite in Hv as [Hcan _].
      pose proof (digits2_pos_bounds m') as [Hlo _].
      clear - He' Hm' Hcan Hlo.
      destruct (Z.eq_dec e' 0) as [->|]; [|lia]. exfalso.
      change (2 ^ (- 0)) with 1 in Hm'.
      assert (Hd : Zpos (digits2_pos m') = 53) by lia.
      rewrite Hd in Hlo. change (2 ^ (53 - 1)) with 4503599627370496 in Hlo. lia.
Qed.


Lemma compare_leb (x y : float) :
  match (x ?= y)%float with
  | FLt => (x <=? y)%float = true /\ (y <=? x)%float = false
  | FEq => (x <=? y)%float = true /\ (y <=? x)%float = true
  | FGt => (y <=? x)%float = true /\ (x <=? y)%float = false
  | FNotComparable => (x <=? y)%float = false /\ (y <=? x)%float = false
  end.
Proof.
  rewrite compare_spec, !leb_spec. unfold SFleb.
  rewrite (SFcompare_antisym (Prim2SF x) (Prim2SF y)).
  destruct (SFcompare (Prim2SF x) (Prim2SF y)) as [[| |]|]; cbn; auto.
Qed.

Lemma leb_trans (x y z : float) :
  (x <=? y)%float = true -> (y <=? z)%float = true -> (x <=? z)%float = true.
Proof. rewrite !leb_spec. apply SFleb_trans. Qed.

Lemma eqb_leb (x y : float) :
  (x =? y)%float = true -> (x <=? y)%float = true /\ (y <=? x)%float = true.
Proof.
  rewrite eqb_spec, !leb_spec. unfold SFeqb, SFleb.
  rewrite (SFcompare_antisym (Prim2SF x) (Prim2SF y)).
  destruct (SFcompare (Prim2SF x) (Prim2SF y)) as [[| |]|]; cbn; auto; discriminate.
Qed.

Lemma ltb_leb (x y : float) :
  (x <? y)%float = true -> (x <=? y)%float = true /\ (y <=? x)%float = false.
Proof.
  rewrite ltb_spec, !leb_spec. unfold SFltb, SFleb.
  rewrite (SFcompare_antisym (Prim2SF x) (Prim2SF y)).
  destruct (SFcompare (Prim2SF x) (Prim2SF y)) as [[| |]|]; cbn; auto; discriminate.
Qed.

(** The clamp yields a number between 0 and 1, or [NaN]. *)
Lemma clamp_range (x : float) :
  is_nan (Binary64.ReadinessCalculator.clamp x) = true
  \/ ((0 <=? Binary64.ReadinessCalculator.clamp x)%float = true
      /\ (Binary64.ReadinessCalculator.clamp x <=? 1)%float = true).
Proof.
  unfold Binary64.ReadinessCalculator.clamp.
  assert (Hmin : Binary64.Math.min 1 x = nan
                 \/ (Binary64.Math.min 1 x <=? 1)%float = true).
  { unfold Binary64.Math.min. pose proof (compare_leb 1 x) as Hc.
    destruct (1 ?= x)%float; [| | |now left]; right.
    - change (get_sign 1) with false. cbv iota. apply Hc.
    - reflexivity.
    - apply Hc. }
  destruct Hmin as [-> | Hle]; [now left|].
  set (y := Binary64.Math.min 1 x) in *.
  unfold Binary64.Math.max. pose proof (compare_leb 0 y) as Hc.
  destruct (0 ?= y)%float; [| | |now left]; right.
  - change (get_sign 0) with false. cbv iota. now split.
  - split; [apply Hc|exact Hle].
  - now split.
Qed.

Lemma round_small (x : float) (m : positive) (e : Z) :
  Prim2SF x = S754_finite false m e -> e < 0 -> Zpos m <= 100 * 2 ^ (- e) ->
  exists z, 0 <= z <= 100
            /\ Binary64.Math.round x = if z =? 0 then zero else Binary64.of_Z z.
Proof.
  intros Hx He Hm. unfold Binary64.Math.round. rewrite Hx.
  destruct (Z.leb_spec 0 e) as [|_]; [lia|]. cbv zeta.
  assert (HP : 0 < 2 ^ (- e)) by (apply Z.pow_pos_nonneg; lia).
  set (P := 2 ^ (- e)) in *.
  exists ((Zpos m * 2 + P) / (2 * P)). split; [|reflexivity]. split.
  - apply Z.div_pos; lia.
  - assert ((Zpos m * 2 + P) / (2 * P) < 101); [|lia].
    apply Z.div_lt_upper_bound; lia.
Qed.

Lemma hundredths_in_unit (z : Z) :
  0 <= z <= 100 ->
  let r := ((if (z =? 0)%Z then zero else Binary64.of_Z z) / 100)%float in
  (0 <=? r)%float = true /\ (r <=? 1)%float = true.
Proof.
  intros Hz.
  assert (Hall : forallb
                   (fun k => let z := Z.of_nat k in
                             let r := ((if (z =? 0)%Z then zero else Binary64.of_Z z) / 100)%float in
                             (0 <=? r)%float && (r <=? 1)%float)
                   (seq 0 101) = true) by (vm_compute; reflexivity).
  rewrite forallb_forall in Hall.
  specialize (Hall (Z.to_nat z)). rewrite Z2Nat.id in Hall by lia.
  apply andb_prop. apply Hall. apply in_seq. lia.
Qed.

(** The two-decimal rounding keeps a number between 0 and 1 there. *)
Lemma round2_unit_interval (c : float) :
  (0 <=? c)%float = true -> (c <=? 1)%float = true ->
  (0 <=? Binary64.round2 c)%float = true /\ (Binary64.round2 c <=? 1)%float = true.
Proof.
  intros H0 H1. unfold Binary64.round2.
  destruct (mul_100_le_100 c H0 H1) as [[s Hz]|(m & e & Hx & He & Hm)].
  - assert (Hc : (c * 100)%float = SF2Prim (S754_zero s))
      by (rewrite <- Hz; symmetry; apply SF2Prim_Prim2SF).
    unfold Binary64.Math.round. rewrite Hz, Hc.
    destruct s; vm_compute; now split.
  - destruct (round_small _ m e Hx He Hm) as (z & Hz & ->).
    exact (hundredths_in_unit z Hz).
Qed.

End Doubles.

Section ReadinessTiers.

Import PrimFloat FloatOps FloatAxioms SpecFloat.
Import Binary64 Binary64.ReadinessCalculator.
#[local] Set Warnings "-inexact-float".

Lemma calculate_fields64 (th : Thresholds) (state : State) (now : float) :
  score (calculate th state now) = round2 (clamped_score th state now)
  /\ tier (calculate th state now)
     = tier_of (nullish (tier1_min th) 0.70) (nullish (tier2_min th) 0.45)
         (clamped_score th state now).
Proof.
  unfold calculate, clamped_score.
  destruct (accumulate _ state now) as [[u r] p]. split; reflexivity.
Qed.

Lemma tier_of_antitone64 (t1 t2 x y : float) :
  (x <=? y)%float = true -> (tier_of t1 t2 y <= tier_of t1 t2 x)%nat.
Proof.
  intros Hxy. unfold tier_of, ge.
  destruct (t1 <=? x)%float eqn:H1x.
  - now rewrite (leb_trans _ _ _ H1x Hxy).
  - destruct (t2 <=? x)%float eqn:H2x.
    + rewrite (leb_trans _ _ _ H2x Hxy). destruct (t1 <=? y)%float; lia.
    + destruct (t1 <=? y)%float; [lia|]. destruct (t2 <=? y)%float; lia.
Qed.

(** C6. For all thresholds and session states, every number being the
    double it is at run time, [calculate] returns a tier among 0, 1, 2 and
    as [score] the two-decimal rounding of the clamped sum [c].  [c] lies
    in [[0,1]] unless it is [NaN], and then so does the returned [score].
    The thresholds are applied to [c], not to the returned [score]:
    [c >= tier1_min] (in particular [c] equal to [tier1_min]) gives tier
    0, [tier2_min <= c < tier1_min] gives tier 1, anything else tier 2,
    and under the same thresholds the tier never increases when [c]
    does. *)
Theorem calculate_score_tier (th : Thresholds) (state : State) (now : float) :
  let r := calculate th state now in
  let c := clamped_score th state now in
  let tier1Min := nullish (tier1_min th) 0.70 in
  let tier2Min := nullish (tier2_min th) 0.45 in
  (tier r = 0 \/ tier r = 1 \/ tier r = 2)%nat
  /\ score r = round2 c
  /\ (is_nan c = true \/ ((0 <=? c)%float = true /\ (c <=? 1)%float = true))
  /\ (is_nan c = false ->
      (0 <=? score r)%float = true /\ (score r <=? 1)%float = true)
  /\ (tier r = 0%nat <-> (tier1Min <=? c)%float = true)
  /\ (tier r = 1%nat
      <-> (tier1Min <=? c)%float = false /\ (tier2Min <=? c)%float = true)
  /\ (tier r = 2%nat
      <-> (tier1Min <=? c)%float = false /\ (tier2Min <=? c)%float = false)
  /\ ((c =? tier1Min)%float = true -> tier r = 0%nat)
  /\ ((tier2Min <=? c)%float = true -> (c <? tier1Min)%float = true -> tier r = 1%nat)
  /\ ((tier2Min <=? tier1Min)%float = true -> (c <? tier2Min)%float = true ->
      tier r = 2%nat)
  /\ (forall state' now',
        (c <=? clamped_score th state' now')%float = true ->
        (tier (calculate th state' now') <= tier r)%nat).
Proof.
  intros r c tier1Min tier2Min.
  destruct (calculate_fields64 th state now) as [Hscore Htier].
  fold r c tier1Min tier2Min in Hscore, Htier.
  assert (Hrange : is_nan c = true
                   \/ ((0 <=? c)%float = true /\ (c <=? 1)%float = true))
    by apply clamp_range.
  rewrite Htier, Hscore. unfold tier_of, ge.
  split; [destruct (tier1Min <=? c)%float, (tier2Min <=? c)%float; auto|].
  split; [reflexivity|]. split; [exact Hrange|].
  split.
  { intros Hnan. destruct Hrange as [Hn|[H0 H1]]; [congruence|].
    now apply round2_unit_interval. }
  split; [destruct (tier1Min <=? c)%float, (tier2Min <=? c)%float;
          split; try discriminate; auto; intros Hd; discriminate Hd|].
  split; [destruct (tier1Min <=? c)%float, (tier2Min <=? c)%float;
          split; try discriminate; auto; intros [? ?]; discriminate|].
  split; [destruct (tier1Min <=? c)%float, (tier2Min <=? c)%float;
          split; try discriminate; auto; intros [? ?]; discriminate|].
  split.
  { intros Heq. apply eqb_leb in Heq as [_ Hle]. now rewrite Hle. }
  split.
  { intros H2 Hlt. apply ltb_leb in Hlt as [_ Hn]. now rewrite Hn, H2. }
  split.
  { intros H21 Hlt. apply ltb_leb in Hlt as [_ Hn].
    destruct (tier1Min <=? c)%float eqn:H1.
    - now rewrite (leb_trans _ _ _ H21 H1) in Hn.
    - now rewrite Hn. }
  intros state' now' Hle.
  destruct (calculate_fields64 th state' now') as [_ Htier'].
  rewrite Htier'. fold tier1Min tier2Min.
  exact (tier_of_antitone64 tier1Min tier2Min c _ Hle).
Qed.

End ReadinessTiers.

Section ReadinessInstances.

Import PrimFloat.
#[local] Set Warnings "-inexact-float".

Lemma calculate_score_tier_witness :
  (Binary64.ReadinessCalculator.clamped_score boundary_thresholds files_only_state 121000
   =? 0.70)%float = true
  /\ Binary64.ReadinessCalculator.tier
       (Binary64.ReadinessCalculator.calculate boundary_thresholds files_only_state 121000)
     = 0%nat
  /\ (0 <=? Binary64.ReadinessCalculator.score
              (Binary64.ReadinessCalculator.calculate boundary_thresholds
                 files_only_state 121000))%float = true
  /\ (Binary64.ReadinessCalculator.score
        (Binary64.ReadinessCalculator.calculate boundary_thresholds
           files_only_state 121000) <=? 1)%float = true.
Proof.
  destruct (calculate_score_tier boundary_thresholds files_only_state 121000)
    as (_ & _ & _ & Hscore & _ & _ & _ & Hboundary & _).
  assert (Heq : (Binary64.ReadinessCalculator.clamped_score boundary_thresholds
                   files_only_state 121000 =? 0.70)%float = true)
    by (vm_compute; reflexivity).
  split; [exact Heq|]. split; [exact (Hboundary Heq)|].
  apply Hscore. vm_compute. reflexivity.
Defined.

(** Under the default policy a returned score can sit on a threshold
    while the tier is the one below it: 0.70 comes with tier 1 when the
    sum is 0.6967 before rounding, and 0.45 with tier 2 when the doubles
    0.35 and 0.10 add up to 0.44999999999999996. *)
Lemma returned_score_on_threshold :
  Binary64.nullish
    (Binary64.ReadinessCalculator.tier1_min
       (thresholds64 (PolicyLoader.getNudgeThresholds
                        (Some PolicyLoader.getFallbackPolicy)))) 0.70
  = 0.70%float
  /\ Binary64.nullish
       (Binary64.ReadinessCalculator.tier2_min
          (thresholds64 (PolicyLoader.getNudgeThresholds
                           (Some PolicyLoader.getFallbackPolicy)))) 0.45
     = 0.45%float
  /\ Binary64.ReadinessCalculator.score
       (calculate64 (Some PolicyLoader.getFallbackPolicy) near_ready_state 121000)
     = 0.70%float
  /\ Binary64.ReadinessCalculator.tier
       (calculate64 (Some PolicyLoader.getFallbackPolicy) near_ready_state 121000)
     = 1%nat
  /\ Binary64.ReadinessCalculator.score
       (calculate64 (Some PolicyLoader.getFallbackPolicy) files_conversation_state 121000)
     = 0.45%float
  /\ Binary64.ReadinessCalculator.tier
       (calculate64 (Some PolicyLoader.getFallbackPolicy) files_conversation_state 121000)
     = 2%nat.
Proof. vm_compute. repeat split. Qed.

(** Scenarios A and B of the specification, on doubles. *)
Example scenario_A_doubles :
  Binary64.ReadinessCalculator.score
    (calculate64 (Some PolicyLoader.getFallbackPolicy) demo_state 6000) = 0%float
  /\ Binary64.ReadinessCalculator.tier
       (calculate64 (Some PolicyLoader.getFallbackPolicy) demo_state 6000) = 2%nat.
Proof. vm_compute. split; reflexivity. Qed.

Example scenario_B_doubles :
  Binary64.ReadinessCalculator.score
    (calculate64 (Some PolicyLoader.getFallbackPolicy) reviewed_state 121000) = 1%float
  /\ Binary64.ReadinessCalculator.tier
       (calculate64 (Some PolicyLoader.getFallbackPolicy) reviewed_state 121000) = 0%nat.
Proof. vm_compute. split; reflexivity. Qed.

End ReadinessInstances.

(** * Further properties of the code *)

(** ** SessionStateStore: visits, persistence *)

Section SessionStore.

Import StateManager.

Lemma includes_In (x : string) (l : list string) : includes x l = true <-> In x l.
Proof.
  unfold includes. rewrite existsb_exists. split.
  - intros (y & Hy & Heq). apply String.eqb_eq in Heq. now subst.
  - intros Hin. exists x. split; [exact Hin|apply String.eqb_refl].
Qed.

(** X1. [recordTabView] records a visit once: afterwards the tab is in
    [tabsViewed], a list without duplicates stays without duplicates, the
    list is either unchanged or extended by the tab at its end, and
    recording the same tab again changes nothing at all, neither the
    live state nor the store. *)
Theorem recordTabView_once (m : StateManager.t) (s : store) (now later : Z)
    (tab : string) (st : SessionState) :
  currentState m = Some st ->
  (exists st1,
      currentState (fst (recordTabView m s now tab)) = Some st1
      /\ includes tab (tabsViewed st1) = true
      /\ (tabsViewed st1 = tabsViewed st \/ tabsViewed st1 = tabsViewed st ++ [tab])
      /\ (List.NoDup (tabsViewed st) -> List.NoDup (tabsViewed st1)))
  /\ recordTabView (fst (recordTabView m s now tab)) (snd (recordTabView m s now tab))
       later tab
     = recordTabView m s now tab.
Proof.
  intros Hst.
  destruct (includes tab (tabsViewed st)) eqn:Hinc.
  - assert (Hr : recordTabView m s now tab = (m, s))
      by (unfold recordTabView; now rewrite Hst, Hinc).
    rewrite Hr. simpl. split.
    + exists st. repeat split; auto.
    + unfold recordTabView. rewrite Hst, Hinc. reflexivity.
  - set (st' := set_tabsViewed (tabsViewed st ++ [tab]) st).
    assert (Hr : recordTabView m s now tab
                 = save (set_currentState (Some st') m) s now)
      by (unfold recordTabView; now rewrite Hst, Hinc).
    rewrite Hr.
    destruct (save_currentState (set_currentState (Some st') m) s now st' eq_refl)
      as [la Hla].
    assert (Hinc' : includes tab (tabsViewed st ++ [tab]) = true).
    { apply includes_In, in_or_app. right. now left. }
    split.
    + exists (set_lastActive la st'). split; [exact Hla|]. simpl.
      split; [exact Hinc'|]. split; [now right|].
      intros Hnd. apply List.NoDup_app.
      * exact Hnd.
      * repeat constructor. intros [].
      * intros x Hx [<-|[]]. apply includes_In in Hx. congruence.
    + unfold recordTabView. rewrite Hla. simpl. rewrite Hinc'.
      now destruct (save (set_currentState (Some st') m) s now).
Qed.

(** X2. What [save] persists is what a later [initialize] for the same
    pull request restores: the whole session state comes back, with only
    the session identifier and [lastActive] renewed; a stored state with
    another version tag is discarded for a fresh one. *)
Theorem save_then_initialize (m m0 : StateManager.t) (s : store) (now later : Z)
    (info : PRInfo) (st : SessionState) :
  currentState m = Some st ->
  sm_prId m = Some (pi_owner info +:+ "/" +:+ pi_repo info +:+ "/"
                      +:+ pretty (pi_prNumber info)) ->
  JS.truthy (prId st) = true ->
  (version st = "1.0.0" ->
   currentState (fst (initialize m0 (snd (save m s now)) later (Some info)))
   = Some (set_lastActive later (set_sessionId (sm_sessionId m0) st)))
  /\ (version st <> "1.0.0" ->
      currentState (fst (initialize m0 (snd (save m s now)) later (Some info)))
      = Some (createFreshState
                (mk (sm_sessionId m0) (currentState m0)
                   (Some (pi_owner info +:+ "/" +:+ pi_repo info +:+ "/"
                            +:+ pretty (pi_prNumber info))))
                later info)).
Proof.
  intros Hst Hpr Hid.
  set (pr := pi_owner info +:+ "/" +:+ pi_repo info +:+ "/"
               +:+ pretty (pi_prNumber info)) in *.
  assert (Htruthy : JS.truthy pr = true).
  { subst pr. destruct (pi_owner info); reflexivity. }
  assert (Hsaved : snd (save m s now) !! state_key pr
                   = Some (SState (set_lastActive now st))).
  { unfold save. rewrite Hst, Hpr, Htruthy. simpl. apply lookup_insert_eq. }
  split; intros Hver.
  - unfold initialize. fold pr. rewrite Hsaved.
    assert (Hvalid : isValidState (SState (set_lastActive now st)) = true).
    { simpl. rewrite Hid, Hver. reflexivity. }
    rewrite Hvalid. unfold save. simpl. rewrite Htruthy. simpl.
    now destruct st.
  - unfold initialize. fold pr. rewrite Hsaved.
    assert (Hinvalid : isValidState (SState (set_lastActive now st)) = false).
    { simpl. rewrite Hid. simpl. apply String.eqb_neq. exact Hver. }
    rewrite Hinvalid. unfold save. simpl. rewrite Htruthy. simpl. reflexivity.
Qed.

End SessionStore.

(** ** CooldownRegistry: proactive window, clearing, cleanup *)

Section CooldownMaintenance.

Import CooldownManager.

Lemma proactive_key_inj (a b : string) : proactive_key a = proactive_key b -> a = b.
Proof. apply append_inj_r. Qed.

(** X3. Once the proactive nudge is recorded as shown at [shownAt] it is
    due again exactly when more than the configured window (600000 ms
    when the policy gives none, or gives 0) has elapsed; recording it for
    another pull request, or recording a pre-merge nudge or a review,
    does not change the answer. *)
Theorem proactive_window (policy : option Policy) (s : store) (shownAt now : Z)
    (pr : string) (score : Q) :
  shouldShowProactiveNudge policy (recordProactiveNudge s shownAt pr score) now pr
    = (JS.or_default (proactive_nudge_ms (getCooldowns policy)) 600000
         <? now - shownAt)
  /\ (forall other t sc, other <> pr ->
        shouldShowProactiveNudge policy (recordProactiveNudge s t other sc) now pr
        = shouldShowProactiveNudge policy s now pr)
  /\ (forall other t tier action,
        shouldShowProactiveNudge policy (recordPremergeNudge s t other tier action) now pr
        = shouldShowProactiveNudge policy s now pr)
  /\ (forall other t,
        shouldShowProactiveNudge policy (recordReview s t other) now pr
        = shouldShowProactiveNudge policy s now pr).
Proof.
  unfold shouldShowProactiveNudge, recordProactiveNudge, recordPremergeNudge,
    recordReview.
  split; [now rewrite lookup_insert_eq|].
  split; [|split].
  - intros other t sc Hne.
    rewrite lookup_insert_ne; [reflexivity|].
    intros Heq. apply proactive_key_inj in Heq. congruence.
  - intros other t tier action. rewrite lookup_insert_ne; [reflexivity|discriminate].
  - intros other t. rewrite lookup_insert_ne; [reflexivity|discriminate].
Qed.

(** X4. [clearForPR] makes both nudges due again for the pull request,
    leaves the answers for every other pull request as they were, and
    does not touch allow tokens: a token that was valid stays valid. *)
Theorem clearForPR_resets (policy : option Policy) (s : store) (now : Z) (pr : string) :
  shouldShowProactiveNudge policy (clearForPR s pr) now pr = true
  /\ shouldShowPremergeNudge (clearForPR s pr) pr = true
  /\ (forall other, other <> pr ->
        shouldShowProactiveNudge policy (clearForPR s pr) now other
        = shouldShowProactiveNudge policy s now other
        /\ shouldShowPremergeNudge (clearForPR s pr) other
           = shouldShowPremergeNudge s other)
  /\ (forall anyPr el,
        hasValidToken (clearForPR s pr) now anyPr el = hasValidToken s now anyPr el).
Proof.
  unfold clearForPR. split; [|split; [|split]].
  - unfold shouldShowProactiveNudge.
    rewrite lookup_delete_ne by discriminate.
    rewrite lookup_delete_ne by discriminate.
    now rewrite lookup_delete_eq.
  - unfold shouldShowPremergeNudge.
    rewrite lookup_delete_ne by discriminate.
    now rewrite lookup_delete_eq.
  - intros other Hne. split.
    + unfold shouldShowProactiveNudge.
      rewrite lookup_delete_ne by discriminate.
      rewrite lookup_delete_ne by discriminate.
      rewrite lookup_delete_ne; [reflexivity|].
      intros Heq. apply proactive_key_inj in Heq. congruence.
    + unfold shouldShowPremergeNudge.
      rewrite !(lookup_delete_ne _ (review_key pr))
        by (first [discriminate
                  |intros Heq; apply review_key_inj in Heq; congruence]).
      rewrite !(lookup_delete_ne _ (premerge_key pr))
        by (first [discriminate
                  |intros Heq; apply premerge_key_inj in Heq; congruence]).
      rewrite !(lookup_delete_ne _ (proactive_key pr)) by discriminate.
      reflexivity.
  - intros anyPr el. unfold hasValidToken.
    rewrite !lookup_delete_ne by discriminate. reflexivity.
Qed.

(** X5. [cleanup] removes exactly the entries it finds expired: it keeps
    every key outside the nudge and token families (session states,
    review stamps, the log, the custom policy), keeps every entry whose
    age limit is missing from the policy, and, with a positive token TTL
    configured, never removes an allow token that is still valid. *)
Theorem cleanup_removes_expired_only (policy : option Policy) (s : store) (now : Z) :
  (forall key value,
      fst (cleanup policy s now) !! key = Some value
      <-> s !! key = Some value
          /\ expired (getCooldowns policy) now key value = false)
  /\ (forall key value,
        s !! key = Some value ->
        JS.startsWith "nudge_" key = false ->
        JS.startsWith "allow_token_" key = false ->
        fst (cleanup policy s now) !! key = Some value)
  /\ (forall key value,
        s !! key = Some value ->
        maxAge (getCooldowns policy) key = None ->
        fst (cleanup policy s now) !! key = Some value)
  /\ (forall pr el ttl,
        token_ttl_ms (getCooldowns policy) = Some ttl ->
        0 < ttl ->
        hasValidToken (createAllowToken policy s now pr el) now pr el = true
        /\ forall later,
             hasValidToken (createAllowToken policy s now pr el) later pr el = true ->
             hasValidToken
               (fst (cleanup policy (createAllowToken policy s now pr el) later))
               later pr el = true).
Proof.
  assert (Hchar : forall key value,
             fst (cleanup policy s now) !! key = Some value
             <-> s !! key = Some value
                 /\ expired (getCooldowns policy) now key value = false).
  { intros key value. unfold cleanup. simpl.
    rewrite map_lookup_filter_Some. reflexivity. }
  split; [exact Hchar|]. split; [|split].
  - intros key value Hget Hn Ht. apply Hchar. split; [exact Hget|].
    unfold expired. now rewrite Hn, Ht.
  - intros key value Hget Hage. apply Hchar. split; [exact Hget|].
    unfold expired. rewrite Hage.
    destruct (negb _ && negb _); [reflexivity|].
    destruct (timestamp_of value); reflexivity.
  - intros pr el ttl Httl Hpos.
    assert (Hd : JS.or_default (Some ttl) 5000 = ttl).
    { unfold JS.or_default. destruct (Z.eqb_spec ttl 0); [lia|reflexivity]. }
    split.
    + rewrite (hasValidToken_token _ _ _ _ _ (createAllowToken_lookup _ _ _ _ _)).
      rewrite Httl, Hd. simpl. apply Z.leb_le. lia.
    + intros later Hvalid.
      set (s1 := createAllowToken policy s now pr el) in *.
      pose proof (createAllowToken_lookup policy s now pr el) as Hget.
      fold s1 in Hget. rewrite Httl, Hd in Hget.
      rewrite (hasValidToken_token _ _ _ _ _ Hget) in Hvalid.
      simpl in Hvalid. apply Z.leb_le in Hvalid.
      assert (Hkept : fst (cleanup policy s1 later) !! token_key pr el
                      = Some (SToken (mkAllowToken now ttl false))).
      { unfold cleanup. simpl. apply map_lookup_filter_Some. split; [exact Hget|].
        simpl. unfold expired, maxAge. simpl. rewrite Httl.
        apply Z.ltb_ge. lia. }
      rewrite (hasValidToken_token _ _ _ _ _ Hkept). simpl.
      apply Z.leb_le. exact Hvalid.
Qed.

End CooldownMaintenance.

(** ** Event log: ring buffer, reading back, redaction *)

Section EventLog.

Import Logger.

Lemma evict_drop (size : nat) (buffer : list LogEvent) :
  evict size buffer = drop (length buffer - size) buffer.
Proof.
  induction buffer as [|x buffer IH]; [reflexivity|].
  cbn [evict length].
  destruct (Nat.ltb_spec size (S (length buffer))) as [Hlt|Hge].
  - rewrite IH. replace (S (length buffer) - size)%nat
      with (S (length buffer - size)) by lia. reflexivity.
  - replace (S (length buffer) - size)%nat with 0%nat by lia. reflexivity.
Qed.

Lemma log_buffer (lg : Logger.t) (s : store) (now : Z) (eventType : string)
    (payload : Payload) :
  read_buffer (snd (log lg s now eventType payload))
  = evict (BUFFER_SIZE lg) (read_buffer s ++ [fst (log lg s now eventType payload)]).
Proof.
  unfold log, read_buffer. simpl. now rewrite lookup_insert_eq.
Qed.

(** X6. The log is a ring buffer: after [log] the persisted buffer is
    the last [BUFFER_SIZE] entries of the old buffer followed by the new
    event, in their order, so it never holds more than [BUFFER_SIZE]
    entries; below the bound nothing is dropped; no other key of the
    store is written. *)
Theorem log_keeps_most_recent (lg : Logger.t) (s : store) (now : Z)
    (eventType : string) (payload : Payload) :
  let event := fst (log lg s now eventType payload) in
  let after := snd (log lg s now eventType payload) in
  read_buffer after
    = drop (length (read_buffer s ++ [event]) - BUFFER_SIZE lg) (read_buffer s ++ [event])
  /\ (length (read_buffer after) <= BUFFER_SIZE lg)%nat
  /\ ((length (read_buffer s) < BUFFER_SIZE lg)%nat ->
      read_buffer after = read_buffer s ++ [event])
  /\ (forall key, key <> "event_buffer" -> after !! key = s !! key).
Proof.
  intros event after. subst event after.
  rewrite log_buffer. split; [apply evict_drop|].
  split; [apply evict_length|]. split.
  - intros Hlt. rewrite evict_drop, length_app. simpl.
    replace (length (read_buffer s) + 1 - BUFFER_SIZE lg)%nat with 0%nat by lia.
    reflexivity.
  - intros key Hne. unfold log. simpl. now rewrite lookup_insert_ne.
Qed.

(** X7. [getRecent(count)] returns the last [count] events for a
    positive count, and never more than [count] of them; asked for zero
    events it returns the whole buffer, because [slice(-0)] starts at the
    beginning. *)
Theorem getRecent_counts (s : store) (count : Z) :
  (count = 0 -> getRecent s count = read_buffer s)
  /\ (0 < count ->
      getRecent s count
        = drop (length (read_buffer s) - Z.to_nat count) (read_buffer s)
      /\ Z.of_nat (length (getRecent s count)) <= count).
Proof.
  unfold getRecent, slice_from. split.
  - intros ->. change (- 0) with 0. cbn [Z.ltb Z.compare].
    rewrite Z.min_l by lia. reflexivity.
  - intros Hpos.
    destruct (Z.ltb_spec (- count) 0) as [_|Hge]; [|lia].
    assert (Hfrom : Z.to_nat (Z.max (Z.of_nat (length (read_buffer s)) + - count) 0)
                    = (length (read_buffer s) - Z.to_nat count)%nat) by lia.
    rewrite Hfrom. split; [reflexivity|].
    rewrite length_drop. lia.
Qed.

Lemma string_length_append (a b : string) :
  String.length (a +:+ b) = (String.length a + String.length b)%nat.
Proof.
  induction a as [|c a IH]; [reflexivity|].
  change (S (String.length (a +:+ b)) = S (String.length a + String.length b)).
  now rewrite IH.
Qed.

Lemma substring0_append (a b : string) :
  JS.substring0 (String.length a) (a +:+ b) = a.
Proof.
  unfold JS.substring0. induction a as [|c a IH].
  - destruct b; reflexivity.
  - change (String c (substring 0 (String.length a) (a +:+ b)) = String c a).
    now rewrite IH.
Qed.

Lemma truncate_idempotent (v : JValue) : truncate (truncate v) = truncate v.
Proof.
  destruct v as [| | |str| |]; try reflexivity.
  assert (Hm : String.length truncation_marker = 15%nat) by reflexivity.
  unfold truncate at 2 3.
  destruct (Nat.ltb_spec 500 (String.length str)) as [Hlong|Hshort].
  - destruct (substring0_prefix 500 str ltac:(lia)) as [Hlen _].
    assert (Hsub : JS.substring0 500 (JS.substring0 500 str +:+ truncation_marker)
                   = JS.substring0 500 str).
    { pose proof (substring0_append (JS.substring0 500 str) truncation_marker) as H.
      now rewrite Hlen in H. }
    unfold truncate. rewrite string_length_append, Hlen.
    destruct (Nat.ltb_spec 500 (500 + String.length truncation_marker)) as [_|Hle];
      [now rewrite Hsub|lia].
  - unfold truncate.
    destruct (Nat.ltb_spec 500 (String.length str)); [lia|reflexivity].
Qed.

Lemma filter_map_fst {A} (f : string -> bool) (g : A -> A) (l : list (string * A)) :
  List.filter (fun kv => f (fst kv)) (map (fun kv => (fst kv, g (snd kv))) l)
  = map (fun kv => (fst kv, g (snd kv))) (List.filter (fun kv => f (fst kv)) l).
Proof.
  induction l as [|[k v] l IH]; simpl; [reflexivity|].
  destruct (f k); simpl; now rewrite IH.
Qed.

(** X8. Redaction is idempotent: redacting an already redacted payload
    changes nothing, so entries that pass through the logger again (or
    are re-imported) stay as they were; in particular a truncated string,
    marker included, is left alone by a second pass. *)
Theorem redact_idempotent (payload : Payload) :
  redact (redact payload) = redact payload.
Proof.
  rewrite !redact_eq.
  rewrite (filter_map_fst (fun k => negb (is_sensitive k)) truncate).
  rewrite filter_filter, map_map. simpl.
  rewrite (filter_ext _ (fun kv => negb (is_sensitive (fst kv))))
    by (intros kv; apply andb_diag).
  apply map_ext. intros [k v]. simpl. now rewrite truncate_idempotent.
Qed.

Lemma bundled_redact_eq (payload : Payload) :
  ContentScript.redact payload
  = map (fun kv => (fst kv, ContentScript.truncate (snd kv)))
        (List.filter (fun kv => negb (ContentScript.is_sensitive (fst kv))) payload).
Proof. unfold ContentScript.redact. now rewrite delete_fields_filter. Qed.

(** X9. The logger bundled into [content.js] redacts less than
    [src/utils/logger.js]: the keys it keeps are those of the module's
    redaction plus whatever top-level [patch_content], [file_content],
    [api_key] and [secret] entries the payload has, which it persists
    (cut to 500 units if longer) while the module's logger strips them. *)
Theorem bundled_logger_keeps_secrets (payload : Payload) :
  map fst (redact payload)
    = List.filter (fun k => negb (is_sensitive k))
        (map fst (ContentScript.redact payload))
  /\ (forall k v,
        In (k, v) payload ->
        In k ["patch_content"; "file_content"; "api_key"; "secret"] ->
        In (k, ContentScript.truncate v) (ContentScript.redact payload)
        /\ forall v', ~ In (k, v') (redact payload)).
Proof.
  split.
  - rewrite redact_eq, bundled_redact_eq, !map_map. simpl.
    induction payload as [|[k v] l IH]; [reflexivity|].
    cbn [List.filter fst].
    destruct (is_sensitive k) eqn:Hs.
    + cbn [negb]. destruct (negb (ContentScript.is_sensitive k)); cbn [map fst List.filter].
      * rewrite Hs. cbn [negb]. exact IH.
      * exact IH.
    + cbn [negb].
      assert (Hb : ContentScript.is_sensitive k = false).
      { unfold is_sensitive, sensitiveFields in Hs.
        unfold ContentScript.is_sensitive, ContentScript.sensitiveFields.
        cbn [existsb] in *.
        repeat (apply orb_false_iff in Hs; destruct Hs as [? Hs]).
        repeat (apply orb_false_iff; split); assumption. }
      rewrite Hb. cbn [negb map fst List.filter]. rewrite Hs. cbn [negb].
      now rewrite IH.
  - intros k v Hin Hk. split.
    + rewrite bundled_redact_eq. apply in_map_iff. exists (k, v). split; [reflexivity|].
      apply filter_In. split; [exact Hin|]. simpl.
      destruct Hk as [<-|[<-|[<-|[<-|[]]]]]; reflexivity.
    + intros v' Hin'. rewrite redact_eq in Hin'. apply in_map_iff in Hin'.
      destruct Hin' as [[k0 v0] [Heq Hf]]. simpl in Heq. injection Heq as <- _.
      apply filter_In in Hf. destruct Hf as [_ Hf]. simpl in Hf.
      destruct Hk as [<-|[<-|[<-|[<-|[]]]]]; discriminate.
Qed.

End EventLog.

(** ** PolicyStore: loading, replacing, matching *)

Section PolicyStore.

Import PolicyLoader.

(** X10. [load] never ends up with a custom policy that fails
    validation: a stored custom policy is used exactly when it validates,
    and otherwise, as when none is stored, the default is.  The result
    validates whenever the default does, and always when the packaged
    policy cannot be fetched, since the hard-coded fallback validates. *)
Theorem load_uses_valid_policy (s : store) (fetched : option Policy) :
  (forall c, customPolicy s = Some c ->
      load s fetched = if validate (Some c) then c else loadDefaultPolicy fetched)
  /\ (customPolicy s = None -> load s fetched = loadDefaultPolicy fetched)
  /\ (validate (Some (loadDefaultPolicy fetched)) = true ->
      validate (Some (load s fetched)) = true)
  /\ validate (Some (load s None)) = true.
Proof.
  assert (Hdef : validate (Some (loadDefaultPolicy fetched)) = true ->
                 validate (Some (load s fetched)) = true).
  { intros Hd. unfold load.
    destruct (customPolicy s) as [c|].
    - destruct (validate (Some c)) eqn:Hc; [exact Hc|exact Hd].
    - now rewrite Hd. }
  split; [|split; [|split]].
  - intros c Hc. unfold load. now rewrite Hc.
  - intros Hnone. unfold load. rewrite Hnone.
    destruct (validate (Some (loadDefaultPolicy fetched))); reflexivity.
  - exact Hdef.
  - unfold load. destruct (customPolicy s) as [c|].
    + destruct (validate (Some c)) eqn:Hc; [exact Hc|reflexivity].
    + reflexivity.
Qed.

(** X11. Replacing the policy round-trips through storage:
    [setCustomPolicy] stores a policy exactly when it validates (it
    throws otherwise and the store is left alone), and a following [load]
    returns that policy; after [resetToDefault] a [load] returns the
    default.  The options page stores whatever parses: its own check asks
    for three fields only, so a document without [kinds] passes it, is
    stored, and is then ignored by [load] in favour of the default. *)
Theorem custom_policy_round_trip (s : store) (fetched : option Policy) (p : Policy) :
  (validate (Some p) = true ->
     exists s', setCustomPolicy s p = Some s' /\ load s' fetched = p)
  /\ (validate (Some p) = false -> setCustomPolicy s p = None)
  /\ load (fst (resetToDefault s fetched)) fetched = loadDefaultPolicy fetched
  /\ load (OptionsPage.savePolicy s p) fetched
     = (if validate (Some p) then p else loadDefaultPolicy fetched)
  /\ validate (Some p)
     = OptionsPage.validatePolicy p
       && match checkpoint_matchers p with
          | Some cm => bool_decide (is_Some (kinds cm))
          | None => false
          end.
Proof.
  split; [|split; [|split; [|split]]].
  - intros Hv. unfold setCustomPolicy. rewrite Hv. eexists. split; [reflexivity|].
    unfold load, customPolicy. rewrite lookup_insert_eq. now rewrite Hv.
  - intros Hv. unfold setCustomPolicy. now rewrite Hv.
  - unfold resetToDefault, load, customPolicy. cbn [fst]. rewrite lookup_delete_eq.
    destruct (validate (Some (loadDefaultPolicy fetched))); reflexivity.
  - unfold OptionsPage.savePolicy, load, customPolicy. now rewrite lookup_insert_eq.
  - unfold validate, OptionsPage.validatePolicy.
    destruct (checkpoint_matchers p) as [cm|]; [|reflexivity].
    destruct (kinds cm), (nudge_thresholds p), (ui_templates p); reflexivity.
Qed.

Section Matching.

Variable RegExp_i : RegExpCtor.

Lemma assoc_In {A} (k : string) (l : list (string * A)) (v : A) :
  assoc k l = Some v -> In (k, v) l.
Proof.
  induction l as [|[k' v'] l IH]; simpl; [discriminate|].
  destruct (String.eqb_spec k k') as [->|Hne].
  - intros [= ->]. now left.
  - intros H. right. auto.
Qed.

Lemma In_assoc {A} (k : string) (l : list (string * A)) (v : A) :
  List.NoDup (map fst l) -> In (k, v) l -> assoc k l = Some v.
Proof.
  induction l as [|[k' v'] l IH]; simpl; [intros _ []|].
  intros Hnd Hin. inversion Hnd as [|? ? Hnotin Hnd']; subst.
  destruct (String.eqb_spec k k') as [->|Hne].
  - destruct Hin as [[= ->]|Hin]; [reflexivity|].
    exfalso. apply Hnotin. apply in_map_iff. now exists (k', v).
  - destruct Hin as [[= -> ->]|Hin]; [congruence|]. auto.
Qed.

(** X12. [matchesCheckpoint] and [classifyCheckpoint] agree: the kind a
    text classifies to is a kind the text matches, and a text classifies
    to no kind exactly when it matches none (kinds being the distinct
    keys of an object). *)
Theorem classify_agrees_with_matches (policy : option Policy)
    (entries : list (string * KindConfig)) (text : string) :
  policy_kinds policy = Some entries ->
  List.NoDup (map fst entries) ->
  (forall k, classifyCheckpoint RegExp_i policy text = Some k ->
             matchesCheckpoint RegExp_i policy text k = true)
  /\ (classifyCheckpoint RegExp_i policy text = None
      <-> forall k, matchesCheckpoint RegExp_i policy text k = false).
Proof.
  intros Hk Hnd. unfold classifyCheckpoint, matchesCheckpoint. rewrite Hk.
  split.
  - intros k Hc. apply classify_entries_first in Hc.
    destruct Hc as (before & config & after & Heq & Hm & _).
    rewrite (In_assoc k entries config Hnd)
      by (subst entries; apply in_or_app; right; now left).
    unfold kind_matches in Hm. simpl in Hm. now rewrite test_patterns_existsb.
  - rewrite classify_entries_find. split.
    + intros Hnone k. destruct (assoc k entries) as [config|] eqn:Ha; [|reflexivity].
      apply assoc_In in Ha. rewrite test_patterns_existsb.
      destruct (List.find (kind_matches RegExp_i text) entries) as [e|] eqn:Hf;
        [discriminate|].
      exact (find_none _ _ Hf (k, config) Ha).
    + intros Hall.
      destruct (List.find (kind_matches RegExp_i text) entries) as [[k config]|] eqn:Hf;
        [|reflexivity].
      apply find_some in Hf. destruct Hf as [Hin Hm].
      specialize (Hall k). rewrite (In_assoc k entries config Hnd Hin) in Hall.
      rewrite test_patterns_existsb in Hall. unfold kind_matches in Hm. simpl in Hm.
      congruence.
Qed.

End Matching.

End PolicyStore.

(** ** ReadinessScorer: breakdown, missing items, what counts *)

Section ReadinessDetails.

Import ReadinessCalculator.

(** X14. The two copies of [getMissingItems] agree on a live session,
    and they name exactly the items whose absence [calculate] reports:
    "Files changed" is listed iff the reasons contain [files_not_viewed],
    "Checks" iff they contain [checks_not_viewed]; nothing is missing iff
    the files tab was visited and the checks were seen. *)
Theorem missing_items_agree (m : StateManager.t) (policy : option Policy)
    (state : SessionState) (now : Z) :
  StateManager.currentState m = Some state ->
  StateManager.getMissingItems m = getMissingItems state
  /\ StateManager.includes "Files changed" (getMissingItems state)
     = StateManager.includes "files_not_viewed" (reasons (calculate policy state now))
  /\ StateManager.includes "Checks" (getMissingItems state)
     = StateManager.includes "checks_not_viewed" (reasons (calculate policy state now))
  /\ (getMissingItems state = []
      <-> StateManager.includes "files" (tabsViewed state) = true
          /\ checksViewed state = true).
Proof.
  intros Hst. split; [unfold StateManager.getMissingItems; now rewrite Hst|].
  unfold getMissingItems, calculate, accumulate.
  destruct (StateManager.includes "files" (tabsViewed state));
    destruct (checksViewed state);
    destruct (Qle_bool _ (Qmin _ 1 * _)%Q);
    destruct (Qle_bool 50 (diff_scroll_max_pct (diffMetrics state)));
    destruct (StateManager.includes "conversation" (tabsViewed state));
    destruct (_ <? _);
    (split; [reflexivity|]); (split; [reflexivity|]);
    (split; [intros H; first [discriminate H|now split]
            |intros [H1 H2]; first [discriminate H1|discriminate H2|reflexivity]]).
Qed.

Lemma includes_app_other (x tab : string) (l : list string) :
  tab <> x -> StateManager.includes x (l ++ [tab]) = StateManager.includes x l.
Proof.
  intros Hne. unfold StateManager.includes. rewrite existsb_app. simpl.
  destruct (String.eqb_spec x tab); [congruence|]. now rewrite !orb_false_r.
Qed.

(** X15. Only the "files" and "conversation" tabs count towards
    readiness: recording a visit to any other tab, in particular the
    "checks" name that [identifyTab] gives to the Checks and Commits
    tabs, leaves [checksViewed], the score, the tier and the reported
    signals exactly as they were. *)
Theorem other_tabs_do_not_count (m : StateManager.t) (s : store) (now : Z)
    (tab : string) (state : SessionState) (policy : option Policy) (at_time : Z) :
  StateManager.currentState m = Some state ->
  tab <> "files" -> tab <> "conversation" ->
  exists state1,
    StateManager.currentState (fst (StateManager.recordTabView m s now tab))
      = Some state1
    /\ checksViewed state1 = checksViewed state
    /\ score (calculate policy state1 at_time) = score (calculate policy state at_time)
    /\ tier (calculate policy state1 at_time) = tier (calculate policy state at_time)
    /\ reasons (calculate policy state1 at_time)
       = reasons (calculate policy state at_time)
    /\ positive (calculate policy state1 at_time)
       = positive (calculate policy state at_time).
Proof.
  intros Hst Hf Hc. unfold StateManager.recordTabView. rewrite Hst.
  destruct (StateManager.includes tab (tabsViewed state)).
  - exists state. simpl. repeat split; auto.
  - set (st' := StateManager.set_tabsViewed (tabsViewed state ++ [tab]) state).
    destruct (save_currentState (StateManager.set_currentState (Some st') m) s now st'
                eq_refl) as [la Hla].
    exists (StateManager.set_lastActive la st'). split; [exact Hla|].
    split; [reflexivity|].
    assert (Hacc : forall sg,
               accumulate sg (StateManager.set_lastActive la st') at_time
               = accumulate sg state at_time).
    { intros sg. unfold accumulate. simpl.
      rewrite !includes_app_other by assumption. reflexivity. }
    unfold calculate. rewrite Hacc.
    destruct (accumulate _ state at_time) as [[u r] p]. simpl.
    repeat split.
Qed.

(** What [identifyTab] can answer. *)
Lemma identifyTab_names (textContent ariaLabel href : option string) (name : string) :
  MetricsTracker.identifyTab textContent ariaLabel href = Some name ->
  name = "conversation" \/ name = "files" \/ name = "checks".
Proof.
  unfold MetricsTracker.identifyTab.
  repeat match goal with
         | |- context [if ?c then _ else _] => destruct c
         end; intros [= <-]; auto.
Qed.

(** X16. The Tier-2 dialog lists nothing as missing exactly when
    [calculate] reports no reason at all: every reason the calculator can
    produce has a line in [formatMissingItems]. *)
Theorem tier2_lists_every_reason (policy : option Policy) (state : SessionState)
    (now : Z) :
  Tier2Modal.formatMissingItems (reasons (calculate policy state now)) = None
  <-> reasons (calculate policy state now) = [].
Proof.
  unfold calculate, accumulate.
  destruct (StateManager.includes "files" (tabsViewed state));
    destruct (checksViewed state);
    destruct (Qle_bool _ (Qmin _ 1 * _)%Q);
    destruct (Qle_bool 50 (diff_scroll_max_pct (diffMetrics state)));
    destruct (StateManager.includes "conversation" (tabsViewed state));
    destruct (_ <? _);
    (split; intros H; first [discriminate H|reflexivity]).
Qed.

End ReadinessDetails.

(** ** Strings: trimming and case mapping *)

Section Strings.

Import JS.

Lemma is_space_upper (c : ascii) : is_space (upper_ascii c) = is_space c.
Proof. destruct c as [[] [] [] [] [] [] [] []]; reflexivity. Qed.

Lemma trimStart_upper (s : string) :
  trimStart (toUpperCase s) = toUpperCase (trimStart s).
Proof.
  induction s as [|c s IH]; [reflexivity|].
  cbn [toUpperCase map_string trimStart]. rewrite is_space_upper.
  destruct (is_space c); [exact IH|reflexivity].
Qed.

Lemma trimEnd_upper (s : string) :
  trimEnd (toUpperCase s) = toUpperCase (trimEnd s).
Proof.
  induction s as [|c s IH]; [reflexivity|].
  cbn [toUpperCase map_string trimEnd]. fold (toUpperCase s). rewrite IH.
  destruct (trimEnd s) as [|c' r'].
  - cbn [toUpperCase map_string]. rewrite is_space_upper.
    destruct (is_space c); reflexivity.
  - reflexivity.
Qed.

Lemma trim_upper (s : string) : trim (toUpperCase s) = toUpperCase (trim s).
Proof. unfold trim. now rewrite trimStart_upper, trimEnd_upper. Qed.

Lemma length_upper (s : string) : String.length (toUpperCase s) = String.length s.
Proof.
  unfold toUpperCase. induction s as [|c s IH]; [reflexivity|].
  simpl. now rewrite IH.
Qed.

Lemma trimStart_clean (s : string) : clean_start (trimStart s).
Proof.
  induction s as [|c s IH]; [exact I|].
  simpl. destruct (is_space c) eqn:Hc; [exact IH|exact Hc].
Qed.

Lemma trimStart_id (s : string) : clean_start s -> trimStart s = s.
Proof. destruct s as [|c s]; [reflexivity|]. simpl. now intros ->. Qed.

Lemma trimEnd_clean (s : string) : clean_start s -> clean_start (trimEnd s).
Proof.
  destruct s as [|c s]; [intros _; exact I|].
  simpl. intros Hc. rewrite Hc. destruct (trimEnd s); exact Hc.
Qed.

Lemma trimEnd_idempotent (s : string) : trimEnd (trimEnd s) = trimEnd s.
Proof.
  induction s as [|c s IH]; [reflexivity|].
  cbn [trimEnd]. destruct (trimEnd s) as [|c' r'] eqn:Hr.
  - destruct (is_space c) eqn:Hc; [reflexivity|].
    cbn [trimEnd]. now rewrite Hc.
  - cbn [trimEnd]. cbn [trimEnd] in IH. rewrite IH. reflexivity.
Qed.

Lemma trim_idempotent (s : string) : trim (trim s) = trim s.
Proof.
  unfold trim.
  rewrite (trimStart_id (trimEnd (trimStart s)))
    by apply trimEnd_clean, trimStart_clean.
  apply trimEnd_idempotent.
Qed.

Lemma trimStart_length (s : string) :
  (String.length (trimStart s) <= String.length s)%nat
  /\ (String.length (trimStart s) = String.length s -> trimStart s = s).
Proof.
  induction s as [|c s [IHle IHeq]]; [split; auto|].
  simpl. destruct (is_space c); simpl; split; auto; lia.
Qed.

Lemma trimEnd_length (s : string) :
  (String.length (trimEnd s) <= String.length s)%nat
  /\ (String.length (trimEnd s) = String.length s -> trimEnd s = s).
Proof.
  induction s as [|c s [IHle IHeq]]; [split; auto|].
  cbn [trimEnd]. destruct (trimEnd s) as [|c' r'] eqn:Hr.
  - destruct (is_space c); simpl in *; split; try lia.
    + intros Hl. assert (String.length s = 0%nat) by lia.
      destruct s; [reflexivity|discriminate].
  - simpl in *. split; [lia|]. intros Hl. f_equal. apply IHeq. lia.
Qed.

Lemma trim_same_length (s : string) :
  String.length (trim s) = String.length s -> trim s = s.
Proof.
  unfold trim. intros Hl.
  destruct (trimStart_length s) as [Hs1 Hs2].
  destruct (trimEnd_length (trimStart s)) as [He1 He2].
  rewrite He2 by lia. apply Hs2. lia.
Qed.

(** If some trimmed text equals [expected] up to letter case, then
    [expected] has no white space around it. *)
Lemma matched_text_is_trimmed (typed expected : string) :
  toUpperCase (trim typed) = toUpperCase expected -> trim expected = expected.
Proof.
  intros Heq. apply trim_same_length.
  rewrite <- (length_upper (trim expected)), <- trim_upper, <- Heq.
  rewrite trim_upper, trim_idempotent, Heq. apply length_upper.
Qed.

End Strings.

(** ** Confirmation dialogs: what can and cannot be completed *)

Section Dialogs.

Import Tier3Modal.

Lemma map_const_false {A} (l : list A) :
  map (fun _ => false) l = repeat false (length l).
Proof. induction l as [|x l IH]; [reflexivity|]. simpl. now rewrite IH. Qed.

Lemma alter_after_prefix (a : nat) (x : bool) (l : list bool) :
  alter negb a (repeat true a ++ x :: l) = repeat true a ++ negb x :: l.
Proof. induction a as [|a IH]; [reflexivity|]. simpl. f_equal. exact IH. Qed.

Lemma repeat_true_snoc (a : nat) (l : list bool) :
  repeat true a ++ true :: l = repeat true (S a) ++ l.
Proof. induction a as [|a IH]; [reflexivity|]. simpl. now rewrite IH. Qed.

Lemma drive_ticks (cfg : Config) (text : string) (rest : list event) :
  forall (b a : nat) (d : bool),
    exists d',
      drive (mkModal cfg (repeat true a ++ repeat false b) text d)
        (map ChangeCheckbox (seq a b) ++ rest)
      = drive (mkModal cfg (repeat true (a + b)) text d') rest.
Proof.
  induction b as [|b IH]; intros a d.
  - exists d. simpl. now rewrite app_nil_r, Nat.add_0_r.
  - cbn [seq map app drive step]. unfold validate. cbn [config checked textValue].
    cbn [repeat]. rewrite alter_after_prefix. cbn [negb].
    rewrite repeat_true_snoc.
    match goal with
    | |- context [mkModal cfg _ text ?d0] => destruct (IH (S a) d0) as [d' Hd']
    end.
    exists d'. rewrite Hd'. now rewrite Nat.add_succ_r.
Qed.

Lemma allChecked_repeat_true (cfg : Config) (n : nat) (text : string) (d : bool) :
  allChecked (mkModal cfg (repeat true n) text d) = true.
Proof.
  unfold allChecked. simpl. induction n as [|n IH]; [reflexivity|exact IH].
Qed.

(** X17. The Tier-3 dialog can be completed: for every template whose
    confirmation text has no white space around it, ticking each box
    once, typing the text and pressing the proceed button resolves the
    dialog to ['completed']. *)
Theorem tier3_can_be_completed (template : Tier3Template) (k method base : string) :
  let cfg := buildConfig template k method base in
  JS.trim (confirmationText cfg) = confirmationText cfg ->
  snd (drive (createModalElement cfg)
         (confirm_script (length (cfg_checklist cfg)) (confirmationText cfg)))
  = Some Completed.
Proof.
  intros cfg Htrim. unfold createModalElement, confirm_script.
  rewrite map_const_false.
  destruct (drive_ticks cfg "" [InputText (confirmationText cfg); ClickConfirm]
              (length (cfg_checklist cfg)) 0 true) as [d Hd].
  cbn [repeat app] in Hd. rewrite Hd. cbn [Nat.add].
  cbn [drive step]. unfold validate. cbn [config checked textValue confirmDisabled].
  rewrite allChecked_repeat_true.
  unfold textValid. cbn [textValue config]. rewrite Htrim, String.eqb_refl.
  reflexivity.
Qed.

(** X18. A confirmation text with white space around it can never be
    matched, because the typed text is trimmed before it is compared:
    with such a template no sequence of user events resolves the dialog
    to ['completed']. *)
Theorem padded_expected_text_blocks (template : Tier3Template) (k method base : string)
    (events : list event) :
  let cfg := buildConfig template k method base in
  JS.trim (confirmationText cfg) <> confirmationText cfg ->
  snd (drive (createModalElement cfg) events) <> Some Completed.
Proof.
  intros cfg Hpad Hdone.
  destruct (drive (createModalElement cfg) events) as [final o] eqn:Hdrive.
  simpl in Hdone. subst o.
  destruct (drive_completed events _ final (created_consistent template k method base)
              Hdrive) as (Hcfg & _ & _ & Htext).
  unfold textValid in Htext. apply String.eqb_eq in Htext. rewrite Hcfg in Htext.
  apply Hpad. exact (matched_text_is_trimmed _ _ Htext).
Qed.

Lemma tier2_drive (events : list Tier2Modal.event) (m : Tier2Modal.Modal)
    (reason : string) :
  Tier2Modal.proceedDisabled m
    = (String.length (JS.trim (Tier2Modal.textValue m)) <? 10)%nat ->
  Tier2Modal.drive m events = Some (Tier2Modal.Proceed reason) ->
  (10 <= String.length reason)%nat
  /\ (reason = JS.trim (Tier2Modal.textValue m)
      \/ exists typed, In (Tier2Modal.InputText typed) events
                       /\ reason = JS.trim typed).
Proof.
  revert m. induction events as [|e events IH]; intros m Hc Hd; [discriminate|].
  cbn [Tier2Modal.drive] in Hd.
  destruct e as [v| | | |t|key]; cbn [Tier2Modal.step] in Hd.
  - destruct (IH (Tier2Modal.mkModal v (String.length (JS.trim v) <? 10)%nat)
                eq_refl Hd) as [Hlen [Hr|(typed & Hin & Hr)]].
    + split; [exact Hlen|]. right. exists v. split; [now left|exact Hr].
    + split; [exact Hlen|]. right. exists typed. split; [now right|exact Hr].
  - destruct (Tier2Modal.proceedDisabled m) eqn:Hdis.
    + rewrite <- Hdis in Hc.
      destruct (IH m Hc Hd) as [Hlen [Hr|(typed & Hin & Hr)]].
      * split; [exact Hlen|now left].
      * split; [exact Hlen|]. right. exists typed. split; [now right|exact Hr].
    + injection Hd as <-. symmetry in Hc. apply Nat.ltb_ge in Hc.
      split; [exact Hc|now left].
  - discriminate.
  - discriminate.
  - destruct t; [discriminate| |];
      (destruct (IH m Hc Hd) as [Hlen [Hr|(typed & Hin & Hr)]];
       [split; [exact Hlen|now left]
       |split; [exact Hlen|]; right; exists typed; split; [now right|exact Hr]]).
  - destruct (String.eqb key "Escape"); [discriminate|].
    destruct (IH m Hc Hd) as [Hlen [Hr|(typed & Hin & Hr)]].
    + split; [exact Hlen|now left].
    + split; [exact Hlen|]. right. exists typed. split; [now right|exact Hr].
Qed.

(** X19. The Tier-2 dialog resolves to ['proceed'] only with a reason of
    at least ten characters, which is the trimmed text the user typed; the
    override button needs nothing, it resolves the dialog to ['override']
    in whatever state the dialog is; cancel, Escape and a click on the
    overlay resolve it to ['cancel']. *)
Theorem tier2_proceed_needs_reason (events : list Tier2Modal.event) :
  (forall reason,
      Tier2Modal.show events = Some (Tier2Modal.Proceed reason) ->
      (10 <= String.length reason)%nat
      /\ exists typed, In (Tier2Modal.InputText typed) events
                       /\ reason = JS.trim typed)
  /\ (forall m,
        Tier2Modal.step m Tier2Modal.ClickOverride = inr Tier2Modal.Override
        /\ Tier2Modal.step m Tier2Modal.ClickCancel = inr Tier2Modal.Cancel
        /\ Tier2Modal.step m (Tier2Modal.KeyDown "Escape") = inr Tier2Modal.Cancel
        /\ Tier2Modal.step m (Tier2Modal.Click TOverlay) = inr Tier2Modal.Cancel).
Proof.
  split; [|intros m; repeat split].
  intros reason Hshow. unfold Tier2Modal.show in Hshow.
  destruct (tier2_drive events Tier2Modal.createModalElement reason eq_refl Hshow)
    as [Hlen [Hr|Hex]].
  - subst reason. simpl in Hlen. lia.
  - split; assumption.
Qed.

End Dialogs.

(** ** CheckpointGate: what the handlers leave alone and let through *)

Section GateBehaviour.

Import EventInterceptor.

(** X20. A kind without a Tier-3 template cannot be confirmed: whatever
    the user does, the dialog is not even shown, the handler ends by
    itself with the checkpoint recorded as aborted, and nothing is
    re-issued. *)
Theorem missing_template_aborts (env : Env) (w : World) (info : ActionInfo)
    (el : Element) :
  PolicyLoader.getTier3Template (env_policy env) (kind info) = None ->
  let '(w', tr, r) := run env (handleCheckpoint info el) w in
  r = Some tt
  /\ replay_issued tr = false
  /\ w_reissued w' = w_reissued w
  /\ w_tier3Open w' = false
  /\ forall st, StateManager.currentState (w_state w) = Some st ->
       exists st' older,
         StateManager.currentState (w_state w') = Some st'
         /\ checkpointHistory st'
            = older ++ [mkCheckpoint (env_now env) (kind info) "aborted"].
Proof.
  intros Hnone.
  assert (Hshow : Tier3Modal.show (env_policy env) (kind info) (mergeMethod info)
                    (env_baseBranch env) (env_user env) = Some Tier3Modal.Aborted)
    by (unfold Tier3Modal.show; now rewrite Hnone).
  rewrite (run_handleCheckpoint_aborted env w info el Hshow). cbv zeta.
  repeat (split; [reflexivity|]).
  intros st Hst. cbn [w_state].
  exact (recordCheckpoint_last _ _ _ _ _ st Hst).
Qed.

(** X21. While the interceptor is stopped, or a Tier-3 or Tier-2 dialog
    is open, the three handlers do nothing: no lookup, no effect on the
    event, no change to storage or session state.  A key other than Enter
    is ignored in the same way. *)
Theorem handlers_idle (RegExp_i : RegExpCtor) (env : Env) (w : World) (g : Gate)
    (event : DomEvent) :
  (shouldIntercept g = false ->
   run env (handleClick RegExp_i (env_policy env) g event) w = (w, [], Some tt)
   /\ run env (handleSubmit (env_policy env) g event) w = (w, [], Some tt)
   /\ run env (handleKeydown RegExp_i (env_policy env) g event) w = (w, [], Some tt))
  /\ (shouldIntercept g = true
      <-> isActive g = true /\ tier3Open g = false /\ tier2Open g = false)
  /\ (ev_key event <> "Enter" ->
      run env (handleKeydown RegExp_i (env_policy env) g event) w = (w, [], Some tt)).
Proof.
  split; [|split].
  - intros Hno. unfold handleClick, handleSubmit, handleKeydown. rewrite Hno.
    repeat split.
  - unfold shouldIntercept.
    destruct (isActive g), (tier3Open g), (tier2Open g); simpl;
      split; try discriminate; try (intros (? & ? & ?); discriminate); auto.
  - intros Hkey. unfold handleKeydown.
    destruct (shouldIntercept g); [|reflexivity]. simpl.
    destruct (String.eqb_spec (ev_key event) "Enter"); [congruence|reflexivity].
Qed.

(** X22. An action that does not classify is left to the page: with no
    valid token for it, the click handler only looks the token up, and
    the keydown handler does not even do that; neither touches the event,
    the store or the session state, and no dialog is opened. *)
Theorem unclassified_left_alone (RegExp_i : RegExpCtor) (env : Env) (w : World)
    (g : Gate) (event : DomEvent) (el : Element) :
  shouldIntercept g = true ->
  classifyAction RegExp_i (env_policy env) el = None ->
  (ev_actionable event = Some el ->
   SafeReplay.hasValidToken (w_store w) (env_now env) (env_prId env) el = false ->
   run env (handleClick RegExp_i (env_policy env) g event) w
   = (w, [OAwait (HasValidToken el)], Some tt))
  /\ (ev_activeElement event = Some el ->
      run env (handleKeydown RegExp_i (env_policy env) g event) w = (w, [], Some tt)).
Proof.
  intros Hgo Hnone. split.
  - intros Hel Htok. unfold handleClick. rewrite Hgo, Hel. simpl.
    rewrite Htok. simpl. rewrite Hnone. reflexivity.
  - intros Hel. unfold handleKeydown. rewrite Hgo. simpl.
    destruct (String.eqb (ev_key event) "Enter"); [|reflexivity]. simpl.
    rewrite Hel, Hnone. reflexivity.
Qed.

Lemma pending_cleared (p : SafeReplay.Pending) (el : Element) :
  SafeReplay.isPending (SafeReplay.clearPending (SafeReplay.markPending p el) el) el
  = false.
Proof.
  unfold SafeReplay.isPending, SafeReplay.clearPending, SafeReplay.markPending. simpl.
  rewrite !bool_decide_eq_false_2
    by (intros [_ Hn]%elem_of_difference; apply Hn; now apply elem_of_singleton).
  reflexivity.
Qed.

(** X23. A replayed action passes exactly once.  [replay] on an element
    that is not pending writes a token, re-issues the action on the
    element and leaves no pending marker behind; the click it triggers,
    handled within the token's TTL, consumes the token and is let through
    untouched (no [preventDefault], no dialog); after that the element
    holds no valid token at any later time.  [replay] on a pending
    element does nothing. *)
Theorem replayed_action_passes_once (RegExp_i : RegExpCtor) (env : Env) (w : World)
    (g : Gate) (event : DomEvent) (el : Element) (issuedAt : Z) :
  shouldIntercept g = true ->
  ev_actionable event = Some el ->
  env_now env - issuedAt
    <= JS.or_default (token_ttl_ms (CooldownManager.getCooldowns (env_policy env))) 5000 ->
  (SafeReplay.isPending (w_pending w) el = true ->
   SafeReplay.replay (env_policy env) (w_store w) issuedAt (env_prId env)
     (w_pending w) (w_reissued w) el
   = (w_store w, w_pending w, w_reissued w, false))
  /\ (SafeReplay.isPending (w_pending w) el = false ->
      let '(s1, p1, re1, ok) :=
        SafeReplay.replay (env_policy env) (w_store w) issuedAt (env_prId env)
          (w_pending w) (w_reissued w) el in
      ok = true
      /\ re1 = w_reissued w ++ [node el]
      /\ SafeReplay.isPending p1 el = false
      /\ let '(w2, tr, r) :=
           run env (handleClick RegExp_i (env_policy env) g event)
             (mkWorld s1 (w_state w) p1 re1 (w_tier3Open w)) in
         tr = [OAwait (HasValidToken el); OAwait (ConsumeToken el)]
         /\ r = Some tt
         /\ w_reissued w2 = re1
         /\ w_state w2 = w_state w
         /\ forall later,
              SafeReplay.hasValidToken (w_store w2) later (env_prId env) el = false).
Proof.
  intros Hgo Hel Hfresh. split.
  - intros Hp. unfold SafeReplay.replay. now rewrite Hp.
  - intros Hp. unfold SafeReplay.replay. rewrite Hp.
    split; [reflexivity|]. split; [reflexivity|].
    split; [apply pending_cleared|].
    set (s1 := SafeReplay.createToken (env_policy env) (w_store w) issuedAt
                 (env_prId env) el).
    pose proof (createAllowToken_lookup (env_policy env) (w_store w) issuedAt
                  (env_prId env) (SafeReplay.getElementId el)) as Hget.
    fold (SafeReplay.createToken (env_policy env) (w_store w) issuedAt
            (env_prId env) el) in Hget. fold s1 in Hget.
    assert (Hvalid : SafeReplay.hasValidToken s1 (env_now env) (env_prId env) el = true).
    { unfold SafeReplay.hasValidToken.
      rewrite (hasValidToken_token _ _ _ _ _ Hget). simpl.
      apply Z.leb_le. exact Hfresh. }
    unfold handleClick. rewrite Hgo, Hel.
    cbn [negb bind await run settle w_store]. rewrite Hvalid.
    cbn [bind await run settle with_store w_store w_state w_pending w_reissued
         w_tier3Open].
    repeat (split; [reflexivity|]).
    intros later. unfold SafeReplay.hasValidToken, SafeReplay.consumeToken,
      CooldownManager.consumeToken.
    rewrite Hget.
    rewrite (hasValidToken_token _ _ _ _
               (mkAllowToken issuedAt
                  (JS.or_default
                     (token_ttl_ms (CooldownManager.getCooldowns (env_policy env))) 5000)
                  true)); [reflexivity|].
    simpl. apply lookup_insert_eq.
Qed.





End GateBehaviour.

(** ** MetricsTracker: how the time on the diff is accumulated *)

Section Measurements.

Import StateManager MetricsTracker.

Lemma save_stored_time (m : StateManager.t) (s : store) (now : Z) :
  stored_time (fst (save m s now)) = stored_time m.
Proof.
  unfold stored_time, save.
  destruct (currentState m) as [st|] eqn:Hst; [|simpl; now rewrite Hst].
  destruct (sm_prId m) as [pr|]; [|simpl; now rewrite Hst].
  destruct (JS.truthy pr); simpl; [now destruct st|now rewrite Hst].
Qed.

Lemma saveMetrics_stored_time (m : StateManager.t) (s : store) (now : Z)
    (tr : MetricsTracker.t) (d : Z) :
  stored_time m = Some d ->
  stored_time (fst (saveMetrics m s now tr))
  = Some (match viewing_since tr with
          | Some t0 => d + (now - t0)
          | None => d
          end).
Proof.
  intros Hd. unfold stored_time in Hd.
  destruct (currentState m) as [st|] eqn:Hst; [|discriminate].
  injection Hd as Hd.
  unfold saveMetrics, updateDiffMetrics. rewrite Hst.
  rewrite save_stored_time. unfold stored_time. simpl.
  unfold getTotalDiffTime, getDiffTimeAccumulated. rewrite Hst. simpl.
  rewrite Hd.
  assert (Hor : (if d =? 0 then 0 else d) = d)
    by (destruct (Z.eqb_spec d 0); congruence).
  rewrite Hor. now destruct (viewing_since tr).
Qed.

Lemma addDiffTime_stored_time (m : StateManager.t) (s : store) (now ms d : Z) :
  stored_time m = Some d ->
  stored_time (fst (addDiffTime m s now ms)) = Some (d + ms).
Proof.
  intros Hd. unfold stored_time in Hd.
  destruct (currentState m) as [st|] eqn:Hst; [|discriminate].
  injection Hd as Hd.
  unfold addDiffTime. rewrite Hst. rewrite save_stored_time.
  unfold stored_time. simpl. now rewrite Hd.
Qed.

Lemma periodic_saves_stored_time (tr : MetricsTracker.t) (times : list Z) :
  forall (m : StateManager.t) (s : store) (d : Z),
  stored_time m = Some d ->
  stored_time (fst (periodic_saves m s tr times))
  = Some (match viewing_since tr with
          | Some t0 => d + fold_right Z.add 0 (map (fun now => now - t0) times)
          | None => d
          end).
Proof.
  induction times as [|now rest IH]; intros m s d Hd.
  - simpl. rewrite Hd. destruct (viewing_since tr); f_equal; lia.
  - cbn [periodic_saves].
    pose proof (saveMetrics_stored_time m s now tr d Hd) as Hs.
    destruct (saveMetrics m s now tr) as [m' s']. cbn [fst] in Hs.
    rewrite (IH m' s' _ Hs).
    destruct (viewing_since tr); [|reflexivity].
    f_equal. simpl. lia.
Qed.

(** X25. While the diff stays on screen, every periodic [saveMetrics]
    adds the whole time since the diff came into view to the stored
    [diff_time_ms], on top of what earlier saves already added: after
    saves at [times] the stored value is the initial one plus the sum of
    [now - diffStartTime] over all of them, and [stop()] adds the elapsed
    time twice.  With the diff off screen, saves leave the stored time as
    it is. *)
Theorem saves_recount_visible_time (m : StateManager.t) (s : store)
    (tr : MetricsTracker.t) (st : SessionState) (times : list Z) (now : Z) :
  currentState m = Some st ->
  let d0 := diff_time_ms (diffMetrics st) in
  match viewing_since tr with
  | Some t0 =>
      stored_time (fst (periodic_saves m s tr times))
      = Some (d0 + fold_right Z.add 0 (map (fun now => now - t0) times))
      /\ stored_time (fst (fst (stop m s now tr))) = Some (d0 + 2 * (now - t0))
  | None =>
      stored_time (fst (periodic_saves m s tr times)) = Some d0
      /\ stored_time (fst (fst (stop m s now tr))) = Some d0
  end.
Proof.
  intros Hst d0.
  assert (Hd : stored_time m = Some d0) by (unfold stored_time; now rewrite Hst).
  pose proof (periodic_saves_stored_time tr times m s d0 Hd) as Hp.
  pose proof (saveMetrics_stored_time m s now tr d0 Hd) as Hs.
  unfold stop. destruct (saveMetrics m s now tr) as [m1 s1]. cbn [fst] in Hs.
  destruct (viewing_since tr) as [t0|].
  - split; [exact Hp|].
    pose proof (addDiffTime_stored_time m1 s1 now (now - t0) _ Hs) as Ha.
    destruct (addDiffTime m1 s1 now (now - t0)) as [m2 s2]. cbn [fst] in *.
    rewrite Ha. f_equal. lia.
  - split; [exact Hp|exact Hs].
Qed.

Lemma saves_recount_visible_time_witness :
  stored_time (fst (periodic_saves demo_manager ∅ (mkTracker (Some 1000) 0)
                      [6000; 11000]))
  = Some (0 + fold_right Z.add 0 (map (fun now => now - 1000) [6000; 11000]))
  /\ stored_time (fst (fst (stop demo_manager ∅ 11000 (mkTracker (Some 1000) 0))))
     = Some (0 + 2 * (11000 - 1000)).
Proof.
  exact (saves_recount_visible_time demo_manager ∅ (mkTracker (Some 1000) 0)
           demo_state [6000; 11000] 11000 eq_refl).
Defined.

End Measurements.

(** ** ReadinessCalculator: the breakdown, on doubles *)

Section Breakdown.

Import PrimFloat FloatOps FloatAxioms SpecFloat.
Import Binary64 Binary64.ReadinessCalculator.

Lemma is_zero_SF (x : float) :
  is_zero x = true <-> exists s, Prim2SF x = S754_zero s.
Proof.
  split.
  - unfold is_zero. rewrite eqb_spec.
    change (Prim2SF zero) with (S754_zero false).
    destruct (Prim2SF x) as [s|s| |s m e]; [now exists s| | |];
      try destruct s; discriminate.
  - intros [s Hs].
    assert (Hx : x = SF2Prim (S754_zero s))
      by (rewrite <- Hs; symmetry; apply SF2Prim_Prim2SF).
    rewrite Hx. now destruct s.
Qed.

Lemma same_number_SF (x y : float) :
  (Prim2SF x = Prim2SF y
   \/ exists a b, Prim2SF x = S754_zero a /\ Prim2SF y = S754_zero b) ->
  same_number x y.
Proof.
  intros [H|(a & b & Ha & Hb)].
  - left. now apply Prim2SF_inj.
  - right. split; apply is_zero_SF; eauto.
Qed.

Lemma same_number_refl (x : float) : same_number x x.
Proof. now left. Qed.

Lemma same_number_trans (x y z : float) :
  same_number x y -> same_number y z -> same_number x z.
Proof.
  intros [->|[Hx Hy]] [->|[Hy' Hz]]; try (now left); try (right; now split).
Qed.

Lemma same_number_add (s f v : float) :
  same_number s f -> same_number (s + v) (f + v).
Proof.
  intros [->|[Hs Hf]]; [now left|].
  apply is_zero_SF in Hs as [a Ha]. apply is_zero_SF in Hf as [b Hb].
  apply same_number_SF. rewrite !add_spec, Ha, Hb.
  destruct (Prim2SF v) as [c|c| |c m e]; cbn; auto.
  right. destruct a, b, c; cbn; eauto.
Qed.

Lemma same_number_skip (s f : float) :
  same_number s f -> same_number s (f + 0).
Proof.
  intros H. apply (same_number_trans _ f); [exact H|].
  apply same_number_SF. rewrite add_spec.
  change (Prim2SF 0) with (S754_zero false).
  destruct (Prim2SF f) as [c|c| |c m e]; cbn; auto.
  right. destruct c; cbn; eauto.
Qed.

Lemma sub_add_opp (x y : float) : (x - y = x + - y)%float.
Proof.
  apply Prim2SF_inj. rewrite sub_spec, add_spec, opp_spec.
  destruct (Prim2SF x) as [a|a| |a mx ex], (Prim2SF y) as [b|b| |b my ey];
    try destruct a; try destruct b; try reflexivity.
  all: cbn [SF64sub SF64add SFsub SFadd SFopp negb]; f_equal; cbn [cond_Zopp]; lia.
Qed.

Lemma clamp_same (x y : float) : same_number x y -> clamp x = clamp y.
Proof.
  intros [->|[Hx Hy]]; [reflexivity|].
  apply is_zero_SF in Hx as [a Ha]. apply is_zero_SF in Hy as [b Hb].
  assert (Hx : x = SF2Prim (S754_zero a))
    by (rewrite <- Ha; symmetry; apply SF2Prim_Prim2SF).
  assert (Hy : y = SF2Prim (S754_zero b))
    by (rewrite <- Hb; symmetry; apply SF2Prim_Prim2SF).
  rewrite Hx, Hy. destruct a, b; vm_compute; reflexivity.
Qed.

(** X13. The lines of [getBreakdown] carry the amounts [calculate]
    adds: summed from the left in doubles, starting from 0, their values
    give the score before clamping (a zero possibly with the other sign),
    and so the score that [calculate] applies the thresholds to is the
    clamp of that sum. *)
Theorem breakdown_adds_up (th : Thresholds) (state : State) (now : float) :
  let sg := match signals th with Some sg => sg | None => empty_signals end in
  same_number (fst (fst (accumulate sg state now))) (total (getBreakdown th state now))
  /\ clamped_score th state now = clamp (total (getBreakdown th state now)).
Proof.
  intros sg.
  assert (Hsame : same_number (fst (fst (accumulate sg state now)))
                    (total (getBreakdown th state now))).
  { unfold accumulate, getBreakdown, total. fold sg.
    destruct (viewed "files" state), (checksViewed state),
      (ge (or_default (diff_scroll_max_pct state) 0) 50),
      (viewed "conversation" state),
      (now - or_default (prLoadTime state) now
       <? or_default (min_time_before_merge_ms sg) 30000)%float,
      (ge _ _);
      cbn [fst fold_left app bd_value];
      rewrite ?sub_add_opp;
      repeat first [ apply same_number_refl
                   | apply same_number_add
                   | apply same_number_skip ]. }
  split; [exact Hsame|].
  unfold clamped_score. fold sg. now apply clamp_same.
Qed.

End Breakdown.

(** ** ReadinessCalculator: what readiness takes under the default weights *)

Section ReadinessThresholds.

Import ReadinessCalculator.

Lemma clamp01_below (x b : Q) : (0 < b)%Q -> (x < b)%Q -> (clamp01 x < b)%Q.
Proof.
  intros Hb Hx. unfold clamp01. apply Q.max_lub_lt; [exact Hb|].
  eapply Qle_lt_trans; [apply Q.le_min_r|exact Hx].
Qed.

Lemma clamp01_above (x b : Q) : (b <= 1)%Q -> (b <= x)%Q -> (b <= clamp01 x)%Q.
Proof.
  intros Hb Hx. unfold clamp01.
  eapply Qle_trans; [|apply Q.le_max_r]. apply Q.min_glb; assumption.
Qed.

Lemma isReady_iff (policy : option Policy) (state : SessionState) (now : Z) :
  isReady policy state now = true
  <-> (JS.nullish (tier1_min (PolicyLoader.getNudgeThresholds policy)) 0.70
       <= clamped_score policy state now)%Q.
Proof.
  unfold isReady. pose proof (proj2 (calculate_fields policy state now)) as Ht. rewrite Ht.
  unfold tier_of.
  destruct (Qle_bool _ (clamped_score policy state now)) eqn:H1.
  - apply Qle_bool_iff in H1. split; [intros _; exact H1|reflexivity].
  - split.
    + destruct (Qle_bool (JS.nullish (tier2_min _) _) _); simpl; intros H; discriminate H.
    + intros H. apply Qle_bool_iff in H. congruence.
Qed.

Lemma diff_time_share (d target dMax : Q) :
  (0 <= dMax)%Q -> (Qmin (d / target) 1 * dMax <= dMax)%Q.
Proof.
  intros H.
  assert (Hm : (Qmin (d / target) 1 * dMax <= 1 * dMax)%Q)
    by (apply Qmult_le_compat_r; [apply Q.le_min_r|exact H]).
  lra.
Qed.

Lemma accumulate_without_files (sg : Signals) (state : SessionState) (now : Z) :
  (0 <= JS.or_defaultQ (checks_viewed sg) 0.25)%Q ->
  (0 <= JS.or_defaultQ (diff_time_max sg) 0.20)%Q ->
  (0 <= JS.or_defaultQ (scroll_depth sg) 0.10)%Q ->
  (0 <= JS.or_defaultQ (conversation_viewed sg) 0.10)%Q ->
  (0 <= JS.or_defaultQ (early_merge_penalty sg) 0.25)%Q ->
  StateManager.includes "files" (tabsViewed state) = false ->
  (fst (fst (accumulate sg state now))
   <= JS.or_defaultQ (checks_viewed sg) 0.25 + JS.or_defaultQ (diff_time_max sg) 0.20
      + JS.or_defaultQ (scroll_depth sg) 0.10
      + JS.or_defaultQ (conversation_viewed sg) 0.10)%Q.
Proof.
  intros HC HD HS HV HP Hf. unfold accumulate. rewrite Hf.
  pose proof (diff_time_share (inject_Z (diff_time_ms (diffMetrics state)))
                (JS.or_defaultQ (diff_time_target_ms sg) 60000) _ HD) as Hshare.
  set (x := (Qmin _ 1 * _)%Q) in *.
  set (wC := JS.or_defaultQ (checks_viewed sg) 0.25) in *.
  set (dMax := JS.or_defaultQ (diff_time_max sg) 0.20) in *.
  set (wS := JS.or_defaultQ (scroll_depth sg) 0.10) in *.
  set (wV := JS.or_defaultQ (conversation_viewed sg) 0.10) in *.
  set (pen := JS.or_defaultQ (early_merge_penalty sg) 0.25) in *.
  destruct (checksViewed state), (Qle_bool (dMax * 0.9) x),
    (Qle_bool 50 (diff_scroll_max_pct (diffMetrics state))),
    (StateManager.includes "conversation" (tabsViewed state)),
    (_ <? _); cbn [fst]; lra.
Qed.

Lemma accumulate_reviewed (sg : Signals) (state : SessionState) (now : Z) :
  (0 <= JS.or_defaultQ (checks_viewed sg) 0.25)%Q ->
  (0 < JS.or_defaultQ (diff_time_target_ms sg) 60000)%Q ->
  StateManager.includes "files" (tabsViewed state) = true ->
  StateManager.includes "conversation" (tabsViewed state) = true ->
  (JS.or_defaultQ (diff_time_target_ms sg) 60000
   <= inject_Z (diff_time_ms (diffMetrics state)))%Q ->
  (50 <= diff_scroll_max_pct (diffMetrics state))%Q ->
  (now - JS.or_default (Some (prLoadTime state)) now
   <? JS.or_default (min_time_before_merge_ms sg) 30000) = false ->
  (JS.or_defaultQ (files_changed sg) 0.35 + JS.or_defaultQ (diff_time_max sg) 0.20
   + JS.or_defaultQ (scroll_depth sg) 0.10
   + JS.or_defaultQ (conversation_viewed sg) 0.10
   <= fst (fst (accumulate sg state now)))%Q.
Proof.
  intros HC HT Hf Hv Hd Hs Ht. unfold accumulate. rewrite Hf, Hv, Ht.
  apply Qle_bool_iff in Hs. rewrite Hs.
  assert (Hone : (Qmin (inject_Z (diff_time_ms (diffMetrics state))
                        / JS.or_defaultQ (diff_time_target_ms sg) 60000) 1 == 1)%Q).
  { apply Q.min_r. apply Qle_shift_div_l; [exact HT|]. lra. }
  assert (Hshare : (Qmin (inject_Z (diff_time_ms (diffMetrics state))
                          / JS.or_defaultQ (diff_time_target_ms sg) 60000) 1
                    * JS.or_defaultQ (diff_time_max sg) 0.20
                    == JS.or_defaultQ (diff_time_max sg) 0.20)%Q)
    by (rewrite Hone; lra).
  set (x := (Qmin _ 1 * _)%Q) in *.
  set (wF := JS.or_defaultQ (files_changed sg) 0.35) in *.
  set (wC := JS.or_defaultQ (checks_viewed sg) 0.25) in *.
  set (dMax := JS.or_defaultQ (diff_time_max sg) 0.20) in *.
  set (wS := JS.or_defaultQ (scroll_depth sg) 0.10) in *.
  set (wV := JS.or_defaultQ (conversation_viewed sg) 0.10) in *.
  destruct (checksViewed state), (Qle_bool (dMax * 0.9) x); cbn [fst]; lra.
Qed.

Lemma default_signals (policy : option Policy) :
  policy = None \/ policy = Some PolicyLoader.getFallbackPolicy ->
  let sg := default empty_signals (signals (PolicyLoader.getNudgeThresholds policy)) in
  JS.or_defaultQ (files_changed sg) 0.35 = 0.35%Q
  /\ JS.or_defaultQ (checks_viewed sg) 0.25 = 0.25%Q
  /\ JS.or_defaultQ (diff_time_target_ms sg) 60000 = 60000%Q
  /\ JS.or_defaultQ (diff_time_max sg) 0.20 = 0.20%Q
  /\ JS.or_defaultQ (scroll_depth sg) 0.10 = 0.10%Q
  /\ JS.or_defaultQ (conversation_viewed sg) 0.10 = 0.10%Q
  /\ JS.or_default (min_time_before_merge_ms sg) 30000 = 30000
  /\ JS.or_defaultQ (early_merge_penalty sg) 0.25 = 0.25%Q
  /\ JS.nullish (tier1_min (PolicyLoader.getNudgeThresholds policy)) 0.70 = 0.70%Q.
Proof.
  intros [-> | ->]; repeat split; reflexivity.
Qed.

(** X26. Under the default weights (the hard-coded fallback policy, or no
    policy at all) a session is ready, tier 0, only if the "Files changed"
    tab was visited, whatever else was done.  Viewing the checks is not
    required: a session that visited the files and the conversation
    tabs, spent the target time on the diff, scrolled half of it and
    loaded the page at least 30 seconds ago is ready whether or not the
    checks were seen. *)
Theorem default_policy_ready (policy : option Policy) (state : SessionState) (now : Z) :
  policy = None \/ policy = Some PolicyLoader.getFallbackPolicy ->
  (isReady policy state now = true ->
   StateManager.includes "files" (tabsViewed state) = true)
  /\ (StateManager.includes "files" (tabsViewed state) = true ->
      StateManager.includes "conversation" (tabsViewed state) = true ->
      60000 <= diff_time_ms (diffMetrics state) ->
      (50 <= diff_scroll_max_pct (diffMetrics state))%Q ->
      prLoadTime state <> 0 ->
      30000 <= now - prLoadTime state ->
      isReady policy state now = true).
Proof.
  intros Hp.
  destruct (default_signals policy Hp) as (HF & HC & HT & HD & HS & HV & HM & HP & H1).
  split.
  - intros Hready.
    destruct (StateManager.includes "files" (tabsViewed state)) eqn:Hf; [reflexivity|].
    exfalso. apply isReady_iff in Hready. rewrite H1 in Hready.
    pose proof (accumulate_without_files
                  (default empty_signals
                     (signals (PolicyLoader.getNudgeThresholds policy))) state now) as Hb.
    rewrite HC, HD, HS, HV, HP in Hb.
    assert (Hu : (unclamped_score policy state now <= 0.65)%Q).
    { unfold unclamped_score.
      eapply Qle_trans; [apply Hb; try exact Hf; lra|lra]. }
    assert (Hc : (clamped_score policy state now < 0.70)%Q).
    { apply clamp01_below; [lra|]. fold (unclamped_score policy state now). lra. }
    lra.
  - intros Hf Hv Hd Hs Hl Ht. apply isReady_iff. rewrite H1.
    pose proof (accumulate_reviewed
                  (default empty_signals
                     (signals (PolicyLoader.getNudgeThresholds policy))) state now) as Hb.
    rewrite HF, HC, HT, HD, HS, HV, HM in Hb.
    apply clamp01_above; [lra|].
    eapply Qle_trans; [|apply Hb; try assumption; try lra].
    + lra.
    + rewrite Zle_Qle in Hd. exact Hd.
    + apply Z.ltb_ge. unfold JS.or_default.
      destruct (Z.eqb_spec (prLoadTime state) 0); [contradiction|exact Ht].
Qed.

Lemma default_policy_ready_witness :
  isReady (Some PolicyLoader.getFallbackPolicy) reviewed_state 121000 = true
  /\ StateManager.includes "files" (tabsViewed reviewed_state) = true.
Proof.
  split; [vm_compute; reflexivity|].
  refine (proj1 (default_policy_ready (Some PolicyLoader.getFallbackPolicy)
                   reviewed_state 121000 (or_intror eq_refl)) _).
  vm_compute. reflexivity.
Defined.

End ReadinessThresholds.

(** ** Storage: the name-spaced wrapper as a finite map *)

Section StorageWrapper.

Import Storage.

Context {V : Type}.

Lemma startsWith_append (p s : string) : JS.startsWith p (p +:+ s) = true.
Proof.
  induction p as [|c p IH]; [reflexivity|]. simpl. now rewrite Ascii.eqb_refl.
Qed.

Lemma slice_append (p s : string) : JS.slice (String.length p) (p +:+ s) = s.
Proof. induction p as [|c p IH]; [reflexivity|exact IH]. Qed.

Lemma startsWith_split (p s : string) :
  JS.startsWith p s = true -> s = p +:+ JS.slice (String.length p) s.
Proof.
  revert s. induction p as [|c p IH]; intros s H; [reflexivity|].
  destruct s as [|d s]; [discriminate|]. simpl in H.
  destruct (Ascii.eqb_spec c d) as [->|]; [|discriminate].
  change (String d s = String d (p +:+ JS.slice (String.length p) s)).
  f_equal. now apply IH.
Qed.

Lemma getAll_lookup (namespace : string) (area : gmap string V) (key : string) :
  getAll namespace area !! key = get namespace area key.
Proof.
  unfold getAll, get, namespacedKey. revert key.
  apply (map_fold_weak_ind
           (fun (r : gmap string V) (m : gmap string V) =>
              forall key, r !! key = m !! (prefix namespace +:+ key))).
  - intros key. now rewrite !lookup_empty.
  - intros i x m r Hi IH key.
    destruct (JS.startsWith (prefix namespace) i) eqn:Hp.
    + apply startsWith_split in Hp.
      destruct (decide (key = JS.slice (String.length (prefix namespace)) i)) as [->|Hne].
      * rewrite <- Hp. now rewrite !lookup_insert_eq.
      * rewrite lookup_insert_ne by congruence.
        rewrite lookup_insert_ne; [apply IH|].
        intros Heq. apply Hne. rewrite Hp in Heq. now apply append_inj_r in Heq.
    + rewrite lookup_insert_ne; [apply IH|].
      intros ->. now rewrite startsWith_append in Hp.
Qed.

Lemma clear_lookup (namespace : string) (area : gmap string V) (key : string) :
  clear namespace area !! key
  = if JS.startsWith (prefix namespace) key then None else area !! key.
Proof.
  unfold clear.
  assert (Hgen : forall keys,
             fold_right delete area keys !! key
             = if bool_decide (key ∈ keys) then None else area !! key).
  { induction keys as [|k keys IH]; simpl; [reflexivity|].
    destruct (decide (key = k)) as [->|Hne].
    - rewrite lookup_delete_eq.
      rewrite bool_decide_eq_true_2 by (apply elem_of_cons; now left). reflexivity.
    - rewrite lookup_delete_ne by congruence. rewrite IH.
      destruct (bool_decide (key ∈ keys)) eqn:Hin.
      + apply bool_decide_eq_true_1 in Hin.
        rewrite bool_decide_eq_true_2 by (apply elem_of_cons; now right). reflexivity.
      + apply bool_decide_eq_false_1 in Hin.
        rewrite bool_decide_eq_false_2; [reflexivity|].
        intros [Heq|Hin']%elem_of_cons; [exact (Hne Heq)|exact (Hin Hin')]. }
  rewrite Hgen.
  destruct (JS.startsWith (prefix namespace) key) eqn:Hp.
  - destruct (area !! key) as [v|] eqn:Hk.
    + rewrite bool_decide_eq_true_2; [reflexivity|].
      apply list_elem_of_In, List.filter_In. split; [|exact Hp].
      apply list_elem_of_In. apply list_elem_of_fmap. exists (key, v).
      split; [reflexivity|]. now apply elem_of_map_to_list.
    + now destruct (bool_decide _).
  - rewrite bool_decide_eq_false_2; [reflexivity|].
    intros Hin%list_elem_of_In%List.filter_In. destruct Hin as [_ Hin]. congruence.
Qed.


Lemma untouched_outside_prefix (namespace : string) (area : gmap string V)
    (key other : string) (value : V) :
  JS.startsWith (prefix namespace) other = false ->
  set namespace area key value !! other = area !! other
  /\ remove namespace area key !! other = area !! other
  /\ clear namespace area !! other = area !! other.
Proof.
  intros Hother.
  assert (Hne : namespacedKey namespace key <> other).
  { intros <-. unfold namespacedKey in Hother.
    now rewrite startsWith_append in Hother. }
  unfold set, remove. rewrite lookup_insert_ne, lookup_delete_ne by exact Hne.
  rewrite clear_lookup, Hother. auto.
Qed.

(** X27. Seen through [getAll], the wrapper is a finite map on the keys
    without the prefix: [get] reads it, [set] inserts into it, [remove]
    deletes from it, [clear] empties it; and none of the three touches a
    key of the area that does not start with the prefix. *)
Theorem storage_is_a_map (namespace : string) (area : gmap string V) (key : string)
    (value : V) :
  (forall k, get namespace area k = getAll namespace area !! k)
  /\ getAll namespace (set namespace area key value)
     = <[key := value]> (getAll namespace area)
  /\ getAll namespace (remove namespace area key) = delete key (getAll namespace area)
  /\ getAll namespace (clear namespace area) = ∅
  /\ (forall other,
        JS.startsWith (prefix namespace) other = false ->
        set namespace area key value !! other = area !! other
        /\ remove namespace area key !! other = area !! other
        /\ clear namespace area !! other = area !! other).
Proof.
  split; [intros k; symmetry; apply getAll_lookup|].
  split; [|split; [|split]].
  - apply map_eq. intros k. rewrite getAll_lookup. unfold get, set.
    destruct (decide (k = key)) as [->|Hne].
    + now rewrite !lookup_insert_eq.
    + rewrite !lookup_insert_ne; [now rewrite getAll_lookup| congruence |].
      unfold namespacedKey. intros Heq. apply append_inj_r in Heq. congruence.
  - apply map_eq. intros k. rewrite getAll_lookup. unfold get, remove.
    destruct (decide (k = key)) as [->|Hne].
    + now rewrite !lookup_delete_eq.
    + rewrite !lookup_delete_ne; [now rewrite getAll_lookup| congruence |].
      unfold namespacedKey. intros Heq. apply append_inj_r in Heq. congruence.
  - apply map_eq. intros k. rewrite getAll_lookup, lookup_empty. unfold get.
    rewrite clear_lookup. unfold namespacedKey. now rewrite startsWith_append.
  - intros other. apply untouched_outside_prefix.
Qed.

Lemma append_assoc (a b c : string) : (a +:+ b) +:+ c = a +:+ (b +:+ c).
Proof.
  induction a as [|x a IH]; [reflexivity|].
  change (String x ((a +:+ b) +:+ c) = String x (a +:+ (b +:+ c))).
  now rewrite IH.
Qed.

Lemma prefix_determines_namespace (ns ns' key : string) :
  colon_free ns = true -> colon_free ns' = true ->
  JS.startsWith (prefix ns) (namespacedKey ns' key) = true -> ns = ns'.
Proof.
  unfold namespacedKey, prefix. revert ns'.
  induction ns as [|a p IH]; intros [|b q] Hns Hns' H; [reflexivity| | |].
  - exfalso. cbn [colon_free] in Hns'.
    apply andb_prop in Hns' as [Hb _]. apply negb_true_iff, Ascii.eqb_neq in Hb.
    change (JS.startsWith ":" (String b ((q +:+ ":") +:+ key)) = true) in H.
    cbn [JS.startsWith] in H.
    destruct (Ascii.eqb_spec ":" b) as [E|]; [congruence|discriminate H].
  - exfalso. cbn [colon_free] in Hns.
    apply andb_prop in Hns as [Ha _]. apply negb_true_iff, Ascii.eqb_neq in Ha.
    change (JS.startsWith (String a (p +:+ ":")) (String ":" key) = true) in H.
    cbn [JS.startsWith] in H.
    destruct (Ascii.eqb_spec a ":") as [E|]; [congruence|discriminate H].
  - cbn [colon_free] in Hns, Hns'.
    apply andb_prop in Hns as [_ Hns]. apply andb_prop in Hns' as [_ Hns'].
    change (JS.startsWith (String a (p +:+ ":")) (String b ((q +:+ ":") +:+ key)) = true)
      in H.
    cbn [JS.startsWith] in H.
    destruct (Ascii.eqb_spec a b) as [->|]; [|discriminate H].
    f_equal. now apply IH.
Qed.

(** X28. Two wrappers whose name spaces differ and hold no colon do not
    see each other: what one sets, removes or clears leaves everything
    the other can read as it was.  Without that condition name spaces
    nest: the key [k'] of name space [ns:k] is the key [k:k'] of name
    space [ns]. *)
Theorem namespaces_isolated (ns ns' : string) (area : gmap string V) (key : string)
    (value : V) :
  (colon_free ns = true -> colon_free ns' = true -> ns <> ns' ->
   getAll ns' (set ns area key value) = getAll ns' area
   /\ getAll ns' (remove ns area key) = getAll ns' area
   /\ getAll ns' (clear ns area) = getAll ns' area)
  /\ (forall k k',
        namespacedKey (namespacedKey ns k) k' = namespacedKey ns (k +:+ ":" +:+ k')).
Proof.
  split.
  - intros Hns Hns' Hne.
    assert (Hother : forall k, JS.startsWith (prefix ns) (namespacedKey ns' k) = false).
    { intros k. destruct (JS.startsWith _ _) eqn:Hp; [|reflexivity].
      exfalso. apply Hne. exact (prefix_determines_namespace ns ns' k Hns Hns' Hp). }
    repeat split; apply map_eq; intros k; rewrite !getAll_lookup; unfold get;
      apply (untouched_outside_prefix ns area key _ value (Hother k)).
  - intros k k'. unfold namespacedKey, prefix. now rewrite !append_assoc.
Qed.

End StorageWrapper.

(** ** The properties above at concrete inputs *)

Lemma recordTabView_once_witness :
  StateManager.currentState demo_manager = Some demo_state
  /\ StateManager.recordTabView
       (fst (StateManager.recordTabView demo_manager ∅ 2000 "files"))
       (snd (StateManager.recordTabView demo_manager ∅ 2000 "files")) 3000 "files"
     = StateManager.recordTabView demo_manager ∅ 2000 "files".
Proof.
  split; [reflexivity|].
  exact (proj2 (recordTabView_once demo_manager ∅ 2000 3000 "files" demo_state eq_refl)).
Defined.

Lemma save_then_initialize_witness :
  StateManager.currentState
    (fst (StateManager.initialize (StateManager.mk "session-2" None None)
            (snd (StateManager.save demo_manager ∅ 2000)) 3000
            (Some (StateManager.mkPRInfo "octo" "widgets" 7))))
  = Some (StateManager.set_lastActive 3000
            (StateManager.set_sessionId "session-2" demo_state)).
Proof.
  refine (proj1 (save_then_initialize demo_manager (StateManager.mk "session-2" None None)
                   ∅ 2000 3000 (StateManager.mkPRInfo "octo" "widgets" 7) demo_state
                   eq_refl _ eq_refl) eq_refl).
  vm_compute. reflexivity.
Defined.

Lemma classify_agrees_with_matches_witness :
  PolicyLoader.matchesCheckpoint literal_RegExp (Some PolicyLoader.getFallbackPolicy)
    "Confirm merge" "MERGE_NOW" = true.
Proof.
  refine (proj1 (classify_agrees_with_matches literal_RegExp
                   (Some PolicyLoader.getFallbackPolicy) _ "Confirm merge" eq_refl _)
            "MERGE_NOW" _).
  - simpl. repeat (constructor; [simpl; intuition discriminate|]). constructor.
  - vm_compute. reflexivity.
Defined.

Lemma missing_items_agree_witness :
  StateManager.getMissingItems demo_manager
  = ReadinessCalculator.getMissingItems demo_state.
Proof.
  exact (proj1 (missing_items_agree demo_manager (Some PolicyLoader.getFallbackPolicy)
                  demo_state 90000 eq_refl)).
Defined.

Lemma other_tabs_do_not_count_witness :
  exists state1,
    StateManager.currentState (fst (StateManager.recordTabView demo_manager ∅ 2000 "checks"))
      = Some state1
    /\ checksViewed state1 = checksViewed demo_state
    /\ ReadinessCalculator.score
         (ReadinessCalculator.calculate (Some PolicyLoader.getFallbackPolicy) state1 90000)
       = ReadinessCalculator.score
           (ReadinessCalculator.calculate (Some PolicyLoader.getFallbackPolicy)
              demo_state 90000)
    /\ ReadinessCalculator.tier
         (ReadinessCalculator.calculate (Some PolicyLoader.getFallbackPolicy) state1 90000)
       = ReadinessCalculator.tier
           (ReadinessCalculator.calculate (Some PolicyLoader.getFallbackPolicy)
              demo_state 90000)
    /\ ReadinessCalculator.reasons
         (ReadinessCalculator.calculate (Some PolicyLoader.getFallbackPolicy) state1 90000)
       = ReadinessCalculator.reasons
           (ReadinessCalculator.calculate (Some PolicyLoader.getFallbackPolicy)
              demo_state 90000)
    /\ ReadinessCalculator.positive
         (ReadinessCalculator.calculate (Some PolicyLoader.getFallbackPolicy) state1 90000)
       = ReadinessCalculator.positive
           (ReadinessCalculator.calculate (Some PolicyLoader.getFallbackPolicy)
              demo_state 90000).
Proof.
  refine (other_tabs_do_not_count demo_manager ∅ 2000 "checks" demo_state
            (Some PolicyLoader.getFallbackPolicy) 90000 eq_refl _ _); discriminate.
Defined.

Lemma tier3_can_be_completed_witness :
  snd (Tier3Modal.drive
         (Tier3Modal.createModalElement
            (Tier3Modal.buildConfig
               (mkTier3Template None None None None
                  (Some ["I reviewed the diff."; "I checked CI."]) (Some "MERGE"))
               "MERGE_NOW" "squash" "main"))
         (Tier3Modal.confirm_script 2 "MERGE"))
  = Some Tier3Modal.Completed.
Proof.
  exact (tier3_can_be_completed
           (mkTier3Template None None None None
              (Some ["I reviewed the diff."; "I checked CI."]) (Some "MERGE"))
           "MERGE_NOW" "squash" "main" eq_refl).
Defined.

Lemma padded_expected_text_blocks_witness :
  JS.trim " MERGE" = "MERGE"
  /\ snd (Tier3Modal.drive
            (Tier3Modal.createModalElement
               (Tier3Modal.buildConfig
                  (mkTier3Template None None None None (Some []) (Some " MERGE"))
                  "MERGE_NOW" "squash" "main"))
            [Tier3Modal.InputText " MERGE"; Tier3Modal.ClickConfirm])
     <> Some Tier3Modal.Completed.
Proof.
  split; [reflexivity|].
  refine (padded_expected_text_blocks
            (mkTier3Template None None None None (Some []) (Some " MERGE"))
            "MERGE_NOW" "squash" "main"
            [Tier3Modal.InputText " MERGE"; Tier3Modal.ClickConfirm] _).
  vm_compute. discriminate.
Defined.

Lemma tier2_proceed_needs_reason_witness :
  Tier2Modal.show [Tier2Modal.InputText "  reviewed the diff  "; Tier2Modal.ClickProceed]
  = Some (Tier2Modal.Proceed "reviewed the diff")
  /\ (10 <= String.length "reviewed the diff")%nat.
Proof.
  split; [reflexivity|].
  exact (proj1 (proj1 (tier2_proceed_needs_reason
                         [Tier2Modal.InputText "  reviewed the diff  ";
                          Tier2Modal.ClickProceed])
                  "reviewed the diff" eq_refl)).
Defined.

Lemma missing_template_aborts_witness :
  PolicyLoader.getTier3Template (Some catch_all_policy) "MERGE_NOW" = None
  /\ let '(w', tr, r) :=
       EventInterceptor.run
         (EventInterceptor.mkEnv (Some catch_all_policy) demo_logger demo_prId 90000
            "main" padded_confirmation)
         (EventInterceptor.handleCheckpoint confirm_merge_info confirm_merge_button)
         demo_world in
     r = Some tt
     /\ EventInterceptor.replay_issued tr = false
     /\ EventInterceptor.w_reissued w' = []
     /\ EventInterceptor.w_tier3Open w' = false
     /\ forall st, StateManager.currentState demo_manager = Some st ->
          exists st' older,
            StateManager.currentState (EventInterceptor.w_state w') = Some st'
            /\ checkpointHistory st' = older ++ [mkCheckpoint 90000 "MERGE_NOW" "aborted"].
Proof.
  split; [reflexivity|].
  exact (missing_template_aborts
           (EventInterceptor.mkEnv (Some catch_all_policy) demo_logger demo_prId 90000
              "main" padded_confirmation)
           demo_world confirm_merge_info confirm_merge_button eq_refl).
Defined.

Lemma unclassified_left_alone_witness :
  EventInterceptor.run (demo_env [])
    (EventInterceptor.handleClick literal_RegExp (Some PolicyLoader.getFallbackPolicy)
       demo_gate (click_on unnamed_button))
    demo_world
  = (demo_world, [EventInterceptor.OAwait (EventInterceptor.HasValidToken unnamed_button)],
     Some tt).
Proof.
  refine (proj1 (unclassified_left_alone literal_RegExp (demo_env []) demo_world demo_gate
                   (click_on unnamed_button) unnamed_button eq_refl _) eq_refl _).
  - vm_compute. reflexivity.
  - vm_compute. reflexivity.
Defined.

Lemma replayed_action_passes_once_witness :
  let '(s1, p1, re1, ok) :=
    SafeReplay.replay (Some PolicyLoader.getFallbackPolicy)
      (EventInterceptor.w_store demo_world) 88000 demo_prId
      (EventInterceptor.w_pending demo_world) (EventInterceptor.w_reissued demo_world)
      confirm_merge_button in
  ok = true
  /\ re1 = EventInterceptor.w_reissued demo_world ++ [node confirm_merge_button]
  /\ SafeReplay.isPending p1 confirm_merge_button = false
  /\ let '(w2, tr, r) :=
       EventInterceptor.run (demo_env [])
         (EventInterceptor.handleClick literal_RegExp
            (Some PolicyLoader.getFallbackPolicy) demo_gate
            (click_on confirm_merge_button))
         (EventInterceptor.mkWorld s1 (EventInterceptor.w_state demo_world) p1 re1
            (EventInterceptor.w_tier3Open demo_world)) in
     tr = [EventInterceptor.OAwait (EventInterceptor.HasValidToken confirm_merge_button);
           EventInterceptor.OAwait (EventInterceptor.ConsumeToken confirm_merge_button)]
     /\ r = Some tt
     /\ EventInterceptor.w_reissued w2 = re1
     /\ EventInterceptor.w_state w2 = EventInterceptor.w_state demo_world
     /\ forall later,
          SafeReplay.hasValidToken (EventInterceptor.w_store w2) later demo_prId
            confirm_merge_button = false.
Proof.
  refine (proj2 (replayed_action_passes_once literal_RegExp (demo_env []) demo_world
                   demo_gate (click_on confirm_merge_button) confirm_merge_button 88000
                   eq_refl eq_refl _) eq_refl).
  vm_compute. discriminate.
Defined.

Lemma namespaces_isolated_witness :
  Storage.getAll "other" (Storage.set "pais" (∅ : gmap string Z) "state:x" 1)
  = Storage.getAll "other" (∅ : gmap string Z).
Proof.
  exact (proj1 (proj1 (namespaces_isolated "pais" "other" ∅ "state:x" 1)
                  eq_refl eq_refl ltac:(discriminate))).
Defined.
